(** * cpu_load_poller: per-core CPU load sampling

    A shallow embedding of [wa/instruments/cpu_load_poller/cpu_load_poller.c]
    and the properties of its sampling engine: topology discovery
    ([count_cpus]), the counter parser ([parse_cpu_stats]), the load formula
    ([calculate_cpu_load]) and the emission loop of [main].

    Conventions.
    - [unsigned long long] values are integers in [0, 2^64); every addition
      and subtraction of the source is followed by [wrap64].
    - [double] values are IEEE 754 binary64 numbers, represented by
      [spec_float] with precision 53 and maximal exponent 1024; the
      arithmetic is the correctly rounded one of [SpecFloat].
    - text (the counter file, its lines, standard output) is [string].
    - [int] counters ([cpu_count], [num_cpus], the loop index) are integers;
      the overflow of [int], which takes a file of 2^31 lines, is not
      modelled. *)

From Stdlib Require Import ZArith String Ascii List Lia Bool DecimalString.
From Stdlib Require Import DecimalN DecimalPos.
From Stdlib Require Import Floats.SpecFloat.
From stdpp Require Import base tactics option list strings.

Open Scope Z_scope.

(** ** The C runtime the program relies on *)

Module C.

(** *** Unsigned 64-bit arithmetic *)

Definition ULLONG_MAX : Z := 2 ^ 64 - 1.

Definition wrap64 (z : Z) : Z := z mod 2 ^ 64.

Definition add64 (a b : Z) : Z := wrap64 (a + b).

Definition sub64 (a b : Z) : Z := wrap64 (a - b).

(** *** Binary64 arithmetic *)

Definition double : Type := spec_float.

Definition prec : Z := 53.
Definition emax : Z := 1024.

(** Conversion of an integer to [double], rounding to nearest even. *)
Definition double_of_Z (z : Z) : double := binary_normalize prec emax z 0 false.

Definition dadd : double -> double -> double := SFadd prec emax.
Definition dsub : double -> double -> double := SFsub prec emax.
Definition dmul : double -> double -> double := SFmul prec emax.
Definition ddiv : double -> double -> double := SFdiv prec emax.

Definition dzero : double := S754_zero false.

Definition is_zero (x : double) : bool :=
  match x with
  | S754_zero _ => true
  | _ => false
  end.

(** *** printf: the conversions the program uses *)

Definition digit_char (d : Z) : ascii := ascii_of_nat (48 + Z.to_nat d).

(** Decimal digits of a natural number, without leading zeros. *)
Definition decimal (n : Z) : string := NilZero.string_of_uint (N.to_uint (Z.to_N n)).

(** The [w] low decimal digits of [n], padded with zeros on the left. *)
Fixpoint padded_decimal (w : nat) (n : Z) : string :=
  match w with
  | O => EmptyString
  | S w' => padded_decimal w' (n / 10) +:+ String (digit_char (n mod 10)) EmptyString
  end.

(** [%d] of an [int]. *)
Definition format_d (n : Z) : string :=
  if n <? 0 then String "-" (decimal (- n)) else decimal n.

(** Nearest integer to [num / den], ties to even ([den] positive). *)
Definition round_half_even (num den : Z) : Z :=
  let q := num / den in
  match 2 * (num mod den) ?= den with
  | Lt => q
  | Gt => q + 1
  | Eq => if Z.even q then q else q + 1
  end.

(** [m * 2^e * 10^p] rounded to an integer. *)
Definition scaled (p : nat) (m : positive) (e : Z) : Z :=
  if 0 <=? e then Z.pos m * 2 ^ e * 10 ^ Z.of_nat p
  else round_half_even (Z.pos m * 10 ^ Z.of_nat p) (2 ^ (- e)).

Definition sign_prefix (s : bool) (body : string) : string :=
  if s then String "-" body else body.

Definition fixed_point (p : nat) (q : Z) : string :=
  let int_part := decimal (q / 10 ^ Z.of_nat p) in
  match p with
  | O => int_part
  | _ => int_part +:+ String "." (padded_decimal p (q mod 10 ^ Z.of_nat p))
  end.

(** [%.pf] of a [double], in the C locale. The decimal expansion of a
    binary64 number is finite, so the rounding to [p] places is exact.
    [spec_float] keeps no sign for NaN; it is printed unsigned. *)
Definition format_f (p : nat) (x : double) : string :=
  match x with
  | S754_nan => "nan"%string
  | S754_infinity s => sign_prefix s "inf"%string
  | S754_zero s => sign_prefix s (fixed_point p 0)
  | S754_finite s m e => sign_prefix s (fixed_point p (scaled p m e))
  end.

(** *** stdio input: fgets and sscanf *)

Definition newline : ascii := ascii_of_nat 10.
Definition NUL : ascii := ascii_of_nat 0.

(** [isspace] in the C locale: space, and the controls 9 to 13. *)
Definition isspace (c : ascii) : bool :=
  let n := nat_of_ascii c in
  (n =? 32)%nat || ((9 <=? n)%nat && (n <=? 13)%nat).

Definition isdigit (c : ascii) : bool :=
  let n := nat_of_ascii c in
  (48 <=? n)%nat && (n <=? 57)%nat.

Definition digit_value (c : ascii) : Z := Z.of_nat (nat_of_ascii c) - 48.

(** The characters one [fgets] call stores: at most [room] of them, up to
    and including the first newline; the second component is what is left
    of the file. *)
Fixpoint fgets_chars (room : nat) (file : string) : string * string :=
  match room, file with
  | S room', String c rest =>
      if Ascii.eqb c newline then (String c EmptyString, rest)
      else let (l, r) := fgets_chars room' rest in (String c l, r)
  | _, _ => (EmptyString, file)
  end.

(** [fgets(line, size, file)]: [None] is the NULL returned at end of file. *)
Definition fgets (size : nat) (file : string) : option (string * string) :=
  match file with
  | EmptyString => None
  | _ => Some (fgets_chars (size - 1) file)
  end.

(** The buffers returned by the successive calls of [fgets] until NULL. *)
Fixpoint read_lines (size fuel : nat) (file : string) : list string :=
  match fuel with
  | O => []
  | S fuel' =>
      match fgets size file with
      | None => []
      | Some (line, rest) => line :: read_lines size fuel' rest
      end
  end.

Definition fgets_lines (size : nat) (file : string) : list string :=
  read_lines size (String.length file) file.

(** A buffer read as a C string stops at its first NUL character. *)
Fixpoint c_str (buf : string) : string :=
  match buf with
  | EmptyString => EmptyString
  | String c rest => if Ascii.eqb c NUL then EmptyString else String c (c_str rest)
  end.

Fixpoint skip_space (s : string) : string :=
  match s with
  | String c rest => if isspace c then skip_space rest else s
  | EmptyString => s
  end.

(** The longest run of decimal digits at the head of [s], accumulated on
    [acc], and the rest of the input. *)
Fixpoint scan_digits (acc : Z) (s : string) : Z * string :=
  match s with
  | String c rest =>
      if isdigit c then scan_digits (10 * acc + digit_value c) rest else (acc, s)
  | EmptyString => (acc, s)
  end.

Definition scan_unsigned (s : string) : option (Z * string) :=
  match s with
  | String c rest => if isdigit c then Some (scan_digits (digit_value c) rest) else None
  | EmptyString => None
  end.

(** An optional sign and at least one digit: sign, magnitude, rest. *)
Definition scan_number (s : string) : option (bool * Z * string) :=
  match s with
  | String "-" rest =>
      match scan_unsigned rest with
      | Some (v, r) => Some (true, v, r)
      | None => None
      end
  | String "+" rest =>
      match scan_unsigned rest with
      | Some (v, r) => Some (false, v, r)
      | None => None
      end
  | _ =>
      match scan_unsigned s with
      | Some (v, r) => Some (false, v, r)
      | None => None
      end
  end.

(** The value [%llu] stores: as [strtoull], the magnitude saturates at
    [ULLONG_MAX] and a minus sign negates modulo 2^64. *)
Definition llu_value (neg : bool) (mag : Z) : Z :=
  if ULLONG_MAX <? mag then ULLONG_MAX
  else if neg then wrap64 (- mag) else mag.

(** The value [%d] converts. The program never reads the converted
    [cpu_id], so it is kept as the integer that was written. *)
Definition d_value (neg : bool) (mag : Z) : Z := if neg then - mag else mag.

Inductive directive : Type :=
| Lit (c : ascii)     (* an ordinary character, matched exactly *)
| Space               (* white space in the format: any run of white space *)
| Conv_d              (* %d *)
| Conv_llu.           (* %llu *)

(** [sscanf]: the values converted, in order, until the first directive
    that fails. The C function returns their number, or EOF when the
    input ends before the first conversion; the program compares the
    result with 1 and with 11 only, so EOF is not told apart from 0. *)
Fixpoint sscanf (fmt : list directive) (input : string) : list Z :=
  match fmt with
  | [] => []
  | Lit c :: fmt' =>
      match input with
      | String c' rest => if Ascii.eqb c c' then sscanf fmt' rest else []
      | EmptyString => []
      end
  | Space :: fmt' => sscanf fmt' (skip_space input)
  | Conv_d :: fmt' =>
      match scan_number (skip_space input) with
      | Some (neg, mag, rest) => d_value neg mag :: sscanf fmt' rest
      | None => []
      end
  | Conv_llu :: fmt' =>
      match scan_number (skip_space input) with
      | Some (neg, mag, rest) => llu_value neg mag :: sscanf fmt' rest
      | None => []
      end
  end.

End C.

Import C.

(** ** Data model *)

Record cpu_stats_t : Type := {
  user : Z;
  nice : Z;
  system : Z;
  idle : Z;
  iowait : Z;
  irq : Z;
  softirq : Z;
  steal : Z;
  guest : Z;
  guest_nice : Z
}.

Record cpu_data_t : Type := {
  current : cpu_stats_t;
  previous : cpu_stats_t
}.

(** ** The load formula *)

Definition get_total_time (stats : cpu_stats_t) : Z :=
  add64 (add64 (add64 (add64 (add64 (add64 (add64 (add64 (add64
    (user stats) (nice stats)) (system stats)) (idle stats))
    (iowait stats)) (irq stats)) (softirq stats)) (steal stats))
    (guest stats)) (guest_nice stats).

Definition get_idle_time (stats : cpu_stats_t) : Z :=
  add64 (idle stats) (iowait stats).

(** One floating-point division, as executed. *)
Record division : Type := { dividend : double; divisor : double }.

(** [calculate_cpu_load] together with the divisions it executes. *)
Definition calculate_cpu_load_traced (current previous : cpu_stats_t)
  : double * list division :=
  let total_current := get_total_time current in
  let total_previous := get_total_time previous in
  let idle_current := get_idle_time current in
  let idle_previous := get_idle_time previous in
  let total_diff := sub64 total_current total_previous in
  let idle_diff := sub64 idle_current idle_previous in
  if total_diff =? 0 then (dzero, [])
  else
    let d := {| dividend := double_of_Z idle_diff; divisor := double_of_Z total_diff |} in
    (dmul (double_of_Z 100) (dsub (double_of_Z 1) (ddiv (dividend d) (divisor d))), [d]).

Definition calculate_cpu_load (current previous : cpu_stats_t) : double :=
  fst (calculate_cpu_load_traced current previous).

(** ** Stores into the per-core state array *)

(** The ten members of [cpu_stats_t], in the order [sscanf] assigns them. *)
Inductive field : Type :=
| f_user | f_nice | f_system | f_idle | f_iowait
| f_irq | f_softirq | f_steal | f_guest | f_guest_nice.

Definition fields : list field :=
  [f_user; f_nice; f_system; f_idle; f_iowait;
   f_irq; f_softirq; f_steal; f_guest; f_guest_nice].

#[export] Instance field_eq_dec : EqDecision field.
Proof. solve_decision. Defined.

Definition get_field (f : field) (s : cpu_stats_t) : Z :=
  match f with
  | f_user => user s | f_nice => nice s | f_system => system s
  | f_idle => idle s | f_iowait => iowait s | f_irq => irq s
  | f_softirq => softirq s | f_steal => steal s | f_guest => guest s
  | f_guest_nice => guest_nice s
  end.

Definition set_field (f : field) (v : Z) (s : cpu_stats_t) : cpu_stats_t :=
  let '(Build_cpu_stats_t a b c d e g h i j k) := s in
  match f with
  | f_user => Build_cpu_stats_t v b c d e g h i j k
  | f_nice => Build_cpu_stats_t a v c d e g h i j k
  | f_system => Build_cpu_stats_t a b v d e g h i j k
  | f_idle => Build_cpu_stats_t a b c v e g h i j k
  | f_iowait => Build_cpu_stats_t a b c d v g h i j k
  | f_irq => Build_cpu_stats_t a b c d e v h i j k
  | f_softirq => Build_cpu_stats_t a b c d e g v i j k
  | f_steal => Build_cpu_stats_t a b c d e g h v j k
  | f_guest => Build_cpu_stats_t a b c d e g h i v k
  | f_guest_nice => Build_cpu_stats_t a b c d e g h i j v
  end.

(** One assignment [cpu_data[st_index].current.st_field = st_value]. *)
Record store : Type := { st_index : Z; st_field : field; st_value : Z }.

(** The array is a list with one [cpu_data_t] per allocated entry. A store
    outside the list is undefined in C; here it has no effect, and
    [parse_cpu_stats] is shown below never to issue one. *)
Definition store_current (cpu_data : list cpu_data_t) (st : store) : list cpu_data_t :=
  if st_index st <? 0 then cpu_data
  else
    alter (fun d => {| current := set_field (st_field st) (st_value st) (current d);
                       previous := previous d |})
          (Z.to_nat (st_index st)) cpu_data.

Definition run_stores (stores : list store) (cpu_data : list cpu_data_t) : list cpu_data_t :=
  foldl store_current cpu_data stores.

(** ** Topology discovery *)

(** The format ["cpu%d"]. *)
Definition fmt_cpu_id : list directive :=
  [Lit "c"; Lit "p"; Lit "u"; Conv_d].

Fixpoint count_loop (lines : list string) (cpu_count : Z) : Z :=
  match lines with
  | [] => cpu_count
  | line :: rest =>
      if (length (sscanf fmt_cpu_id (c_str line)) =? 1)%nat
      then count_loop rest (cpu_count + 1)
      else count_loop rest cpu_count
  end.

(** [file] is what is left to read of the counter file; [main] calls
    [count_cpus] right after [fopen], on the whole content. *)
Definition count_cpus (file : string) : Z :=
  count_loop (fgets_lines 256 file) 0.

(** ** The counter parser *)

(** The format ["cpu%d %llu %llu %llu %llu %llu %llu %llu %llu %llu %llu"]. *)
Definition fmt_cpu_stats : list directive :=
  fmt_cpu_id ++
  [Space; Conv_llu; Space; Conv_llu; Space; Conv_llu; Space; Conv_llu;
   Space; Conv_llu; Space; Conv_llu; Space; Conv_llu; Space; Conv_llu;
   Space; Conv_llu; Space; Conv_llu].

(** The assignments of one [sscanf] call with the eleven destinations
    [&cpu_id, &stats->user, ..., &stats->guest_nice], where [stats] is
    [&cpu_data[cpu_count].current]: the first converted value goes to the
    local [cpu_id], each further one to the next member. *)
Definition line_stores (cpu_count : Z) (vals : list Z) : list store :=
  match vals with
  | [] => []
  | _cpu_id :: counters =>
      zip_with (fun f v => {| st_index := cpu_count; st_field := f; st_value := v |})
               fields counters
  end.

Fixpoint parse_loop (lines : list string) (num_cpus cpu_count : Z) : list store * Z :=
  match lines with
  | [] => ([], cpu_count)
  | line :: rest =>
      if cpu_count <? num_cpus then
        let vals := sscanf fmt_cpu_stats (c_str line) in
        let cpu_count' := if (length vals =? 11)%nat then cpu_count + 1 else cpu_count in
        let (stores, n) := parse_loop rest num_cpus cpu_count' in
        (line_stores cpu_count vals ++ stores, n)
      else ([], cpu_count)
  end.

(** The stores [parse_cpu_stats] issues, in program order, and the value it
    returns. [file] is the whole content of the counter file: the function
    rewinds before reading. *)
Definition parse_cpu_stats_stores (file : string) (num_cpus : Z) : list store * Z :=
  parse_loop (fgets_lines 256 file) num_cpus 0.

Definition parse_cpu_stats (file : string) (cpu_data : list cpu_data_t) (num_cpus : Z)
  : list cpu_data_t * Z :=
  let (stores, cpu_count) := parse_cpu_stats_stores file num_cpus in
  (run_stores stores cpu_data, cpu_count).

(** ** main *)

Record timespec : Type := { tv_sec : Z; tv_nsec : Z }.

Record options : Type := {
  show_help : bool;
  should_write_marker : bool;
  interval : Z
}.

(** [atoi], and the cast of its result to [useconds_t]. *)
Definition atoi (s : string) : Z :=
  match scan_number (skip_space s) with
  | Some (neg, mag, _) => d_value neg mag
  | None => 0
  end.

Definition to_useconds (z : Z) : Z := z mod 2 ^ 32.

(** The option loop, over the successive results of [getopt]: the option
    character and the value of [optarg]. *)
Fixpoint parse_options (results : list (ascii * string)) (o : options) : options :=
  match results with
  | [] => o
  | (c, optarg) :: rest =>
      let o' :=
        if Ascii.eqb c "m" then
          {| show_help := show_help o; should_write_marker := true; interval := interval o |}
        else if Ascii.eqb c "t" then
          {| show_help := show_help o; should_write_marker := should_write_marker o;
             interval := to_useconds (atoi optarg) |}
        else
          {| show_help := true; should_write_marker := should_write_marker o;
             interval := interval o |} in
      parse_options rest o'
  end.

Definition default_options : options :=
  {| show_help := false; should_write_marker := false; interval := 1000000 |}.

(** What the process observes of its environment. The messages on the
    error stream and the trace marker do not reach standard output and are
    left out. *)
Record environment : Type := {
  getopt_results : list (ascii * string);
  (** [None] when [fopen] fails; otherwise the content of /proc/stat seen by
      each pass over the file: pass 0 is [count_cpus], pass 1 the initial
      [parse_cpu_stats], pass [2 + k] the one of loop iteration [k]. *)
  proc_stat : option (nat -> string);
  calloc_ok : bool;
  (** The time [clock_gettime] returns in loop iteration [k]. *)
  boottime : nat -> timespec
}.

Record outcome : Type := { stdout : string; exit_status : Z }.

Definition zero_stats : cpu_stats_t := Build_cpu_stats_t 0 0 0 0 0 0 0 0 0 0.

Definition zero_data : cpu_data_t := {| current := zero_stats; previous := zero_stats |}.

#[export] Instance cpu_data_inhabited : Inhabited cpu_data_t := populate zero_data.

Definition nl : string := String newline EmptyString.

(** [for (int i = 0; i < num_cpus; i++) printf(",cpu%d_load", i);] *)
Definition header_columns (num_cpus : Z) : string :=
  foldl (fun out i => out +:+ ",cpu" +:+ format_d i +:+ "_load")
        EmptyString (seqZ 0 num_cpus).

Definition header (num_cpus : Z) : string :=
  "time" +:+ header_columns num_cpus +:+ nl.

(** [cpu_data[i].previous = cpu_data[i].current]. The program does this
    for [i] below [num_cpus] only, within the [num_cpus] entries it
    allocated. *)
Definition advance (cpu_data : list cpu_data_t) (i : Z) : list cpu_data_t :=
  alter (fun d => {| current := current d; previous := current d |}) (Z.to_nat i) cpu_data.

Definition seed_previous (cpu_data : list cpu_data_t) (num_cpus : Z) : list cpu_data_t :=
  foldl advance cpu_data (seqZ 0 num_cpus).

Definition time_float (t : timespec) : double :=
  dadd (double_of_Z (tv_sec t)) (ddiv (double_of_Z (tv_nsec t)) (double_of_Z 1000000000)).

(** The load printed for core [i], an index below the length of the array.
    [guard] tells whether the program consults [first_reading]; it does, and
    [guard = false] is the variant that computes the load on the first
    iteration as well. *)
Definition core_load (guard first_reading : bool) (cpu_data : list cpu_data_t) (i : Z)
  : double :=
  let d := cpu_data !!! Z.to_nat i in
  if guard && first_reading then dzero
  else calculate_cpu_load (current d) (previous d).

(** The body of the per-core loop: print the load, update [previous]. *)
Definition emit_core (guard first_reading : bool)
    (st : list cpu_data_t * string) (i : Z) : list cpu_data_t * string :=
  let (cpu_data, out) := st in
  let load := core_load guard first_reading cpu_data i in
  (advance cpu_data i, out +:+ "," +:+ format_f 2 load).

(** One iteration of the polling loop, from [clock_gettime] to [fflush]. *)
Definition iteration (guard first_reading : bool) (file : string) (now : timespec)
    (num_cpus : Z) (cpu_data : list cpu_data_t) (out : string)
  : list cpu_data_t * string :=
  let (cpu_data1, _) := parse_cpu_stats file cpu_data num_cpus in
  let out1 := out +:+ format_f 6 (time_float now) in
  let (cpu_data2, out2) :=
    foldl (emit_core guard first_reading) (cpu_data1, out1) (seqZ 0 num_cpus) in
  (cpu_data2, out2 +:+ nl).

(** [ticks] iterations of [while (!done)], the [k]-th one first. *)
Fixpoint poll_loop (guard : bool) (reads : nat -> string) (clock : nat -> timespec)
    (num_cpus : Z) (ticks k : nat) (first_reading : bool)
    (cpu_data : list cpu_data_t) (out : string) : list cpu_data_t * string :=
  match ticks with
  | O => (cpu_data, out)
  | S ticks' =>
      let (cpu_data', out') :=
        iteration guard first_reading (reads (2 + k)%nat) (clock k) num_cpus cpu_data out in
      poll_loop guard reads clock num_cpus ticks' (S k) false cpu_data' out'
  end.

(** The state of the process when it enters the polling loop. *)
Definition initial_data (reads : nat -> string) (num_cpus : Z) : list cpu_data_t :=
  let cpu_data := replicate (Z.to_nat num_cpus) zero_data in
  let (cpu_data1, _) := parse_cpu_stats (reads 1%nat) cpu_data num_cpus in
  seed_previous cpu_data1 num_cpus.

(** [main], run until the loop test finds [done] set after [ticks]
    iterations (the test is reached only when initialisation succeeds). *)
Definition main_with (guard : bool) (env : environment) (ticks : nat) : outcome :=
  let opts := parse_options (getopt_results env) default_options in
  if show_help opts then {| stdout := EmptyString; exit_status := 1 |}
  else
    match proc_stat env with
    | None => {| stdout := EmptyString; exit_status := 2 |}
    | Some reads =>
        let num_cpus := count_cpus (reads 0%nat) in
        if num_cpus =? 0 then {| stdout := EmptyString; exit_status := 3 |}
        else if negb (calloc_ok env) then {| stdout := EmptyString; exit_status := 4 |}
        else
          let cpu_data := initial_data reads num_cpus in
          let (_, out) :=
            poll_loop guard reads (boottime env) num_cpus ticks 0 true
                      cpu_data (header num_cpus) in
          {| stdout := out; exit_status := 0 |}
    end.

Definition main : environment -> nat -> outcome := main_with true.

(** The program of the comparison in the first-tick discussion: [main]
    with the test of [first_reading] removed from the load computation. *)
Definition main_without_first_tick_flag : environment -> nat -> outcome :=
  main_with false.

(** ** The emission loop, statement by statement

    The polling loop of [main] as a machine that executes one statement per
    step, so that the delivery of SIGTERM can be placed between any two
    statements. Library calls run to completion. *)

Module Emission.

(** Program points, from [while (!done)] to [exit(0)]. *)
Inductive point : Type :=
| P_test                (* while (!done) *)
| P_clock               (* clock_gettime(CLOCK_BOOTTIME, &current_time) *)
| P_marker              (* if (should_write_marker && first_reading) ... *)
| P_parse               (* parse_cpu_stats(stat_file, cpu_data, num_cpus) *)
| P_print_time          (* time_float = ...; printf("%f", time_float) *)
| P_core (i : Z)        (* the per-core loop, at index i *)
| P_newline             (* printf("\n") *)
| P_flush               (* fflush(stdout) *)
| P_clear_first         (* first_reading = 0 *)
| P_sleep               (* usleep(interval) *)
| P_free                (* free(cpu_data) *)
| P_fclose              (* fclose(stat_file) *)
| P_exit                (* exit(0) *)
| P_halted (status : Z).

Record machine : Type := {
  pc : point;
  done : bool;
  first_reading : bool;
  num_cpus : Z;
  cpu_data : list cpu_data_t;
  current_time : timespec;
  (** Number of completed iterations: the index of the one in flight. *)
  tick : nat;
  (** The characters written to standard output so far. *)
  out : string;
  (** Whether [cpu_data] is still allocated and [stat_file] still open. *)
  cpu_data_live : bool;
  stat_file_open : bool
}.

Definition goto (p : point) (m : machine) : machine :=
  {| pc := p; done := done m; first_reading := first_reading m;
     num_cpus := num_cpus m; cpu_data := cpu_data m;
     current_time := current_time m; tick := tick m; out := out m;
     cpu_data_live := cpu_data_live m; stat_file_open := stat_file_open m |}.

Definition with_data (cd : list cpu_data_t) (o : string) (m : machine) : machine :=
  {| pc := pc m; done := done m; first_reading := first_reading m;
     num_cpus := num_cpus m; cpu_data := cd;
     current_time := current_time m; tick := tick m; out := o;
     cpu_data_live := cpu_data_live m; stat_file_open := stat_file_open m |}.

(** The handler: [void term(int signum) { done = 1; }]. *)
Definition term (m : machine) : machine :=
  {| pc := pc m; done := true; first_reading := first_reading m;
     num_cpus := num_cpus m; cpu_data := cpu_data m;
     current_time := current_time m; tick := tick m; out := out m;
     cpu_data_live := cpu_data_live m; stat_file_open := stat_file_open m |}.

Section Steps.

(** The counter file and the clock, as in [environment]. *)
Variable reads : nat -> string.
Variable clock : nat -> timespec.

(** One statement of the main thread. A halted machine stays put. *)
Definition step_program (m : machine) : machine :=
  match pc m with
  | P_test => if done m then goto P_free m else goto P_clock m
  | P_clock =>
      goto P_marker
        {| pc := pc m; done := done m; first_reading := first_reading m;
           num_cpus := num_cpus m; cpu_data := cpu_data m;
           current_time := clock (tick m); tick := tick m; out := out m;
           cpu_data_live := cpu_data_live m; stat_file_open := stat_file_open m |}
  | P_marker => goto P_parse m
  | P_parse =>
      goto P_print_time
        (with_data (fst (parse_cpu_stats (reads (2 + tick m)%nat) (cpu_data m) (num_cpus m)))
                   (out m) m)
  | P_print_time =>
      goto (P_core 0)
        (with_data (cpu_data m) (out m +:+ format_f 6 (time_float (current_time m))) m)
  | P_core i =>
      if i <? num_cpus m then
        let (cd, o) := emit_core true (first_reading m) (cpu_data m, out m) i in
        goto (P_core (i + 1)) (with_data cd o m)
      else goto P_newline m
  | P_newline => goto P_flush (with_data (cpu_data m) (out m +:+ nl) m)
  | P_flush => goto P_clear_first m
  | P_clear_first =>
      goto P_sleep
        {| pc := pc m; done := done m; first_reading := false;
           num_cpus := num_cpus m; cpu_data := cpu_data m;
           current_time := current_time m; tick := tick m; out := out m;
           cpu_data_live := cpu_data_live m; stat_file_open := stat_file_open m |}
  | P_sleep =>
      goto P_test
        {| pc := pc m; done := done m; first_reading := first_reading m;
           num_cpus := num_cpus m; cpu_data := cpu_data m;
           current_time := current_time m; tick := S (tick m); out := out m;
           cpu_data_live := cpu_data_live m; stat_file_open := stat_file_open m |}
  | P_free =>
      goto P_fclose
        {| pc := pc m; done := done m; first_reading := first_reading m;
           num_cpus := num_cpus m; cpu_data := cpu_data m;
           current_time := current_time m; tick := tick m; out := out m;
           cpu_data_live := false; stat_file_open := stat_file_open m |}
  | P_fclose =>
      goto P_exit
        {| pc := pc m; done := done m; first_reading := first_reading m;
           num_cpus := num_cpus m; cpu_data := cpu_data m;
           current_time := current_time m; tick := tick m; out := out m;
           cpu_data_live := cpu_data_live m; stat_file_open := false |}
  | P_exit => goto (P_halted 0) m
  | P_halted _ => m
  end.

(** What happens next: the main thread executes a statement, or SIGTERM
    is delivered and the handler runs. *)
Inductive event : Type := Run | Sigterm.

Definition step (m : machine) (e : event) : machine :=
  match e with
  | Run => step_program m
  | Sigterm => match pc m with P_halted _ => m | _ => term m end
  end.

Definition exec (schedule : list event) (m : machine) : machine :=
  foldl step m schedule.

End Steps.

Definition halted (m : machine) : bool :=
  match pc m with P_halted _ => true | _ => false end.

Definition exit_status (m : machine) : option Z :=
  match pc m with P_halted s => Some s | _ => None end.

(** An iteration is in flight from [clock_gettime] to the end of [usleep]. *)
Definition in_flight (m : machine) : bool :=
  match pc m with
  | P_clock | P_marker | P_parse | P_print_time | P_core _
  | P_newline | P_flush | P_clear_first | P_sleep => true
  | _ => false
  end.

(** Number of steps of the main thread in a schedule. *)
Fixpoint runs (schedule : list event) : nat :=
  match schedule with
  | [] => O
  | Run :: rest => S (runs rest)
  | Sigterm :: rest => runs rest
  end.

(** Number of statements left to execute once [done] is set. *)
Definition steps_left (m : machine) : nat :=
  match pc m with
  | P_halted _ => 0
  | P_exit => 1
  | P_fclose => 2
  | P_free => 3
  | P_test => 4
  | P_sleep => 5
  | P_clear_first => 6
  | P_flush => 7
  | P_newline => 8
  | P_core i => 9 + Z.to_nat (num_cpus m - i)
  | P_print_time => 10 + Z.to_nat (num_cpus m)
  | P_parse => 11 + Z.to_nat (num_cpus m)
  | P_marker => 12 + Z.to_nat (num_cpus m)
  | P_clock => 13 + Z.to_nat (num_cpus m)
  end%nat.

(** The machine when [main] reaches the loop for the first time, after
    the handler is installed; [None] when [main] exits before. *)
Definition start (env : environment) : option machine :=
  let opts := parse_options (getopt_results env) default_options in
  if show_help opts then None
  else
    match proc_stat env with
    | None => None
    | Some reads =>
        let n := count_cpus (reads 0%nat) in
        if n =? 0 then None
        else if negb (calloc_ok env) then None
        else
          Some {| pc := P_test; done := false; first_reading := true;
                  num_cpus := n; cpu_data := initial_data reads n;
                  current_time := {| tv_sec := 0; tv_nsec := 0 |};
                  tick := 0; out := header n;
                  cpu_data_live := true; stat_file_open := true |}
    end.

End Emission.

(** ** Notions used to state the properties *)

(** The sum of the ten counters and the idle time of a snapshot, as
    integers (no wrap-around). *)
Definition counters_sum (s : cpu_stats_t) : Z :=
  user s + nice s + system s + idle s + iowait s
  + irq s + softirq s + steal s + guest s + guest_nice s.

Definition idle_sum (s : cpu_stats_t) : Z := idle s + iowait s.

(** [100 * (1 - idle_delta / total_delta)], in binary64. *)
Definition load_formula (idle_delta total_delta : Z) : double :=
  dmul (double_of_Z 100)
       (dsub (double_of_Z 1) (ddiv (double_of_Z idle_delta) (double_of_Z total_delta))).

(** Number of occurrences of a character, and of comma-separated fields. *)
Fixpoint occurrences (c : ascii) (s : string) : nat :=
  match s with
  | EmptyString => O
  | String c' rest => ((if Ascii.eqb c c' then 1 else 0) + occurrences c rest)%nat
  end.

Definition columns (line : string) : nat := S (occurrences "," line).

Definition first_char (s : string) : option ascii :=
  match s with
  | EmptyString => None
  | String c _ => Some c
  end.

(** The text after the timestamp of a data row: [,load] for each load. *)
Fixpoint loads_text (loads : list double) : string :=
  match loads with
  | [] => EmptyString
  | l :: rest => "," +:+ format_f 2 l +:+ loads_text rest
  end.

(** A data row without its final newline, and the header likewise. *)
Definition row_line (now : timespec) (loads : list double) : string :=
  format_f 6 (time_float now) +:+ loads_text loads.

Definition header_line (num_cpus : Z) : string :=
  "time" +:+ header_columns num_cpus.

(** The column names [,cpu<i>_load] of the cores [ids]. *)
Fixpoint column_names (ids : list Z) : string :=
  match ids with
  | [] => EmptyString
  | i :: rest => ",cpu" +:+ format_d i +:+ "_load" +:+ column_names rest
  end.

Fixpoint rows_text (rows : list (timespec * list double)) : string :=
  match rows with
  | [] => EmptyString
  | (now, loads) :: rest => row_line now loads +:+ nl +:+ rows_text rest
  end.

(** The loads of one iteration, in core-index order, from the array as
    [parse_cpu_stats] left it. *)
Definition iteration_loads (guard first_reading : bool) (cpu_data : list cpu_data_t)
    (num_cpus : Z) : list double :=
  core_load guard first_reading cpu_data <$> seqZ 0 num_cpus.

(** The rows [poll_loop] prints, each with the time and the loads of its
    iteration. *)
Fixpoint rows_from (guard : bool) (reads : nat -> string) (clock : nat -> timespec)
    (num_cpus : Z) (ticks k : nat) (first_reading : bool) (cpu_data : list cpu_data_t)
  : list (timespec * list double) :=
  match ticks with
  | O => []
  | S ticks' =>
      let cpu_data1 := fst (parse_cpu_stats (reads (2 + k)%nat) cpu_data num_cpus) in
      (clock k, iteration_loads guard first_reading cpu_data1 num_cpus)
      :: rows_from guard reads clock num_cpus ticks' (S k) false
                   (seed_previous cpu_data1 num_cpus)
  end.

(** How a run of the process ends. *)
Inductive ending : Type :=
| Help_requested
| Open_failed
| No_cores
| Allocation_failed
| Clean_shutdown.

Definition ending_of (env : environment) : ending :=
  if show_help (parse_options (getopt_results env) default_options) then Help_requested
  else
    match proc_stat env with
    | None => Open_failed
    | Some reads =>
        if count_cpus (reads 0%nat) =? 0 then No_cores
        else if calloc_ok env then Clean_shutdown
        else Allocation_failed
    end.

(** The passes over the counter file; the empty file when [fopen] failed
    (no pass is made then). *)
Definition reads_of (env : environment) : nat -> string :=
  match proc_stat env with
  | Some reads => reads
  | None => fun _ => EmptyString
  end.

(** The discovered core count. *)
Definition core_count (env : environment) : Z := count_cpus (reads_of env 0%nat).

(** The data rows a run of [ticks] iterations prints. *)
Definition sample_rows (guard : bool) (env : environment) (ticks : nat)
  : list (timespec * list double) :=
  rows_from guard (reads_of env) (boottime env) (core_count env) ticks 0 true
            (initial_data (reads_of env) (core_count env)).

(** The stores of a trace that go to entry [i], as updates of a snapshot. *)
Definition stores_at (i : nat) (stores : list store) : list store :=
  filter (fun st => st_index st = Z.of_nat i) stores.

Definition apply_stores (s : cpu_stats_t) (stores : list store) : cpu_stats_t :=
  foldl (fun s st => set_field (st_field st) (st_value st) s) s stores.

(** The last value a trace stores into member [f], if any. *)
Fixpoint last_store (f : field) (stores : list store) : option Z :=
  match stores with
  | [] => None
  | st :: rest =>
      match last_store f rest with
      | Some v => Some v
      | None => if decide (st_field st = f) then Some (st_value st) else None
      end
  end.

(** A string made of decimal digits only. *)
Fixpoint digits_only (s : string) : bool :=
  match s with
  | EmptyString => true
  | String c rest => isdigit c && digits_only rest
  end.

(** The effect of a trace of stores on entry [i] of the array. *)
Definition stored (i : nat) (stores : list store) (d : cpu_data_t) : cpu_data_t :=
  {| current := apply_stores (current d) (stores_at i stores); previous := previous d |}.

(** The effect on entry [i] of copying [current] over [previous] in the
    first [n] entries. *)
Definition advanced (n i : nat) (d : cpu_data_t) : cpu_data_t :=
  if decide (i < n)%nat then {| current := current d; previous := current d |} else d.

(** ** The machine against [main] *)

Module Progress.
Import Emission.

(** The array and the output of [main] after [k] iterations. *)
Definition after (env : environment) (k : nat) : list cpu_data_t * string :=
  poll_loop true (reads_of env) (boottime env) (core_count env) k 0 true
            (initial_data (reads_of env) (core_count env)) (header (core_count env)).

(** The array once iteration [k] has parsed the file, and the output once
    it has printed its timestamp. *)
Definition parsed (env : environment) (k : nat) : list cpu_data_t :=
  fst (parse_cpu_stats (reads_of env (2 + k)%nat) (fst (after env k)) (core_count env)).

Definition timed (env : environment) (k : nat) : string :=
  snd (after env k) +:+ format_f 6 (time_float (boottime env k)).

Definition resources (m : machine) (live opened : bool) : Prop :=
  cpu_data_live m = live /\ stat_file_open m = opened.

(** What holds of the machine at each program point. *)
Definition inv (env : environment) (m : machine) : Prop :=
  num_cpus m = core_count env /\
  match pc m with
  | P_test | P_clock =>
      resources m true true /\ first_reading m = bool_decide (tick m = O)
      /\ (cpu_data m, out m) = after env (tick m)
  | P_marker | P_parse =>
      resources m true true /\ first_reading m = bool_decide (tick m = O)
      /\ (cpu_data m, out m) = after env (tick m)
      /\ current_time m = boottime env (tick m)
  | P_print_time =>
      resources m true true /\ first_reading m = bool_decide (tick m = O)
      /\ (cpu_data m, out m) = (parsed env (tick m), snd (after env (tick m)))
      /\ current_time m = boottime env (tick m)
  | P_core i =>
      resources m true true /\ first_reading m = bool_decide (tick m = O)
      /\ 0 <= i <= core_count env
      /\ (cpu_data m, out m)
         = foldl (emit_core true (first_reading m))
                 (parsed env (tick m), timed env (tick m)) (seqZ 0 i)
  | P_newline =>
      resources m true true /\ first_reading m = bool_decide (tick m = O)
      /\ (cpu_data m, out m)
         = foldl (emit_core true (first_reading m))
                 (parsed env (tick m), timed env (tick m)) (seqZ 0 (core_count env))
  | P_flush | P_clear_first =>
      resources m true true /\ (cpu_data m, out m) = after env (S (tick m))
  | P_sleep =>
      resources m true true /\ first_reading m = false
      /\ (cpu_data m, out m) = after env (S (tick m))
  | P_free => resources m true true /\ out m = snd (after env (tick m))
  | P_fclose => resources m false true /\ out m = snd (after env (tick m))
  | P_exit => resources m false false /\ out m = snd (after env (tick m))
  | P_halted s => s = 0 /\ resources m false false /\ out m = snd (after env (tick m))
  end.

(** Where a run that has seen the signal stops: after the row of the
    iteration in flight, if any. *)
Definition settles_at (K : nat) (m : machine) : Prop :=
  done m = true /\ (if in_flight m then S (tick m) else tick m) = K.

End Progress.

(** ** Sample inputs *)

(** A counter file with the aggregate line, two cores and another line. *)
Definition stat_sample : string :=
  "cpu 1 2 3 4 5 6 7 8 9 10" +:+ nl +:+
  "cpu0 1 2 3 4 5 6 7 8 9 10" +:+ nl +:+
  "cpu1 1 2 3 4 5 6 7 8 9 10" +:+ nl +:+
  "intr 5 6" +:+ nl.

(** The same file a little later: both cores have worked. *)
Definition stat_sample_later : string :=
  "cpu 2 2 3 4 5 6 7 8 9 10" +:+ nl +:+
  "cpu0 11 2 3 14 5 6 7 8 9 10" +:+ nl +:+
  "cpu1 1 2 103 24 5 6 7 8 9 10" +:+ nl +:+
  "intr 5 6" +:+ nl.

Definition sample_clock (k : nat) : timespec :=
  {| tv_sec := 100 + Z.of_nat k; tv_nsec := 500000000 |}.

(** The counters do not move during the run. *)
Definition steady_env : environment :=
  {| getopt_results := []; proc_stat := Some (fun _ => stat_sample);
     calloc_ok := true; boottime := sample_clock |}.

(** The counters move between the initial pass and the first iteration. *)
Definition busy_env : environment :=
  {| getopt_results := [];
     proc_stat := Some (fun k => if (k <=? 1)%nat then stat_sample else stat_sample_later);
     calloc_ok := true; boottime := sample_clock |}.


Definition snapshot_100 : cpu_stats_t := Build_cpu_stats_t 150 0 30 60 10 0 0 0 0 0.
Definition snapshot_0 : cpu_stats_t := Build_cpu_stats_t 100 0 0 50 0 0 0 0 0 0.

(** Two snapshots of a core between which [iowait] has gone down while the
    sum of the counters has gone up. *)
Definition snapshot_waiting : cpu_stats_t := Build_cpu_stats_t 80 0 0 50 10 0 0 0 0 0.
Definition snapshot_resumed : cpu_stats_t := Build_cpu_stats_t 100 0 0 50 0 0 0 0 0 0.

(** ** Counter files as the kernel writes them

    The text of /proc/stat, built from the counters it shows, and the
    notions used to state how the program reads it. *)

(** The strings of a list, one after the other. *)
Fixpoint join_pieces (pieces : list string) : string :=
  match pieces with
  | [] => EmptyString
  | s :: rest => s +:+ join_pieces rest
  end.

(** A piece of a file that one call of [fgets] with [room] characters of
    room returns whole: a line with its newline, of at most [room]
    characters, or [room] characters without a newline. *)
Definition whole_buffer (room : nat) (piece : string) : Prop :=
  (exists body, piece = body +:+ nl /\ occurrences newline body = O
                /\ (String.length body < room)%nat)
  \/ (occurrences newline piece = O /\ String.length piece = room /\ (0 < room)%nat).

(** The value of a decimal numeral read from the most significant digit,
    continuing [acc]. *)
Fixpoint uint_value (acc : Z) (u : Decimal.uint) : Z :=
  match u with
  | Decimal.Nil => acc
  | Decimal.D0 l => uint_value (10 * acc) l
  | Decimal.D1 l => uint_value (10 * acc + 1) l
  | Decimal.D2 l => uint_value (10 * acc + 2) l
  | Decimal.D3 l => uint_value (10 * acc + 3) l
  | Decimal.D4 l => uint_value (10 * acc + 4) l
  | Decimal.D5 l => uint_value (10 * acc + 5) l
  | Decimal.D6 l => uint_value (10 * acc + 6) l
  | Decimal.D7 l => uint_value (10 * acc + 7) l
  | Decimal.D8 l => uint_value (10 * acc + 8) l
  | Decimal.D9 l => uint_value (10 * acc + 9) l
  end.

(** The input does not go on with a digit. *)
Definition ends_number (rest : string) : bool :=
  match rest with
  | EmptyString => true
  | String c _ => negb (isdigit c)
  end.

(** The ten counters of a snapshot, in the order of the file. *)
Definition counters (s : cpu_stats_t) : list Z :=
  [user s; nice s; system s; idle s; iowait s;
   irq s; softirq s; steal s; guest s; guest_nice s].

(** The kernel's text for a list of counters: each after a space. *)
Fixpoint numbers_text (vs : list Z) : string :=
  match vs with
  | [] => EmptyString
  | v :: rest => " " +:+ decimal v +:+ numbers_text rest
  end.

(** The line of core [i] and the aggregate line, without the newline. *)
Definition core_body (i : Z) (s : cpu_stats_t) : string :=
  "cpu" +:+ decimal i +:+ numbers_text (counters s).

Definition aggregate_body (s : cpu_stats_t) : string :=
  "cpu " +:+ numbers_text (counters s).

Definition core_line (i : Z) (s : cpu_stats_t) : string := core_body i s +:+ nl.

Definition aggregate_line (s : cpu_stats_t) : string := aggregate_body s +:+ nl.

(** [k] times [" %llu"]. *)
Fixpoint llu_fmt (k : nat) : list directive :=
  match k with
  | O => []
  | S k' => Space :: Conv_llu :: llu_fmt k'
  end.

(** Counters as the kernel holds them: unsigned 64-bit values. *)
Definition in_range64 (s : cpu_stats_t) : Prop :=
  Forall (fun v => 0 <= v <= ULLONG_MAX) (counters s).

(** The lines of the cores [cores], labelled from [i] on. *)
Fixpoint core_lines (i : Z) (cores : list cpu_stats_t) : list string :=
  match cores with
  | [] => []
  | s :: rest => core_line i s :: core_lines (i + 1) rest
  end.

(** Whether a line begins with the tag [cpu]. *)
Definition has_cpu_tag (line : string) : bool :=
  match line with
  | String "c" (String "p" (String "u" _)) => true
  | _ => false
  end.

(** The counter file as the kernel writes it: the aggregate line, a line
    per core, then lines of other kinds. *)
Definition stat_text (agg : cpu_stats_t) (cores : list cpu_stats_t) (others : list string)
  : string :=
  join_pieces (aggregate_line agg :: core_lines 0 cores ++ others).

(** Its counters are unsigned 64-bit values, its lines fit the line buffer
    of the program, and the lines of other kinds do not carry the tag. *)
Definition kernel_format (agg : cpu_stats_t) (cores : list cpu_stats_t)
    (others : list string) : Prop :=
  in_range64 agg /\ Forall in_range64 cores
  /\ Forall (fun line => (String.length line <= 255)%nat)
            (aggregate_line agg :: core_lines 0 cores)
  /\ Forall (whole_buffer 255) others
  /\ Forall (fun line => has_cpu_tag line = false) others.

(** The ten stores that fill [cpu_data[c].current] with a snapshot. *)
Definition full_stores (c : Z) (s : cpu_stats_t) : list store :=
  zip_with (fun f v => {| st_index := c; st_field := f; st_value := v |}) fields (counters s).

Fixpoint cores_stores (c : nat) (cores : list cpu_stats_t) : list store :=
  match cores with
  | [] => []
  | s :: rest => full_stores (Z.of_nat c) s ++ cores_stores (S c) rest
  end.

(** The effect on an entry of parsing a file whose [j]-th core line
    carries [cores !! j]. *)
Definition refreshed (cores : list cpu_stats_t) (j : nat) (d : cpu_data_t) : cpu_data_t :=
  {| current := default (current d) (cores !! j); previous := previous d |}.

(** An option character that makes [main] print the usage text: any result
    of [getopt] other than ['m'] and ['t']. *)
Definition asks_help (result : ascii * string) : bool :=
  negb (Ascii.eqb (fst result) "m") && negb (Ascii.eqb (fst result) "t").

(** The counters a core shows once each of them has grown by the
    corresponding member of [delta], as 64-bit counters do. *)
Definition counters_after (prev delta : cpu_stats_t) : cpu_stats_t :=
  {| user := add64 (user prev) (user delta);
     nice := add64 (nice prev) (nice delta);
     system := add64 (system prev) (system delta);
     idle := add64 (idle prev) (idle delta);
     iowait := add64 (iowait prev) (iowait delta);
     irq := add64 (irq prev) (irq delta);
     softirq := add64 (softirq prev) (softirq delta);
     steal := add64 (steal prev) (steal delta);
     guest := add64 (guest prev) (guest delta);
     guest_nice := add64 (guest_nice prev) (guest_nice delta) |}.

(** The array of a run over files with the cores [cores], at the head of
    the loop: an entry per core with both snapshots equal to the counters
    last read, and the entry the aggregate line was counted for. *)
Definition settled_on (cores : list cpu_stats_t) : list cpu_data_t :=
  ((fun s => {| current := s; previous := s |}) <$> cores) ++ [zero_data].

(** The loads of iteration [k] of a run in which pass [i] over the file
    shows the counters [cores i]: pass [2 + k] against pass [1 + k], and a
    last column for the entry of the aggregate line. *)
Definition expected_loads (cores : nat -> list cpu_stats_t) (k : nat) : list double :=
  match k with
  | O => replicate (S (length (cores 2%nat))) dzero
  | S _ => zip_with calculate_cpu_load (cores (2 + k)%nat) (cores (1 + k)%nat) ++ [dzero]
  end.

Definition expected_rows (clock : nat -> timespec) (cores : nat -> list cpu_stats_t)
    (ticks : nat) : list (timespec * list double) :=
  (fun k => (clock k, expected_loads cores k)) <$> seq 0 ticks.

(** ** More sample inputs *)

(** A file in the kernel's format for two cores, and the counters of the
    cores one interval later. *)
Definition sample_aggregate : cpu_stats_t := Build_cpu_stats_t 200 0 0 100 0 0 0 0 0 0.
Definition sample_cores : list cpu_stats_t := [snapshot_0; snapshot_0].
Definition sample_cores_later : list cpu_stats_t := [snapshot_100; snapshot_0].
Definition sample_others : list string := ["intr 5 6" +:+ nl; "ctxt 7" +:+ nl].

(** The first 255 characters of an over-long line. *)
Definition long_head : string := string_of_list_ascii (replicate 255 "x"%char).

(** A counter about to wrap around, and an increase that makes it wrap. *)
Definition snapshot_high : cpu_stats_t :=
  Build_cpu_stats_t (2 ^ 64 - 5) 0 0 50 0 0 0 0 0 0.
Definition snapshot_increase : cpu_stats_t := Build_cpu_stats_t 15 0 0 5 0 0 0 0 0 0.

(** The passes of a run in which core 0 works after the first iteration,
    and the run. *)
Definition sample_passes (i : nat) : list cpu_stats_t :=
  if (i <=? 2)%nat then sample_cores else sample_cores_later.

Definition kernel_env : environment :=
  {| getopt_results := [("t"%char, "500000"%string)];
     proc_stat := Some (fun i => stat_text sample_aggregate (sample_passes i) sample_others);
     calloc_ok := true; boottime := sample_clock |}.

(** * Properties *)

#[local] Arguments String.append !s1 s2 : simpl nomatch.

Section Wrap.

Lemma wrap64_range z : 0 <= wrap64 z < 2 ^ 64.
Proof. unfold wrap64. apply Z.mod_pos_bound. lia. Qed.

Lemma add64_wrap_l a b : add64 (wrap64 a) b = wrap64 (a + b).
Proof. unfold add64, wrap64. apply Zplus_mod_idemp_l. Qed.

Lemma sub64_wrap a b : sub64 (wrap64 a) (wrap64 b) = wrap64 (a - b).
Proof.
  unfold sub64, wrap64.
  rewrite Zminus_mod_idemp_l, Zminus_mod_idemp_r. reflexivity.
Qed.

Lemma wrap64_small z : 0 <= z < 2 ^ 64 -> wrap64 z = z.
Proof. intros H. unfold wrap64. apply Z.mod_small. exact H. Qed.

Lemma sub64_diag a : sub64 a a = 0.
Proof. unfold sub64, wrap64. rewrite Z.sub_diag. reflexivity. Qed.

Lemma get_total_time_sum s : get_total_time s = wrap64 (counters_sum s).
Proof.
  unfold get_total_time, counters_sum.
  unfold add64 at 9. rewrite !add64_wrap_l. reflexivity.
Qed.

Lemma get_idle_time_sum s : get_idle_time s = wrap64 (idle_sum s).
Proof. reflexivity. Qed.

End Wrap.

Section Conversion.

Lemma digits2_pos_size p : digits2_pos p = Pos.size p.
Proof. induction p; simpl; congruence. Qed.

Lemma digits2_pos_lower p : 2 ^ (Z.pos (digits2_pos p) - 1) <= Z.pos p.
Proof.
  rewrite digits2_pos_size.
  pose proof (Pos.size_le p) as H.
  assert (2 ^ Z.pos (Pos.size p) <= 2 * Z.pos p) as H'.
  { change (2 * Z.pos p) with (Z.pos p~0). rewrite <- Pos2Z.inj_pow. lia. }
  replace (Z.pos (Pos.size p)) with (Z.pos (Pos.size p) - 1 + 1) in H' by lia.
  rewrite Z.pow_add_r in H' by lia. lia.
Qed.

Lemma shr_m_of_loc m l : shr_m (shr_record_of_loc m l) = m.
Proof. destruct l as [|[]]; reflexivity. Qed.

Lemma shr_1_m r : 0 <= shr_m r -> shr_m (shr_1 r) = shr_m r / 2.
Proof.
  destruct r as [m r s]. simpl. intros Hm.
  destruct m as [|[p|p|]|p]; simpl; try lia; try reflexivity.
  - rewrite Pos2Z.inj_xI. apply Z.div_unique with 1; lia.
  - rewrite Pos2Z.inj_xO. apply Z.div_unique with 0; lia.
Qed.

Lemma iter_pos_shr_1 n r :
  0 <= shr_m r -> shr_m (SpecFloat.iter_pos shr_1 n r) = shr_m r / 2 ^ Z.pos n.
Proof.
  revert r. induction n as [n IH|n IH|]; intros r Hr; simpl.
  - assert (0 <= shr_m (shr_1 r)) as H1.
    { rewrite shr_1_m by lia. apply Z.div_pos; lia. }
    assert (0 <= shr_m (SpecFloat.iter_pos shr_1 n (shr_1 r))) as H2.
    { rewrite IH by lia. apply Z.div_pos; lia. }
    rewrite IH, IH, shr_1_m by lia.
    rewrite !Z.div_div by lia.
    f_equal. rewrite <- Z.pow_add_r by lia.
    change 2 with (2 ^ 1) at 1. rewrite <- Z.pow_add_r by lia. f_equal. lia.
  - assert (0 <= shr_m (SpecFloat.iter_pos shr_1 n r)) as H2.
    { rewrite IH by lia. apply Z.div_pos; lia. }
    rewrite IH, IH by lia.
    rewrite !Z.div_div by lia.
    f_equal. rewrite <- Z.pow_add_r by lia. f_equal. lia.
  - rewrite shr_1_m by lia. reflexivity.
Qed.

(** Shifting a mantissa to its canonical exponent keeps it positive as
    long as the exponent is in the normal range. *)
Lemma shr_fexp_positive m e l :
  1 <= m -> -1022 <= e ->
  1 <= shr_m (fst (shr_fexp prec emax m e l)) /\ e <= snd (shr_fexp prec emax m e l).
Proof.
  intros Hm He. unfold shr_fexp, shr.
  destruct m as [|p|p]; try lia.
  pose proof (digits2_pos_lower p) as Hd.
  simpl Zdigits2.
  set (d := Z.pos (digits2_pos p)) in *.
  destruct (fexp prec emax (d + e) - e) as [|n|n] eqn:Hn; simpl.
  - rewrite shr_m_of_loc. lia.
  - rewrite iter_pos_shr_1 by (rewrite shr_m_of_loc; lia).
    rewrite shr_m_of_loc. split; [|lia].
    unfold fexp, SpecFloat.emin, prec, emax in Hn.
    assert (Z.pos n = d - 53) as -> by lia.
    assert (2 ^ (d - 1) = 2 ^ 52 * 2 ^ (d - 53)) as Hp.
    { rewrite <- Z.pow_add_r by lia. f_equal. lia. }
    assert (0 < 2 ^ (d - 53)) by (apply Z.pow_pos_nonneg; lia).
    apply Z.div_le_lower_bound; [lia|]. nia.
  - rewrite shr_m_of_loc. lia.
Qed.

Lemma round_nearest_even_ge m l : m <= round_nearest_even m l.
Proof. destruct l as [|[]]; simpl; try lia. destruct (Z.even m); lia. Qed.

Lemma binary_round_aux_nonzero s m e l :
  1 <= m -> -1022 <= e -> is_zero (binary_round_aux prec emax s m e l) = false.
Proof.
  intros Hm He. unfold binary_round_aux.
  pose proof (shr_fexp_positive m e l Hm He) as [H1 H2].
  destruct (shr_fexp prec emax m e l) as [r1 e1]. simpl in H1, H2.
  pose proof (round_nearest_even_ge (shr_m r1) (loc_of_shr_record r1)) as Hr.
  pose proof (shr_fexp_positive (round_nearest_even (shr_m r1) (loc_of_shr_record r1))
                e1 loc_Exact ltac:(lia) ltac:(lia)) as [H3 H4].
  destruct (shr_fexp prec emax _ e1 loc_Exact) as [r2 e2]. simpl in H3, H4.
  destruct (shr_m r2) as [|p|p]; try lia.
  destruct (e2 <=? emax - prec); reflexivity.
Qed.

(** The conversion of a positive integer to [double] is never zero. *)
Lemma double_of_Z_nonzero z : 0 < z -> is_zero (double_of_Z z) = false.
Proof.
  intros Hz. destruct z as [|p|p]; try lia.
  unfold double_of_Z, binary_normalize, binary_round, shl_align.
  pose proof (digits2_pos_lower p) as Hd.
  set (d := Z.pos (digits2_pos p)) in *.
  assert (1 <= d) by (unfold d; lia).
  destruct (fexp prec emax (d + 0) - 0) as [|n|n] eqn:Hn.
  - apply binary_round_aux_nonzero; lia.
  - apply binary_round_aux_nonzero; lia.
  - apply binary_round_aux_nonzero; [lia|].
    unfold fexp, SpecFloat.emin, prec, emax in *. lia.
Qed.

End Conversion.

Section Text.

Lemma occurrences_app c s1 s2 :
  occurrences c (s1 +:+ s2) = (occurrences c s1 + occurrences c s2)%nat.
Proof. induction s1 as [|a s1 IH]; simpl; [reflexivity|]. rewrite IH. lia. Qed.

Lemma first_char_app s1 s2 c :
  first_char s1 = Some c -> first_char (s1 +:+ s2) = Some c.
Proof. destruct s1; simpl; [discriminate|]. trivial. Qed.

Lemma append_assoc (s1 s2 s3 : string) : (s1 +:+ s2) +:+ s3 = s1 +:+ (s2 +:+ s3).
Proof. induction s1 as [|a s1 IH]; simpl; [reflexivity|]. rewrite IH. reflexivity. Qed.

Lemma append_nil_r (s : string) : s +:+ EmptyString = s.
Proof. induction s as [|a s IH]; simpl; [reflexivity|]. rewrite IH. reflexivity. Qed.

Lemma digits_only_app s1 s2 :
  digits_only (s1 +:+ s2) = digits_only s1 && digits_only s2.
Proof. induction s1 as [|a s1 IH]; simpl; [reflexivity|]. rewrite IH. apply andb_assoc. Qed.

Lemma isdigit_not_comma c : isdigit c = true -> Ascii.eqb "," c = false.
Proof.
  intros H. destruct (Ascii.eqb_spec "," c) as [<-|]; [discriminate H|reflexivity].
Qed.

Lemma digits_only_no_comma s : digits_only s = true -> occurrences "," s = O.
Proof.
  induction s as [|a s IH]; cbn [occurrences digits_only]; [reflexivity|].
  intros [Ha Hs]%andb_true_iff. rewrite (isdigit_not_comma _ Ha), IH by exact Hs.
  reflexivity.
Qed.

Lemma digits_only_uint u : digits_only (NilEmpty.string_of_uint u) = true.
Proof. induction u; simpl; auto. Qed.

Lemma digits_only_decimal n : digits_only (decimal n) = true.
Proof.
  unfold decimal, NilZero.string_of_uint.
  destruct (N.to_uint (Z.to_N n)); try reflexivity; apply (digits_only_uint (_ _)).
Qed.

Lemma first_char_decimal n : exists c, first_char (decimal n) = Some c /\ isdigit c = true.
Proof.
  unfold decimal, NilZero.string_of_uint.
  destruct (N.to_uint (Z.to_N n)); simpl; eauto.
Qed.

Lemma isdigit_digit_char d : 0 <= d < 10 -> isdigit (digit_char d) = true.
Proof.
  intros H.
  assert (d = 0 \/ d = 1 \/ d = 2 \/ d = 3 \/ d = 4 \/ d = 5 \/ d = 6 \/ d = 7
          \/ d = 8 \/ d = 9) as Hd by lia.
  repeat (destruct Hd as [->|Hd]; [reflexivity|]). subst d. reflexivity.
Qed.

Lemma digits_only_padded w n : digits_only (padded_decimal w n) = true.
Proof.
  revert n. induction w as [|w IH]; intros n; simpl; [reflexivity|].
  rewrite digits_only_app, IH. cbn [digits_only].
  rewrite isdigit_digit_char by (apply Z.mod_pos_bound; lia). reflexivity.
Qed.

Lemma fixed_point_no_comma p q : occurrences "," (fixed_point p q) = O.
Proof.
  unfold fixed_point. destruct p as [|p].
  - apply digits_only_no_comma, digits_only_decimal.
  - rewrite occurrences_app. cbn [occurrences].
    rewrite !digits_only_no_comma by auto using digits_only_decimal, digits_only_padded.
    reflexivity.
Qed.

Lemma sign_prefix_no_comma s body :
  occurrences "," (sign_prefix s body) = occurrences "," body.
Proof. destruct s; reflexivity. Qed.

(** A formatted number contains no comma. *)
Lemma format_f_no_comma p x : occurrences "," (format_f p x) = O.
Proof.
  destruct x; cbn [format_f]; rewrite ?sign_prefix_no_comma;
    auto using fixed_point_no_comma.
Qed.

Lemma format_d_no_comma n : occurrences "," (format_d n) = O.
Proof.
  unfold format_d. destruct (n <? 0); cbn [occurrences];
    rewrite digits_only_no_comma by apply digits_only_decimal; reflexivity.
Qed.

Lemma first_char_fixed_point p q :
  exists c, first_char (fixed_point p q) = Some c /\ isdigit c = true.
Proof.
  destruct (first_char_decimal (q / 10 ^ Z.of_nat p)) as (c & Hc & Hd).
  exists c. split; [|exact Hd].
  unfold fixed_point. destruct p; [exact Hc|]. apply first_char_app, Hc.
Qed.

(** A formatted number does not begin like the header. *)
Lemma first_char_format_f p x : first_char (format_f p x) <> Some "t"%char.
Proof.
  destruct x as [s|s| |s m e]; simpl.
  - destruct s; simpl; [discriminate|].
    destruct (first_char_fixed_point p 0) as (c & -> & Hd). intros [= ->]. discriminate Hd.
  - destruct s; discriminate.
  - discriminate.
  - destruct s; simpl; [discriminate|].
    destruct (first_char_fixed_point p (scaled p m e)) as (c & -> & Hd).
    intros [= ->]. discriminate Hd.
Qed.

Lemma loads_text_commas loads : occurrences "," (loads_text loads) = length loads.
Proof.
  induction loads as [|l loads IH]; simpl; [reflexivity|].
  rewrite occurrences_app, format_f_no_comma, IH. reflexivity.
Qed.

Lemma row_line_columns now loads : columns (row_line now loads) = S (length loads).
Proof.
  unfold columns, row_line.
  rewrite occurrences_app, format_f_no_comma, loads_text_commas. reflexivity.
Qed.

Lemma first_char_row_line now loads : first_char (row_line now loads) <> Some "t"%char.
Proof.
  unfold row_line. pose proof (first_char_format_f 6 (time_float now)) as H.
  destruct (format_f 6 (time_float now)); [|exact H].
  simpl. destruct loads; simpl; discriminate.
Qed.

End Text.

Section Stdio.

Lemma fgets_chars_length room file :
  (String.length (fst (fgets_chars room file)) + String.length (snd (fgets_chars room file))
   = String.length file)%nat.
Proof.
  revert file. induction room as [|room IH]; intros [|c rest]; try reflexivity.
  cbn [fgets_chars]. destruct (Ascii.eqb c newline); [reflexivity|].
  specialize (IH rest). destruct (fgets_chars room rest) as [l r].
  cbn [fst snd String.length] in *. lia.
Qed.

(** A call of [fgets] with room for a character consumes at least one. *)
Lemma fgets_consumes size file line rest :
  (2 <= size)%nat -> fgets size file = Some (line, rest) ->
  (String.length rest < String.length file)%nat.
Proof.
  intros Hsize. unfold fgets. destruct file as [|c file]; [discriminate|].
  destruct size as [|[|room]]; try lia. cbn [Nat.sub fgets_chars].
  destruct (Ascii.eqb c newline).
  - intros [= <- <-]. cbn. lia.
  - pose proof (fgets_chars_length room file) as Hlen.
    destruct (fgets_chars room file) as [l r]. intros [= <- <-].
    cbn [fst snd String.length] in *. lia.
Qed.

Lemma read_lines_enough size fuel1 :
  (2 <= size)%nat ->
  forall fuel2 file,
    (String.length file <= fuel1)%nat -> (String.length file <= fuel2)%nat ->
    read_lines size fuel1 file = read_lines size fuel2 file.
Proof.
  intros Hsize. induction fuel1 as [|fuel1 IH]; intros fuel2 file H1 H2.
  - destruct file; [|cbn in H1; lia]. destruct fuel2; reflexivity.
  - destruct fuel2 as [|fuel2].
    + destruct file; [reflexivity|cbn in H2; lia].
    + cbn [read_lines]. destruct (fgets size file) as [[line rest]|] eqn:Hg; [|reflexivity].
      pose proof (fgets_consumes size file line rest Hsize Hg).
      f_equal. apply IH; lia.
Qed.

(** The lines of a file are the buffer of the first [fgets] call followed by
    the lines of what that call leaves: the fuel of [fgets_lines] never
    runs out. *)
Lemma fgets_lines_unfold size file :
  (2 <= size)%nat ->
  fgets_lines size file
  = match fgets size file with
    | None => []
    | Some (line, rest) => line :: fgets_lines size rest
    end.
Proof.
  intros Hsize. unfold fgets_lines. destruct file as [|c file]; [reflexivity|].
  cbn [String.length read_lines].
  destruct (fgets size (String c file)) as [[line rest]|] eqn:Hg; [|reflexivity].
  pose proof (fgets_consumes size _ line rest Hsize Hg) as Hlt.
  f_equal. apply read_lines_enough; [exact Hsize| |lia]. cbn [String.length] in Hlt. lia.
Qed.

Lemma isdigit_not_space c : isdigit c = true -> isspace c = false.
Proof.
  unfold isdigit, isspace. intros [H1 H2]%andb_true_iff.
  apply Nat.leb_le in H1. apply Nat.leb_le in H2.
  apply orb_false_iff. split.
  - apply Nat.eqb_neq. lia.
  - apply andb_false_iff. right. apply Nat.leb_gt. lia.
Qed.

Lemma scan_number_digit c rest :
  isdigit c = true ->
  scan_number (String c rest)
  = Some (false, fst (scan_digits (digit_value c) rest),
          snd (scan_digits (digit_value c) rest)).
Proof.
  intros Hd. unfold scan_number, scan_unsigned. rewrite Hd.
  destruct (scan_digits (digit_value c) rest) as [v r].
  destruct c as [[] [] [] [] [] [] [] []]; try discriminate Hd; reflexivity.
Qed.

(** A line whose tag is followed by white space and then a digit is
    counted as a core line: [%d] skips the white space. *)
Lemma aggregate_line_matches ws c rest :
  isspace ws = true -> isdigit c = true ->
  length (sscanf fmt_cpu_id ("cpu" +:+ String ws (String c rest))) = 1%nat.
Proof.
  intros Hws Hd. unfold fmt_cpu_id.
  change ("cpu" +:+ String ws (String c rest))
    with (String "c" (String "p" (String "u" (String ws (String c rest))))).
  cbn [sscanf]. rewrite !Ascii.eqb_refl. cbn [skip_space]. rewrite Hws.
  rewrite (isdigit_not_space c Hd), scan_number_digit by exact Hd. reflexivity.
Qed.

End Stdio.

Section Stores.

Lemma get_set_field f g v s :
  get_field f (set_field g v s) = if decide (g = f) then v else get_field f s.
Proof. destruct s, f, g; reflexivity. Qed.

Lemma stats_ext a b : (forall f, get_field f a = get_field f b) -> a = b.
Proof.
  intros H. destruct a, b.
  pose proof (H f_user). pose proof (H f_nice). pose proof (H f_system).
  pose proof (H f_idle). pose proof (H f_iowait). pose proof (H f_irq).
  pose proof (H f_softirq). pose proof (H f_steal). pose proof (H f_guest).
  pose proof (H f_guest_nice). simpl in *. congruence.
Qed.

(** The last store to a member wins. *)
Lemma get_field_apply_stores f stores s :
  get_field f (apply_stores s stores) = default (get_field f s) (last_store f stores).
Proof.
  revert s. induction stores as [|st stores IH]; intros s; [reflexivity|].
  unfold apply_stores in *. cbn [foldl last_store]. rewrite IH.
  destruct (last_store f stores) as [v|]; [reflexivity|].
  rewrite get_set_field. destruct (decide (st_field st = f)); reflexivity.
Qed.

Lemma apply_stores_idem stores s :
  apply_stores (apply_stores s stores) stores = apply_stores s stores.
Proof.
  apply stats_ext. intros f. rewrite !get_field_apply_stores.
  destruct (last_store f stores); reflexivity.
Qed.

Lemma lookup_store_current cpu_data st i :
  store_current cpu_data st !! i = stored i [st] <$> cpu_data !! i.
Proof.
  unfold store_current, stored, stores_at.
  assert (forall o : option cpu_data_t,
    (fun d => {| current := apply_stores (current d) []; previous := previous d |}) <$> o = o)
    as Hid by (intros [[]|]; reflexivity).
  destruct (Z.ltb_spec (st_index st) 0) as [Hneg|Hpos].
  - rewrite filter_cons_False by lia. symmetry. apply Hid.
  - destruct (decide (Z.to_nat (st_index st) = i)) as [<-|Hne].
    + rewrite list_lookup_alter_eq, filter_cons_True by lia. reflexivity.
    + rewrite list_lookup_alter_ne, filter_cons_False by lia. symmetry. apply Hid.
Qed.

(** Entry by entry, a trace of stores rewrites [current] with the stores
    addressed to that entry and leaves [previous] alone. *)
Lemma lookup_run_stores stores cpu_data i :
  run_stores stores cpu_data !! i = stored i stores <$> cpu_data !! i.
Proof.
  revert cpu_data. induction stores as [|st stores IH]; intros cpu_data.
  - unfold run_stores. cbn [foldl]. destruct (cpu_data !! i) as [[]|]; reflexivity.
  - unfold run_stores in *. cbn [foldl]. rewrite IH, lookup_store_current.
    destruct (cpu_data !! i) as [d|]; [|reflexivity].
    cbn [fmap option_fmap option_map]. f_equal.
    unfold stored, stores_at. cbn [current previous]. f_equal.
    destruct (decide (st_index st = Z.of_nat i)) as [He|Hne].
    + rewrite !filter_cons_True by assumption. reflexivity.
    + rewrite !filter_cons_False by assumption. reflexivity.
Qed.

Lemma length_run_stores stores cpu_data :
  length (run_stores stores cpu_data) = length cpu_data.
Proof.
  revert cpu_data. induction stores as [|st stores IH]; intros cpu_data; [reflexivity|].
  unfold run_stores in *. cbn [foldl]. rewrite IH. unfold store_current.
  destruct (st_index st <? 0); [reflexivity|]. apply length_alter.
Qed.

Lemma stores_at_none i stores :
  Forall (fun st => st_index st <> Z.of_nat i) stores -> stores_at i stores = [].
Proof.
  induction 1 as [|st stores H _ IH]; [reflexivity|].
  unfold stores_at in *. rewrite filter_cons_False by assumption. exact IH.
Qed.

End Stores.

Section Parser.

Lemma line_stores_index c vals :
  Forall (fun st => st_index st = c) (line_stores c vals).
Proof.
  destruct vals as [|v vals]; [constructor|]. cbn [line_stores].
  apply Forall_forall. intros st (f & x & -> & _)%elem_of_zip_with. reflexivity.
Qed.

Lemma parse_loop_count lines num_cpus c :
  c <= snd (parse_loop lines num_cpus c) <= Z.max c num_cpus.
Proof.
  revert c. induction lines as [|line rest IH]; intros c; cbn [parse_loop].
  - cbn. lia.
  - destruct (Z.ltb_spec c num_cpus) as [Hlt|Hge]; [|cbn; lia].
    set (c' := if (length _ =? 11)%nat then c + 1 else c).
    assert (c <= c' <= c + 1) as Hc' by (subst c'; destruct (_ =? _)%nat; lia).
    specialize (IH c'). destruct (parse_loop rest num_cpus c') as [stores n].
    cbn in *. lia.
Qed.

(** Every store goes to an entry between the starting count and the
    returned one, and below [num_cpus]. *)
Lemma parse_loop_indices lines num_cpus c :
  Forall (fun st => c <= st_index st <= snd (parse_loop lines num_cpus c)
                    /\ st_index st < num_cpus)
         (fst (parse_loop lines num_cpus c)).
Proof.
  revert c. induction lines as [|line rest IH]; intros c; cbn [parse_loop].
  - constructor.
  - destruct (Z.ltb_spec c num_cpus) as [Hlt|Hge]; [|constructor].
    set (c' := if (length _ =? 11)%nat then c + 1 else c).
    assert (c <= c' <= c + 1) as Hc' by (subst c'; destruct (_ =? _)%nat; lia).
    specialize (IH c'). pose proof (parse_loop_count rest num_cpus c') as Hn.
    destruct (parse_loop rest num_cpus c') as [stores n]. cbn in *.
    apply Forall_app. split.
    + eapply Forall_impl; [apply line_stores_index|]. cbn. intros st ->. lia.
    + eapply Forall_impl; [exact IH|]. cbn. intros st ?. lia.
Qed.

End Parser.

Section Loop.

Lemma lookup_foldl_advance cpu_data n i :
  foldl advance cpu_data (seqZ 0 (Z.of_nat n)) !! i = advanced n i <$> cpu_data !! i.
Proof.
  induction n as [|n IH].
  - rewrite seqZ_nil by lia. cbn [foldl]. unfold advanced.
    destruct (cpu_data !! i); [|reflexivity]. cbn. rewrite decide_False by lia. reflexivity.
  - rewrite seqZ_S, foldl_app. cbn [foldl]. unfold advance at 1.
    replace (Z.to_nat (0 + Z.of_nat n)) with n by lia.
    destruct (decide (n = i)) as [<-|Hne].
    + rewrite list_lookup_alter_eq, IH.
      destruct (cpu_data !! n) as [d|]; [|reflexivity]. cbn. unfold advanced.
      rewrite decide_False, decide_True by lia. reflexivity.
    + rewrite list_lookup_alter_ne, IH by exact Hne.
      destruct (cpu_data !! i) as [d|]; [|reflexivity]. cbn. unfold advanced.
      destruct (decide (i < n)%nat).
      * rewrite decide_True by lia. reflexivity.
      * rewrite decide_False by lia. reflexivity.
Qed.

Lemma seqZ_to_nat m n : seqZ m n = seqZ m (Z.of_nat (Z.to_nat n)).
Proof.
  destruct (Z.le_gt_cases 0 n).
  - rewrite Z2Nat.id by assumption. reflexivity.
  - rewrite !seqZ_nil by lia. reflexivity.
Qed.

(** Seeding copies [current] over [previous] in the first [num_cpus]
    entries. *)
Lemma lookup_seed_previous cpu_data num_cpus i :
  seed_previous cpu_data num_cpus !! i = advanced (Z.to_nat num_cpus) i <$> cpu_data !! i.
Proof. unfold seed_previous. rewrite seqZ_to_nat. apply lookup_foldl_advance. Qed.

Lemma length_seed_previous cpu_data num_cpus :
  length (seed_previous cpu_data num_cpus) = length cpu_data.
Proof.
  unfold seed_previous. generalize (seqZ 0 num_cpus). intros l. revert cpu_data.
  induction l as [|i l IH]; intros cpu_data; [reflexivity|].
  cbn [foldl]. rewrite IH. apply length_alter.
Qed.

Lemma loads_text_app l1 l2 : loads_text (l1 ++ l2) = loads_text l1 +:+ loads_text l2.
Proof.
  induction l1 as [|x l1 IH]; [reflexivity|].
  cbn [app loads_text]. rewrite IH, !append_assoc. reflexivity.
Qed.

Lemma core_load_advanced guard first cpu_data n :
  core_load guard first (foldl advance cpu_data (seqZ 0 (Z.of_nat n))) (0 + Z.of_nat n)
  = core_load guard first cpu_data (0 + Z.of_nat n).
Proof.
  unfold core_load. rewrite !list_lookup_total_alt, lookup_foldl_advance.
  replace (Z.to_nat (0 + Z.of_nat n)) with n by lia.
  destruct (cpu_data !! n) as [d|]; [|reflexivity]. cbn. unfold advanced.
  rewrite decide_False by lia. reflexivity.
Qed.

Lemma foldl_emit_core_nat guard first cpu_data out n :
  foldl (emit_core guard first) (cpu_data, out) (seqZ 0 (Z.of_nat n))
  = (foldl advance cpu_data (seqZ 0 (Z.of_nat n)),
     out +:+ loads_text (core_load guard first cpu_data <$> seqZ 0 (Z.of_nat n))).
Proof.
  induction n as [|n IH].
  - rewrite seqZ_nil by lia. cbn. rewrite append_nil_r. reflexivity.
  - rewrite seqZ_S, !foldl_app, IH, fmap_app, loads_text_app.
    cbn [foldl emit_core fmap list_fmap loads_text].
    rewrite core_load_advanced, append_nil_r, !append_assoc. reflexivity.
Qed.

(** The per-core loop prints the loads computed from the array as the
    parser left it, and copies [current] over [previous]. *)
Lemma foldl_emit_core guard first cpu_data out num_cpus :
  foldl (emit_core guard first) (cpu_data, out) (seqZ 0 num_cpus)
  = (seed_previous cpu_data num_cpus,
     out +:+ loads_text (iteration_loads guard first cpu_data num_cpus)).
Proof.
  unfold seed_previous, iteration_loads. rewrite (seqZ_to_nat 0 num_cpus).
  apply foldl_emit_core_nat.
Qed.

Lemma iteration_eq guard first file now num_cpus cpu_data out :
  iteration guard first file now num_cpus cpu_data out
  = let cpu_data1 := fst (parse_cpu_stats file cpu_data num_cpus) in
    (seed_previous cpu_data1 num_cpus,
     out +:+ row_line now (iteration_loads guard first cpu_data1 num_cpus) +:+ nl).
Proof.
  unfold iteration. destruct (parse_cpu_stats file cpu_data num_cpus) as [cpu_data1 k].
  rewrite foldl_emit_core. cbn [fst]. unfold row_line.
  rewrite !append_assoc. reflexivity.
Qed.

(** The loop prints exactly the rows of [rows_from]. *)
Lemma poll_loop_rows guard reads clock num_cpus ticks :
  forall k first cpu_data out,
    snd (poll_loop guard reads clock num_cpus ticks k first cpu_data out)
    = out +:+ rows_text (rows_from guard reads clock num_cpus ticks k first cpu_data).
Proof.
  induction ticks as [|ticks IH]; intros k first cpu_data out.
  - cbn. rewrite append_nil_r. reflexivity.
  - cbn [poll_loop rows_from rows_text]. rewrite iteration_eq. cbv beta iota zeta.
    rewrite IH, !append_assoc. reflexivity.
Qed.

Lemma poll_loop_S guard reads clock num_cpus ticks k first cpu_data out :
  poll_loop guard reads clock num_cpus (S ticks) k first cpu_data out
  = let (cpu_data', out') :=
      iteration guard first (reads (2 + k)%nat) (clock k) num_cpus cpu_data out in
    poll_loop guard reads clock num_cpus ticks (S k) false cpu_data' out'.
Proof. reflexivity. Qed.

Lemma poll_loop_snoc guard reads clock num_cpus ticks :
  forall k first cpu_data out,
    poll_loop guard reads clock num_cpus (S ticks) k first cpu_data out
    = let (cpu_data', out') :=
        poll_loop guard reads clock num_cpus ticks k first cpu_data out in
      iteration guard (first && bool_decide (ticks = O))
                (reads (2 + (k + ticks))%nat) (clock (k + ticks)%nat)
                num_cpus cpu_data' out'.
Proof.
  induction ticks as [|ticks IH]; intros k first cpu_data out.
  - cbn [poll_loop]. rewrite Nat.add_0_r, andb_true_r.
    destruct (iteration _ _ _ _ _ _ _); reflexivity.
  - rewrite (poll_loop_S _ _ _ _ (S ticks)), (poll_loop_S _ _ _ _ ticks k).
    destruct (iteration guard first _ _ num_cpus cpu_data out) as [cd1 out1].
    rewrite IH. rewrite andb_false_l, andb_false_r.
    replace (S k + ticks)%nat with (k + S ticks)%nat by lia. reflexivity.
Qed.

End Loop.

Section Engine.

Lemma calculate_cpu_load_traced_zero cur prev :
  sub64 (get_total_time cur) (get_total_time prev) = 0 ->
  calculate_cpu_load_traced cur prev = (dzero, []).
Proof. intros H. unfold calculate_cpu_load_traced. rewrite H. reflexivity. Qed.

Lemma calculate_cpu_load_same s : calculate_cpu_load s s = dzero.
Proof.
  unfold calculate_cpu_load. rewrite calculate_cpu_load_traced_zero; [reflexivity|].
  apply sub64_diag.
Qed.

(** When [current] equals [previous] in the first [num_cpus] entries,
    every load of the iteration is zero, with or without the flag. *)
Lemma settled_loads guard first cpu_data num_cpus :
  (forall i, (i < Z.to_nat num_cpus)%nat ->
             current (cpu_data !!! i) = previous (cpu_data !!! i)) ->
  iteration_loads guard first cpu_data num_cpus = replicate (Z.to_nat num_cpus) dzero.
Proof.
  intros H. unfold iteration_loads.
  rewrite <- (length_seqZ 0 num_cpus). apply const_fmap.
  intros j x [-> Hj]%lookup_seqZ. unfold core_load.
  destruct (guard && first); [reflexivity|].
  rewrite H by lia. apply calculate_cpu_load_same.
Qed.

Lemma first_tick_loads cpu_data num_cpus :
  iteration_loads true true cpu_data num_cpus = replicate (Z.to_nat num_cpus) dzero.
Proof.
  unfold iteration_loads. rewrite <- (length_seqZ 0 num_cpus). apply const_fmap.
  reflexivity.
Qed.

Lemma fst_parse_cpu_stats file cpu_data num_cpus :
  fst (parse_cpu_stats file cpu_data num_cpus)
  = run_stores (fst (parse_cpu_stats_stores file num_cpus)) cpu_data.
Proof.
  unfold parse_cpu_stats. destruct (parse_cpu_stats_stores file num_cpus). reflexivity.
Qed.

(** Reading the same content again after an iteration leaves no
    difference between [current] and [previous]. *)
Lemma reparse_settled file cpu_data num_cpus i :
  (i < Z.to_nat num_cpus)%nat ->
  let cpu_data0 := seed_previous (fst (parse_cpu_stats file cpu_data num_cpus)) num_cpus in
  let cpu_data1 := fst (parse_cpu_stats file cpu_data0 num_cpus) in
  current (cpu_data1 !!! i) = previous (cpu_data1 !!! i).
Proof.
  intros Hi. cbv zeta. rewrite !fst_parse_cpu_stats.
  set (stores := fst (parse_cpu_stats_stores file num_cpus)).
  rewrite list_lookup_total_alt, lookup_run_stores, lookup_seed_previous, lookup_run_stores.
  destruct (cpu_data !! i) as [d|]; [|reflexivity].
  cbn [fmap option_fmap option_map default]. unfold advanced.
  rewrite decide_True by exact Hi. unfold stored. cbn [current previous].
  apply apply_stores_idem.
Qed.

End Engine.

Section Main.

Lemma running_inv env :
  ending_of env = Clean_shutdown ->
  show_help (parse_options (getopt_results env) default_options) = false
  /\ proc_stat env = Some (reads_of env)
  /\ (core_count env =? 0) = false
  /\ calloc_ok env = true.
Proof.
  unfold ending_of, core_count, reads_of.
  destruct (show_help _); [discriminate|].
  destruct (proc_stat env) as [reads|]; [|discriminate].
  destruct (count_cpus (reads 0%nat) =? 0); [discriminate|].
  destruct (calloc_ok env); [auto|discriminate].
Qed.

(** A run that reaches the loop prints the header and then its rows. *)
Lemma main_with_running guard env ticks :
  ending_of env = Clean_shutdown ->
  main_with guard env ticks
  = {| stdout := header (core_count env) +:+ rows_text (sample_rows guard env ticks);
       exit_status := 0 |}.
Proof.
  intros (Hh & Hp & Hc & Ha)%running_inv.
  unfold main_with, sample_rows. rewrite Hh, Hp. fold (core_count env).
  rewrite Hc, Ha. cbn [negb].
  pose proof (poll_loop_rows guard (reads_of env) (boottime env) (core_count env) ticks
                0 true (initial_data (reads_of env) (core_count env))
                (header (core_count env))) as H.
  destruct (poll_loop _ _ _ _ _ _ _ _ _) as [cd out]. cbn [snd] in H. rewrite H.
  reflexivity.
Qed.

Lemma foldl_column_names ids acc :
  foldl (fun out i => out +:+ ",cpu" +:+ format_d i +:+ "_load") acc ids
  = acc +:+ column_names ids.
Proof.
  revert acc. induction ids as [|i ids IH]; intros acc; cbn [foldl column_names].
  - rewrite append_nil_r. reflexivity.
  - rewrite IH, !append_assoc. reflexivity.
Qed.

Lemma header_columns_names num_cpus :
  header_columns num_cpus = column_names (seqZ 0 num_cpus).
Proof. unfold header_columns. apply foldl_column_names. Qed.

Lemma header_columns_commas n :
  occurrences "," (header_columns (Z.of_nat n)) = n.
Proof.
  unfold header_columns. induction n as [|n IH].
  - reflexivity.
  - rewrite seqZ_S, foldl_app. cbn [foldl].
    rewrite !occurrences_app, IH, format_d_no_comma. cbn. lia.
Qed.

Lemma header_line_columns num_cpus :
  columns (header_line num_cpus) = S (Z.to_nat num_cpus).
Proof.
  unfold columns, header_line. rewrite occurrences_app.
  assert (header_columns num_cpus = header_columns (Z.of_nat (Z.to_nat num_cpus))) as ->.
  { unfold header_columns. rewrite (seqZ_to_nat 0 num_cpus) at 1. reflexivity. }
  rewrite header_columns_commas. reflexivity.
Qed.

Lemma length_iteration_loads guard first cpu_data num_cpus :
  length (iteration_loads guard first cpu_data num_cpus) = Z.to_nat num_cpus.
Proof. unfold iteration_loads. rewrite length_fmap. apply length_seqZ. Qed.

Lemma rows_from_length guard reads clock num_cpus ticks :
  forall k first cpu_data,
    length (rows_from guard reads clock num_cpus ticks k first cpu_data) = ticks.
Proof.
  induction ticks as [|ticks IH]; intros k first cpu_data; [reflexivity|].
  cbn [rows_from length]. rewrite IH. reflexivity.
Qed.

Lemma rows_from_loads guard reads clock num_cpus ticks :
  forall k first cpu_data,
    Forall (fun row => length (snd row) = Z.to_nat num_cpus)
           (rows_from guard reads clock num_cpus ticks k first cpu_data).
Proof.
  induction ticks as [|ticks IH]; intros k first cpu_data; [constructor|].
  cbn [rows_from]. constructor; [apply length_iteration_loads|apply IH].
Qed.

End Main.

Lemma count_loop_ge lines c : c <= count_loop lines c.
Proof.
  revert c. induction lines as [|line rest IH]; intros c; cbn [count_loop]; [lia|].
  destruct (_ =? _)%nat; [specialize (IH (c + 1))|specialize (IH c)]; lia.
Qed.

Lemma count_cpus_nonneg file : 0 <= count_cpus file.
Proof. apply count_loop_ge. Qed.

(** Topology discovery counts the lines on which ["cpu%d"] converts. *)
Lemma count_loop_matching lines c :
  count_loop lines c
  = c + Z.of_nat (length (filter (fun line =>
                                    length (sscanf fmt_cpu_id (c_str line)) = 1%nat) lines)).
Proof.
  revert c. induction lines as [|line rest IH]; intros c; cbn [count_loop].
  - cbn. lia.
  - destruct (Nat.eqb_spec (length (sscanf fmt_cpu_id (c_str line))) 1) as [He|Hne].
    + rewrite IH, filter_cons_True by exact He. cbn [length]. lia.
    + rewrite IH, filter_cons_False by exact Hne. reflexivity.
Qed.

Section Run.

Import Emission Progress.

Variable env : environment.
Hypothesis Hrun : ending_of env = Clean_shutdown.

Local Abbreviation reads := (reads_of env).
Local Abbreviation clock := (boottime env).
Local Abbreviation N := (core_count env).

(** Reduce the projections of a machine given by its fields. *)
Ltac machine_cbn :=
  cbn [pc done first_reading num_cpus cpu_data current_time tick out
       cpu_data_live stat_file_open goto with_data fst snd].

Lemma after_S k :
  after env (S k)
  = let (cd2, out2) :=
      foldl (emit_core true (bool_decide (k = O))) (parsed env k, timed env k) (seqZ 0 N) in
    (cd2, out2 +:+ nl).
Proof.
  unfold after at 1. rewrite poll_loop_snoc. fold (after env k).
  destruct (after env k) as [cd out] eqn:Hk. unfold iteration, parsed, timed.
  rewrite Hk. cbn [fst snd andb Nat.add].
  destruct (parse_cpu_stats _ cd N) as [cd1 n]. reflexivity.
Qed.

Lemma stdout_main k : stdout (main env k) = snd (after env k).
Proof.
  unfold main. rewrite main_with_running by exact Hrun. cbn [stdout].
  unfold after, sample_rows. rewrite poll_loop_rows. reflexivity.
Qed.

Lemma core_count_nonneg : 0 <= N.
Proof. apply count_cpus_nonneg. Qed.

Lemma inv_start m0 : start env = Some m0 -> inv env m0.
Proof.
  destruct (running_inv env Hrun) as (Hh & Hp & Hc & Ha).
  unfold start. rewrite Hh, Hp. fold (core_count env). rewrite Hc, Ha. cbn [negb].
  intros [= <-]. repeat split.
Qed.

Lemma inv_term m : inv env m -> inv env (term m).
Proof. destruct m as [p d f n cd t k o l op]. destruct p; exact id. Qed.

Lemma inv_step_program m : inv env m -> inv env (step_program reads clock m).
Proof.
  destruct m as [p d f n cd t k o l op]. unfold inv, step_program, resources.
  destruct p as [| | | | |i| | | | | | | |s];
    machine_cbn.
  - (* P_test *)
    intros (-> & (-> & ->) & Hf & Hst).
    destruct d; machine_cbn;
      rewrite <- ?Hst; auto 10.
  - (* P_clock *)
    intros (-> & (-> & ->) & Hf & Hst); auto 10.
  - (* P_marker *)
    intros (-> & (-> & ->) & Hf & Hst & ->); auto 10.
  - (* P_parse *)
    intros (-> & (-> & ->) & Hf & Hst & ->). unfold parsed.
    rewrite <- Hst. auto 10.
  - (* P_print_time *)
    intros (-> & (-> & ->) & Hf & Hst & ->). injection Hst as -> ->.
    pose proof core_count_nonneg. rewrite seqZ_nil by lia.
    repeat split; try assumption; lia.
  - (* P_core *)
    intros (-> & (-> & ->) & Hf & Hi & Hst).
    destruct (Z.ltb_spec i N) as [Hlt|Hge].
    + destruct (emit_core true f (cd, o) i) as [cd' o'] eqn:He.
      machine_cbn.
      repeat split; try assumption; try lia.
      rewrite (seqZ_app 0 i 1), foldl_app by lia. rewrite <- Hst.
      rewrite seqZ_cons, seqZ_nil by lia. cbn [foldl]. symmetry. exact He.
    + machine_cbn.
      assert (i = N) as -> by lia. auto 10.
  - (* P_newline *)
    intros (-> & (-> & ->) & Hf & Hst). repeat split.
    rewrite after_S. rewrite <- Hf, <- Hst. reflexivity.
  - (* P_flush *) auto.
  - (* P_clear_first *) intros (-> & (-> & ->) & Hst). auto 10.
  - (* P_sleep *) intros (-> & (-> & ->) & -> & Hst). auto 10.
  - (* P_free *) intros (-> & (-> & ->) & ->). auto.
  - (* P_fclose *) intros (-> & (-> & ->) & ->). auto.
  - (* P_exit *) intros (-> & (-> & ->) & ->). auto.
  - (* P_halted *) auto.
Qed.

Lemma inv_step m e : inv env m -> inv env (step reads clock m e).
Proof.
  intros H. destruct e; cbn [step]; [apply inv_step_program, H|].
  destruct (pc m) eqn:Hp; try apply inv_term; exact H.
Qed.

Lemma inv_exec schedule m : inv env m -> inv env (exec reads clock schedule m).
Proof.
  revert m. induction schedule as [|e schedule IH]; intros m H; [exact H|].
  apply IH, inv_step, H.
Qed.

Lemma settles_step K m e : settles_at K m -> settles_at K (step reads clock m e).
Proof.
  destruct m as [p d f n cd t k o l op]. unfold settles_at.
  destruct e; cbn [step];
    [|destruct p; cbn; intros [-> HK]; (split; [reflexivity|exact HK])].
  unfold step_program.
  destruct p as [| | | | |i| | | | | | | |s]; cbn; intros [-> HK];
    try (split; [reflexivity|exact HK]).
  destruct (i <? n); cbn; (split; [reflexivity|exact HK]).
Qed.

Lemma settles_exec K schedule m :
  settles_at K m -> settles_at K (exec reads clock schedule m).
Proof.
  revert m. induction schedule as [|e schedule IH]; intros m H; [exact H|].
  apply IH, settles_step, H.
Qed.

Lemma term_done m : done m = true -> term m = m.
Proof. destruct m. cbn. intros ->. reflexivity. Qed.

Lemma steps_left_decreases m :
  done m = true -> halted m = false ->
  (steps_left (step_program reads clock m) < steps_left m)%nat
  /\ done (step_program reads clock m) = true.
Proof.
  destruct m as [p d f n cd t k o l op]. unfold halted, steps_left, step_program.
  destruct p as [| | | | |i| | | | | | | |s]; cbn [pc done num_cpus]; intros -> Hh;
    try discriminate; try (cbn; split; [lia|reflexivity]).
  destruct (Z.ltb_spec i n); cbn; (split; [lia|reflexivity]).
Qed.

Lemma steps_left_halted m : steps_left m = O -> halted m = true.
Proof. unfold steps_left, halted. destruct (pc m); cbn; solve [reflexivity|lia]. Qed.

Lemma step_program_halted m : halted m = true -> step_program reads clock m = m.
Proof. unfold halted, step_program. destruct (pc m); solve [discriminate|reflexivity]. Qed.

(** Once the flag is set, any schedule with enough steps of the main
    thread ends in a halted machine. *)
Lemma exec_halts schedule :
  forall m, done m = true -> (steps_left m <= runs schedule)%nat ->
            halted (exec reads clock schedule m) = true.
Proof.
  induction schedule as [|e schedule IH]; intros m Hd Hn.
  - apply steps_left_halted. cbn [runs exec foldl] in *. lia.
  - cbn [exec foldl]. fold (exec reads clock schedule). destruct e; cbn [step runs] in *.
    + destruct (halted m) eqn:Hh.
      * rewrite step_program_halted by exact Hh. apply IH; [exact Hd|].
        unfold halted, steps_left in *. destruct (pc m); try discriminate. lia.
      * destruct (steps_left_decreases m Hd Hh). apply IH; [assumption|lia].
    + replace (match pc m with P_halted _ => m | _ => term m end) with m
        by (rewrite term_done by exact Hd; destruct (pc m); reflexivity).
      apply IH; assumption.
Qed.

Lemma inv_halted m :
  inv env m -> halted m = true ->
  exit_status m = Some 0 /\ cpu_data_live m = false /\ stat_file_open m = false
  /\ out m = stdout (main env (tick m)).
Proof.
  unfold inv, halted, exit_status, resources. rewrite stdout_main.
  destruct (pc m); try discriminate. intros (_ & -> & (-> & ->) & ->) _. auto.
Qed.

(** The statements of an iteration do not read the flag. *)
Lemma step_program_term m :
  pc m <> P_test -> step_program reads clock (term m) = term (step_program reads clock m).
Proof.
  destruct m as [p d f n cd t k o l op]. unfold step_program.
  destruct p as [| | | | |i| | | | | | | |s]; cbn; intros Hp;
    try reflexivity; try congruence.
  destruct (i <? n); reflexivity.
Qed.

End Run.

(** * The properties of the specification *)

(** C1. On the counter file with lines [cpu 1 2 3...], [cpu0 ...],
    [cpu1 ...], topology discovery returns 3 and not 2: [%d] skips the
    white space after the tag of the aggregate line and converts its first
    counter, so that line is counted as a core. *)
Theorem count_cpus_counts_aggregate_line :
  sscanf fmt_cpu_id "cpu 1 2 3 4 5 6 7 8 9 10" = [1]
  /\ (forall rest, length (sscanf fmt_cpu_id ("cpu 1" +:+ rest)) = 1%nat)
  /\ count_cpus stat_sample = 3.
Proof.
  split; [vm_compute; reflexivity|]. split; [|vm_compute; reflexivity].
  intros rest. apply (aggregate_line_matches " " "1" rest); reflexivity.
Qed.

(** C5 as stated fails: the deltas are differences of unsigned 64-bit
    values. When [idle + iowait] has gone down while the total has gone up,
    the total delta is 10 and the idle delta -10, for which the formula gives
    200.00; the program computes with the idle delta 2^64 - 10 and prints
    another number. *)
Lemma negative_idle_delta_wraps :
  counters_sum snapshot_resumed - counters_sum snapshot_waiting = 10
  /\ idle_sum snapshot_resumed - idle_sum snapshot_waiting = -10
  /\ sub64 (get_idle_time snapshot_resumed) (get_idle_time snapshot_waiting) = 2 ^ 64 - 10
  /\ calculate_cpu_load snapshot_resumed snapshot_waiting <> load_formula (-10) 10
  /\ format_f 2 (load_formula (-10) 10) = "200.00"%string
  /\ format_f 2 (calculate_cpu_load snapshot_resumed snapshot_waiting)
     = "-184467440737095516160.00"%string.
Proof. vm_compute. repeat split; discriminate. Qed.

(** C5, amended. With a nonzero total delta, the load is
    [100 * (1 - idle_delta / total_delta)], the deltas being those of the
    sum of the ten counters and of [idle + iowait], taken modulo 2^64 as the
    counters are; when the counters have not gone backwards the deltas are
    the plain differences; a total delta of 100 with an idle delta of 20
    prints as 80.00. *)
Theorem load_formula_correct :
  (forall cur prev,
     let total_delta := wrap64 (counters_sum cur - counters_sum prev) in
     let idle_delta := wrap64 (idle_sum cur - idle_sum prev) in
     total_delta <> 0 ->
     calculate_cpu_load cur prev = load_formula idle_delta total_delta)
  /\ (forall cur prev,
        let total_delta := counters_sum cur - counters_sum prev in
        let idle_delta := idle_sum cur - idle_sum prev in
        0 < total_delta < 2 ^ 64 -> 0 <= idle_delta < 2 ^ 64 ->
        calculate_cpu_load cur prev = load_formula idle_delta total_delta)
  /\ (forall cur prev,
        counters_sum cur - counters_sum prev = 100 ->
        idle_sum cur - idle_sum prev = 20 ->
        format_f 2 (calculate_cpu_load cur prev) = "80.00"%string).
Proof.
  assert (forall cur prev,
     wrap64 (counters_sum cur - counters_sum prev) <> 0 ->
     calculate_cpu_load cur prev
     = load_formula (wrap64 (idle_sum cur - idle_sum prev))
                    (wrap64 (counters_sum cur - counters_sum prev))) as Hmain.
  { intros cur prev Hne.
    unfold calculate_cpu_load, calculate_cpu_load_traced.
    rewrite !get_total_time_sum, !get_idle_time_sum, !sub64_wrap.
    destruct (Z.eqb_spec (wrap64 (counters_sum cur - counters_sum prev)) 0) as [He|_];
      [contradiction|reflexivity]. }
  split; [exact Hmain|]. split.
  - intros cur prev total_delta idle_delta Ht Hi. subst total_delta idle_delta.
    rewrite Hmain; rewrite !wrap64_small by lia; [reflexivity|lia].
  - intros cur prev Ht Hi. rewrite Hmain by (rewrite Ht; discriminate).
    rewrite Ht, Hi. vm_compute. reflexivity.
Qed.

Lemma load_formula_correct_witness :
  calculate_cpu_load snapshot_100 snapshot_0 = load_formula 20 100
  /\ format_f 2 (calculate_cpu_load snapshot_100 snapshot_0) = "80.00"%string.
Proof.
  destruct load_formula_correct as (_ & Hexact & Hprint). split.
  - apply (Hexact snapshot_100 snapshot_0); vm_compute; split; congruence.
  - apply (Hprint snapshot_100 snapshot_0); reflexivity.
Defined.

(** C4. When the total delta is zero, [calculate_cpu_load] returns 0.0
    without dividing; whenever it divides, the divisor is not zero; and an
    iteration that reads the same counters as the one before prints 0.00
    for every core. *)
Theorem zero_total_delta_guard :
  (forall cur prev,
     sub64 (get_total_time cur) (get_total_time prev) = 0 ->
     calculate_cpu_load_traced cur prev = (dzero, []))
  /\ (forall cur prev d,
        In d (snd (calculate_cpu_load_traced cur prev)) -> is_zero (divisor d) = false)
  /\ (forall guard first file now1 now2 num_cpus cpu_data out,
        let (cpu_data', out') := iteration guard first file now1 num_cpus cpu_data out in
        iteration_loads true false (fst (parse_cpu_stats file cpu_data' num_cpus)) num_cpus
        = replicate (Z.to_nat num_cpus) dzero
        /\ snd (iteration true false file now2 num_cpus cpu_data' out')
           = out' +:+ row_line now2 (replicate (Z.to_nat num_cpus) dzero) +:+ nl).
Proof.
  split; [exact calculate_cpu_load_traced_zero|]. split.
  - intros cur prev d. unfold calculate_cpu_load_traced.
    assert (0 <= sub64 (get_total_time cur) (get_total_time prev) < 2 ^ 64) as Hr
      by apply wrap64_range.
    destruct (Z.eqb_spec (sub64 (get_total_time cur) (get_total_time prev)) 0) as [He|Hne];
      cbn [snd In]; [tauto|].
    intros [<-|[]]. cbn [divisor]. apply double_of_Z_nonzero. lia.
  - intros guard first file now1 now2 num_cpus cpu_data out.
    rewrite iteration_eq. cbv beta iota zeta.
    assert (iteration_loads true false
              (fst (parse_cpu_stats file
                      (seed_previous (fst (parse_cpu_stats file cpu_data num_cpus)) num_cpus)
                      num_cpus)) num_cpus
            = replicate (Z.to_nat num_cpus) dzero) as Hz.
    { apply settled_loads. intros i Hi. apply reparse_settled, Hi. }
    split; [exact Hz|]. rewrite iteration_eq. cbv beta iota zeta. cbn [snd].
    rewrite Hz. reflexivity.
Qed.

Lemma zero_total_delta_guard_witness :
  calculate_cpu_load_traced snapshot_0 snapshot_0 = (dzero, [])
  /\ is_zero (double_of_Z 100) = false.
Proof.
  destruct zero_total_delta_guard as (Hzero & Hdiv & _). split.
  - apply Hzero. reflexivity.
  - apply (Hdiv snapshot_100 snapshot_0
             {| dividend := double_of_Z 20; divisor := double_of_Z 100 |}).
    vm_compute. left. reflexivity.
Defined.

(** C3. In a run that reaches the loop, the first data row carries the
    load 0.0, printed 0.00, for every core, whatever the counter file
    holds: on the first iteration the loads do not depend on the array. *)
Theorem first_row_loads_zero env ticks :
  ending_of env = Clean_shutdown ->
  let n := Z.to_nat (core_count env) in
  (forall cpu_data, iteration_loads true true cpu_data (core_count env) = replicate n dzero)
  /\ format_f 2 dzero = "0.00"%string
  /\ exists rest,
       sample_rows true env (S ticks) = (boottime env 0%nat, replicate n dzero) :: rest
       /\ stdout (main env (S ticks))
          = header (core_count env)
            +:+ row_line (boottime env 0%nat) (replicate n dzero) +:+ nl +:+ rows_text rest.
Proof.
  intros Hrun n. split; [intros cpu_data; apply first_tick_loads|].
  split; [reflexivity|].
  unfold main. rewrite main_with_running by exact Hrun. cbn [stdout].
  unfold sample_rows. cbn [rows_from]. rewrite first_tick_loads. fold n.
  eexists. split; reflexivity.
Qed.

Lemma first_row_loads_zero_witness :
  stdout (main busy_env 1)
  = header 3 +:+ row_line (sample_clock 0) [dzero; dzero; dzero] +:+ nl.
Proof.
  destruct (first_row_loads_zero busy_env 0 eq_refl) as (_ & _ & rest & Hrows & Hout).
  rewrite Hout. injection Hrows as <-. reflexivity.
Defined.

(** C6. In a run that reaches the loop, standard output is the header
    line followed by one line per iteration; the header is [time] followed
    by [,cpu<i>_load] for i from 0 to N - 1, so it has 1 + N columns and
    begins with [time]; every data line is a timestamp followed by the N
    loads of its iteration in core-index order, each with two decimals, has
    1 + N columns, and does not begin like the header. *)
Theorem csv_shape env ticks :
  ending_of env = Clean_shutdown ->
  let N := core_count env in
  let rows := sample_rows true env ticks in
  stdout (main env ticks) = header_line N +:+ nl +:+ rows_text rows
  /\ header_line N = "time" +:+ column_names (seqZ 0 N)
  /\ columns (header_line N) = S (Z.to_nat N)
  /\ first_char (header_line N) = Some "t"%char
  /\ length rows = ticks
  /\ Forall (fun row =>
               length (snd row) = Z.to_nat N
               /\ columns (row_line (fst row) (snd row)) = S (Z.to_nat N)
               /\ first_char (row_line (fst row) (snd row)) <> Some "t"%char)
            rows.
Proof.
  intros Hrun N rows. split; [|split; [|split; [|split; [|split]]]].
  - unfold main. rewrite main_with_running by exact Hrun. cbn [stdout].
    unfold header, header_line. rewrite !append_assoc. reflexivity.
  - unfold header_line. rewrite header_columns_names. reflexivity.
  - apply header_line_columns.
  - reflexivity.
  - apply rows_from_length.
  - eapply Forall_impl; [apply rows_from_loads|]. cbn beta. intros [now loads] Hlen.
    cbn [fst snd] in *. split; [exact Hlen|]. split.
    + rewrite row_line_columns, Hlen. reflexivity.
    + apply first_char_row_line.
Qed.

Lemma csv_shape_witness :
  stdout (main busy_env 2)
  = header_line 3 +:+ nl +:+ rows_text (sample_rows true busy_env 2)
  /\ columns (header_line 3) = 4%nat.
Proof.
  destruct (csv_shape busy_env 2 eq_refl) as (Hout & _ & Hcols & _). split.
  - exact Hout.
  - exact Hcols.
Defined.

(** C8. The exit status tells the endings apart: 0 for a clean shutdown, 1
    when help is requested, 2 when the counter file cannot be opened, 3 when
    no core is detected, 4 when the state array cannot be allocated; two runs
    with the same exit status ended the same way. *)
Theorem exit_codes_distinct :
  (forall env ticks,
     exit_status (main env ticks)
     = match ending_of env with
       | Clean_shutdown => 0
       | Help_requested => 1
       | Open_failed => 2
       | No_cores => 3
       | Allocation_failed => 4
       end)
  /\ (forall env1 env2 ticks1 ticks2,
        exit_status (main env1 ticks1) = exit_status (main env2 ticks2) ->
        ending_of env1 = ending_of env2).
Proof.
  assert (forall env ticks,
     exit_status (main env ticks)
     = match ending_of env with
       | Clean_shutdown => 0
       | Help_requested => 1
       | Open_failed => 2
       | No_cores => 3
       | Allocation_failed => 4
       end) as Hcode.
  { intros env ticks. unfold main, main_with, ending_of.
    destruct (show_help _); [reflexivity|].
    destruct (proc_stat env) as [reads|]; [|reflexivity].
    destruct (count_cpus (reads 0%nat) =? 0); [reflexivity|].
    destruct (calloc_ok env); [|reflexivity]. cbn [negb].
    destruct (poll_loop _ _ _ _ _ _ _ _ _). reflexivity. }
  split; [exact Hcode|].
  intros env1 env2 ticks1 ticks2. rewrite !Hcode.
  destruct (ending_of env1), (ending_of env2); intros H; solve [reflexivity|discriminate H].
Qed.

Lemma exit_codes_distinct_witness :
  exit_status (main steady_env 0) = 0 /\ ending_of steady_env = ending_of busy_env.
Proof.
  destruct exit_codes_distinct as (Hcode & Hinj). split.
  - apply (Hcode steady_env 0%nat).
  - apply (Hinj steady_env busy_env 1%nat 2%nat). vm_compute. reflexivity.
Defined.

(** C9. Whatever the file and [num_cpus], every store of
    [parse_cpu_stats] goes to an entry with index in 0 .. num_cpus - 1, the
    count returned is at most [num_cpus], and the entries from [num_cpus] on
    are left as they were. *)
Theorem parse_cpu_stats_in_bounds file num_cpus :
  Forall (fun st => 0 <= st_index st < num_cpus) (fst (parse_cpu_stats_stores file num_cpus))
  /\ 0 <= snd (parse_cpu_stats_stores file num_cpus) <= Z.max 0 num_cpus
  /\ forall cpu_data,
       length (fst (parse_cpu_stats file cpu_data num_cpus)) = length cpu_data
       /\ forall i, num_cpus <= Z.of_nat i ->
                    fst (parse_cpu_stats file cpu_data num_cpus) !! i = cpu_data !! i.
Proof.
  unfold parse_cpu_stats_stores.
  pose proof (parse_loop_indices (fgets_lines 256 file) num_cpus 0) as Hidx.
  pose proof (parse_loop_count (fgets_lines 256 file) num_cpus 0) as Hcnt.
  assert (Forall (fun st => 0 <= st_index st < num_cpus)
                 (fst (parse_loop (fgets_lines 256 file) num_cpus 0))) as Hin.
  { eapply Forall_impl; [exact Hidx|]. cbn beta. intros st ?. lia. }
  split; [exact Hin|]. split; [exact Hcnt|].
  intros cpu_data. rewrite fst_parse_cpu_stats. unfold parse_cpu_stats_stores.
  split; [apply length_run_stores|].
  intros i Hi. rewrite lookup_run_stores. unfold stored.
  rewrite stores_at_none.
  - destruct (cpu_data !! i) as [[]|]; reflexivity.
  - eapply Forall_impl; [exact Hin|]. cbn beta. intros st ?. lia.
Qed.

Lemma parse_cpu_stats_in_bounds_witness :
  fst (parse_cpu_stats stat_sample (replicate 3 zero_data) 2) !! 2%nat = Some zero_data
  /\ snd (parse_cpu_stats_stores stat_sample 1) = 1.
Proof.
  destruct (parse_cpu_stats_in_bounds stat_sample 2) as (_ & _ & Hframe).
  destruct (Hframe (replicate 3 zero_data)) as [_ Hout]. split.
  - rewrite Hout by (vm_compute; discriminate). reflexivity.
  - destruct (parse_cpu_stats_in_bounds stat_sample 1) as (_ & Hcount & _).
    vm_compute in Hcount. vm_compute. reflexivity.
Defined.




Lemma iteration_loads_not_first guard cpu_data num_cpus :
  iteration_loads guard false cpu_data num_cpus = iteration_loads true false cpu_data num_cpus.
Proof.
  unfold iteration_loads, core_load. rewrite andb_false_r. cbn [andb]. reflexivity.
Qed.

(** After the first iteration the flag is clear and the two programs agree. *)
Lemma rows_from_not_first guard reads clock num_cpus ticks :
  forall k cpu_data,
    rows_from guard reads clock num_cpus ticks k false cpu_data
    = rows_from true reads clock num_cpus ticks k false cpu_data.
Proof.
  induction ticks as [|ticks IH]; intros k cpu_data; [reflexivity|].
  cbn [rows_from]. rewrite IH, iteration_loads_not_first. reflexivity.
Qed.

Lemma initial_data_eq reads num_cpus :
  initial_data reads num_cpus
  = seed_previous
      (fst (parse_cpu_stats (reads 1%nat) (replicate (Z.to_nat num_cpus) zero_data) num_cpus))
      num_cpus.
Proof.
  unfold initial_data. destruct (parse_cpu_stats _ _ _). reflexivity.
Qed.

(** The array right after the first iteration has parsed the file. *)
Lemma first_parse_settled reads num_cpus i :
  reads 2%nat = reads 1%nat ->
  (i < Z.to_nat num_cpus)%nat ->
  let cpu_data1 :=
    fst (parse_cpu_stats (reads 2%nat) (initial_data reads num_cpus) num_cpus) in
  current (cpu_data1 !!! i) = previous (cpu_data1 !!! i).
Proof.
  intros -> Hi. rewrite initial_data_eq. apply reparse_settled, Hi.
Qed.

(** C2 as stated fails: the first iteration reads the counter file again,
    and when the counters have moved since the initial pass the total delta
    is not zero and the program without the flag prints a load. *)
Lemma first_tick_flag_observable :
  let cpu_data1 :=
    fst (parse_cpu_stats (reads_of busy_env 2%nat)
           (initial_data (reads_of busy_env) (core_count busy_env)) (core_count busy_env)) in
  sub64 (get_total_time (current (cpu_data1 !!! 0%nat)))
        (get_total_time (previous (cpu_data1 !!! 0%nat))) = 20
  /\ stdout (main busy_env 1) <> stdout (main_without_first_tick_flag busy_env 1).
Proof. vm_compute. split; [reflexivity|discriminate]. Qed.

(** C2, amended. When the counter file read by the first iteration has
    the content read at initialisation, the total delta of every core on the
    first iteration is zero, and the program without the first-tick flag
    prints what [main] prints and exits as [main] does. *)
Theorem first_tick_flag_redundant_when_counters_unchanged env ticks :
  reads_of env 2%nat = reads_of env 1%nat ->
  (forall i,
     (i < Z.to_nat (core_count env))%nat ->
     let cpu_data1 :=
       fst (parse_cpu_stats (reads_of env 2%nat)
              (initial_data (reads_of env) (core_count env)) (core_count env)) in
     sub64 (get_total_time (current (cpu_data1 !!! i)))
           (get_total_time (previous (cpu_data1 !!! i))) = 0)
  /\ main_without_first_tick_flag env ticks = main env ticks.
Proof.
  intros Hsame. split.
  - intros i Hi. cbv zeta. rewrite first_parse_settled by assumption. apply sub64_diag.
  - unfold main_without_first_tick_flag, main.
    destruct (ending_of env) eqn:Hend.
    5: { rewrite !main_with_running by exact Hend. f_equal. f_equal.
         unfold sample_rows. destruct ticks as [|ticks]; [reflexivity|].
         cbn [rows_from]. rewrite rows_from_not_first. f_equal. f_equal.
         rewrite !settled_loads; [reflexivity| |];
           intros i Hi; apply first_parse_settled; assumption. }
    all: revert Hend; unfold ending_of, main_with;
      destruct (show_help _); [reflexivity|];
      destruct (proc_stat env) as [reads|]; [|reflexivity];
      destruct (count_cpus (reads 0%nat) =? 0); [reflexivity|];
      destruct (calloc_ok env); [discriminate|reflexivity].
Qed.

Lemma first_tick_flag_redundant_when_counters_unchanged_witness :
  main_without_first_tick_flag steady_env 3 = main steady_env 3.
Proof.
  apply (first_tick_flag_redundant_when_counters_unchanged steady_env 3). reflexivity.
Defined.

Section Signal.

Import Emission Progress.

(** C7. From the moment [main] enters the loop with the handler
    installed, under any interleaving of its statements with deliveries of
    SIGTERM: the handler changes nothing but [done]; no statement of an
    iteration reads [done]; the process exits only with status 0, the
    array freed and the file closed, having printed the header and complete
    rows only; and when the signal arrives, the process exits in this way as
    soon as the main thread has run enough steps, after the whole row of the
    iteration in flight if there is one, and without starting another. *)
Theorem sigterm_row_granular env m0 schedule :
  ending_of env = Clean_shutdown ->
  start env = Some m0 ->
  let m := exec (reads_of env) (boottime env) schedule m0 in
  (forall x,
     term x = {| pc := pc x; done := true; first_reading := first_reading x;
                 num_cpus := num_cpus x; cpu_data := cpu_data x;
                 current_time := current_time x; tick := tick x; out := out x;
                 cpu_data_live := cpu_data_live x;
                 stat_file_open := stat_file_open x |})
  /\ (forall x, pc x <> P_test ->
                step_program (reads_of env) (boottime env) (term x)
                = term (step_program (reads_of env) (boottime env) x))
  /\ (forall k, stdout (main env k)
                = header (core_count env) +:+ rows_text (sample_rows true env k))
  /\ (halted m = true ->
      exit_status m = Some 0 /\ cpu_data_live m = false /\ stat_file_open m = false
      /\ out m = stdout (main env (tick m)))
  /\ (halted m = false ->
      forall schedule',
        (steps_left m <= runs schedule')%nat ->
        let m' := exec (reads_of env) (boottime env) schedule'
                       (step (reads_of env) (boottime env) m Sigterm) in
        halted m' = true
        /\ exit_status m' = Some 0 /\ cpu_data_live m' = false
        /\ stat_file_open m' = false
        /\ out m' = stdout (main env (if in_flight m then S (tick m) else tick m))).
Proof.
  intros Hrun Hstart m.
  assert (inv env m) as Hinv by (apply inv_exec, inv_start; assumption).
  clearbody m.
  split; [reflexivity|]. split; [intros x; apply step_program_term|].
  split; [intros k; unfold main; rewrite main_with_running by exact Hrun; reflexivity|].
  split; [apply inv_halted; assumption|].
  intros Hnh schedule' Hruns m'.
  assert (step (reads_of env) (boottime env) m Sigterm = term m) as Hsig.
  { cbn [step]. unfold halted in Hnh. destruct (pc m); solve [reflexivity|discriminate]. }
  assert (halted m' = true) as Hh.
  { subst m'. rewrite Hsig. apply exec_halts; [reflexivity|exact Hruns]. }
  assert (inv env m') as Hinv'.
  { subst m'. apply inv_exec. rewrite Hsig. apply inv_term, Hinv. }
  assert (settles_at (if in_flight m then S (tick m) else tick m) m') as [_ Hat].
  { subst m'. apply settles_exec. rewrite Hsig. split; reflexivity. }
  destruct (inv_halted env Hrun m' Hinv' Hh) as (He & Hl & Ho & Hout).
  assert (in_flight m' = false) as Hnf.
  { unfold halted, in_flight in *. destruct (pc m'); solve [reflexivity|discriminate]. }
  rewrite Hnf in Hat. rewrite Hat in Hout. auto.
Qed.

Lemma sigterm_row_granular_witness :
  match start steady_env with
  | Some m0 =>
      let m := exec (reads_of steady_env) (boottime steady_env)
                    [Run; Run; Run; Run; Run; Run] m0 in
      pc m = P_core 1
      /\ out (exec (reads_of steady_env) (boottime steady_env) (replicate 11 Run)
                   (step (reads_of steady_env) (boottime steady_env) m Sigterm))
         = stdout (main steady_env 1)
  | None => False
  end.
Proof.
  destruct (start steady_env) as [m0|] eqn:Hstart; [|vm_compute in Hstart; discriminate].
  pose proof (sigterm_row_granular steady_env m0 [Run; Run; Run; Run; Run; Run]
                eq_refl Hstart) as (_ & _ & _ & _ & Hsig).
  vm_compute in Hstart. injection Hstart as <-.
  split; [vm_compute; reflexivity|].
  apply (Hsig eq_refl (replicate 11 Run)). vm_compute. lia.
Defined.

End Signal.

(** * Further properties of the code *)

Section Samples.

Lemma in_range64_samples :
  in_range64 sample_aggregate /\ in_range64 snapshot_0 /\ in_range64 snapshot_100.
Proof.
  unfold in_range64. repeat split; repeat (apply Forall_cons_2 || apply Forall_nil_2);
    vm_compute; split; discriminate.
Qed.

Lemma kernel_format_samples :
  kernel_format sample_aggregate sample_cores sample_others
  /\ kernel_format sample_aggregate sample_cores_later sample_others.
Proof.
  destruct in_range64_samples as (Ha & H0 & H100).
  assert (Forall (whole_buffer 255) sample_others) as Hw.
  { repeat (apply Forall_cons_2 || apply Forall_nil_2).
    - left. exists "intr 5 6"%string. repeat split; vm_compute; lia.
    - left. exists "ctxt 7"%string. repeat split; vm_compute; lia. }
  assert (Forall (fun line => has_cpu_tag line = false) sample_others) as Ht.
  { repeat (apply Forall_cons_2 || apply Forall_nil_2); reflexivity. }
  unfold kernel_format, sample_cores, sample_cores_later. cbn [core_lines].
  split; (split; [exact Ha|]); (split; [|split; [|split; [exact Hw|exact Ht]]]).
  - apply Forall_cons_2; [exact H0|apply Forall_cons_2; [exact H0|apply Forall_nil_2]].
  - repeat (apply Forall_cons_2 || apply Forall_nil_2); vm_compute; lia.
  - apply Forall_cons_2; [exact H100|apply Forall_cons_2; [exact H0|apply Forall_nil_2]].
  - repeat (apply Forall_cons_2 || apply Forall_nil_2); vm_compute; lia.
Qed.

End Samples.

Section Lines.

Lemma length_append s1 s2 :
  String.length (s1 +:+ s2) = (String.length s1 + String.length s2)%nat.
Proof. induction s1 as [|c s1 IH]; cbn [String.append String.length]; [reflexivity|]. rewrite IH. reflexivity. Qed.

Lemma occurrences_cons_zero c a s :
  occurrences c (String a s) = O -> Ascii.eqb c a = false /\ occurrences c s = O.
Proof.
  cbn [occurrences]. destruct (Ascii.eqb c a); [discriminate|]. auto.
Qed.

Lemma fgets_chars_line room body rest :
  occurrences newline body = O -> (String.length body < room)%nat ->
  fgets_chars room (body +:+ nl +:+ rest) = (body +:+ nl, rest).
Proof.
  revert room. induction body as [|c body IH]; intros room Hno Hlen.
  - destruct room as [|room]; [cbn in Hlen; lia|]. reflexivity.
  - destruct room as [|room]; [cbn in Hlen; lia|].
    apply occurrences_cons_zero in Hno as [Hc Hno].
    cbn [String.append fgets_chars]. rewrite Ascii.eqb_sym, Hc.
    rewrite IH by (cbn [String.length] in Hlen; auto with lia). reflexivity.
Qed.

Lemma fgets_chars_full room piece rest :
  occurrences newline piece = O -> String.length piece = room ->
  fgets_chars room (piece +:+ rest) = (piece, rest).
Proof.
  revert room. induction piece as [|c piece IH]; intros room Hno Hlen.
  - cbn in Hlen. subst room. destruct rest; reflexivity.
  - destruct room as [|room]; [discriminate|].
    apply occurrences_cons_zero in Hno as [Hc Hno].
    cbn [String.append fgets_chars]. rewrite Ascii.eqb_sym, Hc.
    rewrite IH by (cbn [String.length] in Hlen; auto with lia). reflexivity.
Qed.

Lemma whole_buffer_nonempty room piece : whole_buffer room piece -> piece <> EmptyString.
Proof.
  intros [(body & -> & _ & _)|(_ & Hlen & Hroom)].
  - destruct body; discriminate.
  - destruct piece; [cbn in Hlen; lia|discriminate].
Qed.

(** [fgets] returns a whole buffer as it is and leaves the rest. *)
Lemma fgets_whole_buffer size piece rest :
  whole_buffer (size - 1) piece ->
  fgets size (piece +:+ rest) = Some (piece, rest).
Proof.
  intros Hw. pose proof (whole_buffer_nonempty _ _ Hw) as Hne.
  unfold fgets. destruct (piece +:+ rest) as [|c s] eqn:He.
  { destruct piece; [congruence|discriminate]. }
  rewrite <- He. f_equal.
  destruct Hw as [(body & -> & Hno & Hlen)|(Hno & Hlen & _)].
  - rewrite append_assoc. apply fgets_chars_line; assumption.
  - apply fgets_chars_full; assumption.
Qed.

Lemma fgets_lines_cons size piece rest :
  (2 <= size)%nat -> whole_buffer (size - 1) piece ->
  fgets_lines size (piece +:+ rest) = piece :: fgets_lines size rest.
Proof.
  intros Hsize Hw. rewrite fgets_lines_unfold by exact Hsize.
  rewrite fgets_whole_buffer by exact Hw. reflexivity.
Qed.

Lemma fgets_lines_join size pieces :
  (2 <= size)%nat -> Forall (whole_buffer (size - 1)) pieces ->
  fgets_lines size (join_pieces pieces) = pieces.
Proof.
  intros Hsize. induction 1 as [|piece pieces Hw _ IH]; [reflexivity|].
  cbn [join_pieces]. rewrite fgets_lines_cons, IH by assumption. reflexivity.
Qed.

Lemma fgets_chars_join room file :
  fst (fgets_chars room file) +:+ snd (fgets_chars room file) = file.
Proof.
  revert file. induction room as [|room IH]; intros [|c rest]; try reflexivity.
  cbn [fgets_chars]. destruct (Ascii.eqb c newline); [reflexivity|].
  specialize (IH rest). destruct (fgets_chars room rest) as [l r].
  cbn [fst snd String.append] in *. rewrite IH. reflexivity.
Qed.

Lemma fgets_chars_bound room file :
  (String.length (fst (fgets_chars room file)) <= room)%nat
  /\ (occurrences newline (fst (fgets_chars room file)) <= 1)%nat.
Proof.
  revert file. induction room as [|room IH]; intros [|c rest]; try (cbn; lia).
  cbn [fgets_chars]. destruct (Ascii.eqb c newline) eqn:Hc.
  - cbn [fst String.length occurrences]. rewrite Ascii.eqb_sym, Hc. lia.
  - specialize (IH rest). destruct (fgets_chars room rest) as [l r].
    cbn [fst String.length occurrences] in *. rewrite Ascii.eqb_sym, Hc. lia.
Qed.

Lemma read_lines_join size fuel file :
  (2 <= size)%nat -> (String.length file <= fuel)%nat ->
  join_pieces (read_lines size fuel file) = file.
Proof.
  intros Hsize. revert file. induction fuel as [|fuel IH]; intros file Hlen.
  - destruct file; [reflexivity|cbn in Hlen; lia].
  - cbn [read_lines]. destruct (fgets size file) as [[line rest]|] eqn:Hg.
    + pose proof (fgets_consumes size file line rest Hsize Hg).
      cbn [join_pieces]. rewrite IH by lia.
      unfold fgets in Hg. destruct file; [discriminate|]. injection Hg as Hg.
      pose proof (fgets_chars_join (size - 1) (String a file)) as Hj.
      rewrite Hg in Hj. exact Hj.
    + unfold fgets in Hg. destruct file; [reflexivity|discriminate].
Qed.

Lemma read_lines_bound size fuel file :
  (2 <= size)%nat ->
  Forall (fun line => (0 < String.length line <= size - 1)%nat
                      /\ (occurrences newline line <= 1)%nat)
         (read_lines size fuel file).
Proof.
  intros Hsize. revert file. induction fuel as [|fuel IH]; intros file; [constructor|].
  cbn [read_lines]. destruct (fgets size file) as [[line rest]|] eqn:Hg; [|constructor].
  constructor; [|apply IH].
  pose proof (fgets_consumes size file line rest Hsize Hg) as Hlt.
  unfold fgets in Hg. destruct file as [|a file]; [discriminate|]. injection Hg as Hg.
  pose proof (fgets_chars_bound (size - 1) (String a file)) as Hb.
  pose proof (fgets_chars_length (size - 1) (String a file)) as Hl.
  rewrite Hg in Hb, Hl. cbn [fst snd] in *. lia.
Qed.

End Lines.

(** X1. The read loop of [count_cpus] and [parse_cpu_stats] sees every
    character of the file once and in order: the buffers [fgets] fills
    until it returns NULL, put end to end, are the file; each holds at least
    one and at most [size - 1] characters, so it fits [line] with its
    terminator, and at most one newline. *)
Theorem fgets_lines_partition size file :
  (2 <= size)%nat ->
  join_pieces (fgets_lines size file) = file
  /\ Forall (fun line => (0 < String.length line <= size - 1)%nat
                         /\ (occurrences newline line <= 1)%nat)
            (fgets_lines size file).
Proof.
  intros Hsize. unfold fgets_lines. split.
  - apply read_lines_join; [exact Hsize|lia].
  - apply read_lines_bound, Hsize.
Qed.

Lemma fgets_lines_partition_witness :
  join_pieces (fgets_lines 256 stat_sample) = stat_sample.
Proof. apply (fgets_lines_partition 256 stat_sample). lia. Defined.

Section Numbers.

Lemma scan_digits_uint u : forall acc rest,
  scan_digits acc (NilEmpty.string_of_uint u +:+ rest) = scan_digits (uint_value acc u) rest.
Proof.
  induction u as [|u IH|u IH|u IH|u IH|u IH|u IH|u IH|u IH|u IH|u IH]; intros acc rest;
    [reflexivity|..];
    cbn [NilEmpty.string_of_uint String.append scan_digits uint_value];
    match goal with
    | |- context [isdigit ?c] =>
        let v := eval vm_compute in (digit_value c) in
        change (isdigit c) with true; change (digit_value c) with v
    end;
    rewrite ?Z.add_0_r; apply IH.
Qed.

Lemma uint_value_acc u : forall p,
  uint_value (Z.pos p) u = Z.pos (Pos.of_uint_acc u p).
Proof.
  induction u as [|u IH|u IH|u IH|u IH|u IH|u IH|u IH|u IH|u IH|u IH]; intros p;
    [reflexivity|..];
    cbn [uint_value Pos.of_uint_acc]; rewrite <- IH; f_equal; lia.
Qed.

Lemma uint_value_of_uint u : uint_value 0 u = Z.of_N (N.of_uint u).
Proof.
  unfold N.of_uint.
  induction u as [|u IH|u IH|u IH|u IH|u IH|u IH|u IH|u IH|u IH|u IH];
    [reflexivity|..]; cbn [uint_value Pos.of_uint Z.mul Z.add];
    solve [exact IH | apply uint_value_acc].
Qed.

Lemma to_uint_nonnil n : N.to_uint n <> Decimal.Nil.
Proof.
  destruct n as [|p]; [discriminate|]. apply DecimalPos.Unsigned.to_uint_nonnil.
Qed.

Lemma decimal_eq n : decimal n = NilEmpty.string_of_uint (N.to_uint (Z.to_N n)).
Proof.
  unfold decimal, NilZero.string_of_uint.
  pose proof (to_uint_nonnil (Z.to_N n)). destruct (N.to_uint (Z.to_N n)); congruence.
Qed.

Lemma scan_digits_end acc rest : ends_number rest = true -> scan_digits acc rest = (acc, rest).
Proof.
  destruct rest as [|c rest]; [reflexivity|]. cbn [ends_number scan_digits].
  destruct (isdigit c); [discriminate|reflexivity].
Qed.

(** Reading back the digits [printf] writes for a natural number. *)
Lemma scan_digits_decimal n rest :
  0 <= n -> ends_number rest = true ->
  scan_digits 0 (decimal n +:+ rest) = (n, rest).
Proof.
  intros Hn Hrest.
  rewrite decimal_eq, scan_digits_uint, uint_value_of_uint, DecimalN.Unsigned.of_to.
  rewrite Z2N.id by exact Hn. apply scan_digits_end, Hrest.
Qed.

Lemma scan_number_decimal n rest :
  0 <= n -> ends_number rest = true ->
  scan_number (decimal n +:+ rest) = Some (false, n, rest).
Proof.
  intros Hn Hrest.
  destruct (first_char_decimal n) as (c & Hc & Hd).
  pose proof (scan_digits_decimal n rest Hn Hrest) as Hscan.
  destruct (decimal n) as [|c' s]; [discriminate|]. injection Hc as ->.
  cbn [String.append] in *. rewrite scan_number_digit by exact Hd.
  cbn [scan_digits] in Hscan. rewrite Hd in Hscan.
  replace (10 * 0 + digit_value c) with (digit_value c) in Hscan by lia.
  rewrite Hscan. reflexivity.
Qed.

Lemma skip_space_decimal n rest : skip_space (decimal n +:+ rest) = decimal n +:+ rest.
Proof.
  destruct (first_char_decimal n) as (c & Hc & Hd).
  destruct (decimal n) as [|c' s]; [discriminate|]. injection Hc as ->.
  cbn [String.append skip_space]. rewrite (isdigit_not_space c Hd). reflexivity.
Qed.

End Numbers.

Section KernelLines.

Lemma ends_number_numbers vs rest :
  ends_number rest = true -> ends_number (numbers_text vs +:+ rest) = true.
Proof. destruct vs; [trivial|reflexivity]. Qed.

Lemma sscanf_numbers vs : forall fmt rest,
  Forall (fun v => 0 <= v <= ULLONG_MAX) vs -> ends_number rest = true ->
  sscanf (llu_fmt (length vs) ++ fmt) (numbers_text vs +:+ rest) = vs ++ sscanf fmt rest.
Proof.
  induction vs as [|v vs IH]; intros fmt rest Hr Hrest; [reflexivity|].
  apply Forall_cons in Hr as [Hv Hr].
  cbn [length llu_fmt app numbers_text].
  rewrite !append_assoc.
  change (" " +:+ decimal v +:+ numbers_text vs +:+ rest)
    with (String " " (decimal v +:+ numbers_text vs +:+ rest)).
  cbn [sscanf skip_space]. change (isspace " ") with true. cbv iota.
  rewrite !skip_space_decimal.
  rewrite scan_number_decimal by (try apply ends_number_numbers; tauto).
  unfold llu_value. destruct (Z.ltb_spec ULLONG_MAX v); [lia|].
  rewrite IH by assumption. reflexivity.
Qed.

Lemma fmt_cpu_stats_eq : fmt_cpu_stats = fmt_cpu_id ++ llu_fmt 10.
Proof. reflexivity. Qed.

(** A per-core line in the kernel's format converts to the index and the
    ten counters. *)
Lemma sscanf_core_line i s :
  0 <= i -> in_range64 s ->
  sscanf fmt_cpu_stats (core_line i s) = i :: counters s.
Proof.
  intros Hi Hs. rewrite fmt_cpu_stats_eq. unfold core_line, core_body, fmt_cpu_id.
  rewrite !append_assoc.
  change ("cpu" +:+ decimal i +:+ numbers_text (counters s) +:+ nl)
    with (String "c" (String "p" (String "u"
            (decimal i +:+ numbers_text (counters s) +:+ nl)))).
  cbn [app sscanf]. rewrite !Ascii.eqb_refl. rewrite skip_space_decimal.
  rewrite scan_number_decimal by (try apply ends_number_numbers; auto).
  cbn [d_value]. f_equal.
  change (llu_fmt 10) with (llu_fmt (length (counters s)) ++ []).
  rewrite (sscanf_numbers (counters s) [] nl Hs eq_refl). cbn [sscanf]. apply app_nil_r.
Qed.

Lemma sscanf_core_line_id i s :
  0 <= i -> sscanf fmt_cpu_id (core_line i s) = [i].
Proof.
  intros Hi. unfold core_line, core_body, fmt_cpu_id. rewrite !append_assoc.
  change ("cpu" +:+ decimal i +:+ numbers_text (counters s) +:+ nl)
    with (String "c" (String "p" (String "u"
            (decimal i +:+ numbers_text (counters s) +:+ nl)))).
  cbn [sscanf]. rewrite !Ascii.eqb_refl. rewrite skip_space_decimal.
  rewrite scan_number_decimal by (try apply ends_number_numbers; auto). reflexivity.
Qed.

Lemma llu_fmt_snoc k : llu_fmt (S k) = llu_fmt k ++ [Space; Conv_llu].
Proof. induction k as [|k IH]; [reflexivity|]. cbn [llu_fmt app] in *. rewrite <- IH. reflexivity. Qed.

Lemma sscanf_tag_spaced fmt v rest :
  0 <= v -> ends_number rest = true ->
  sscanf (fmt_cpu_id ++ fmt) ("cpu " +:+ " " +:+ decimal v +:+ rest) = v :: sscanf fmt rest.
Proof.
  intros Hv Hrest. unfold fmt_cpu_id.
  change ("cpu " +:+ " " +:+ decimal v +:+ rest)
    with (String "c" (String "p" (String "u" (String " " (String " " (decimal v +:+ rest)))))).
  cbn [app sscanf skip_space]. rewrite !Ascii.eqb_refl.
  change (isspace " ") with true. cbv iota. rewrite skip_space_decimal.
  rewrite scan_number_decimal by assumption. reflexivity.
Qed.

Lemma sscanf_aggregate_numbers v vs :
  0 <= v -> Forall (fun v => 0 <= v <= ULLONG_MAX) vs ->
  sscanf (fmt_cpu_id ++ llu_fmt (S (length vs))) ("cpu " +:+ numbers_text (v :: vs) +:+ nl)
  = v :: vs.
Proof.
  intros Hv Hvs. cbn [numbers_text]. rewrite !append_assoc.
  rewrite sscanf_tag_spaced by (try apply ends_number_numbers; auto).
  f_equal. rewrite llu_fmt_snoc, sscanf_numbers by auto.
  change (sscanf [Space; Conv_llu] nl) with (@nil Z). apply app_nil_r.
Qed.

(** On the aggregate line [%d] takes the first counter, so that only ten
    conversions succeed. *)
Lemma sscanf_aggregate_line s :
  in_range64 s -> sscanf fmt_cpu_stats (aggregate_line s) = counters s.
Proof.
  intros Hs. unfold in_range64, counters in *. apply Forall_cons in Hs as [Hu Hs].
  rewrite fmt_cpu_stats_eq. unfold aggregate_line, aggregate_body, counters.
  rewrite append_assoc. apply (sscanf_aggregate_numbers (user s)); [lia|exact Hs].
Qed.

Lemma sscanf_aggregate_line_id s :
  0 <= user s -> sscanf fmt_cpu_id (aggregate_line s) = [user s].
Proof.
  intros Hu. unfold aggregate_line, aggregate_body, counters.
  cbn [numbers_text]. rewrite !append_assoc.
  rewrite <- (app_nil_r fmt_cpu_id). rewrite sscanf_tag_spaced by first [lia|reflexivity].
  reflexivity.
Qed.

End KernelLines.

Section KernelFile.

Lemma count_loop_app l1 l2 c : count_loop (l1 ++ l2) c = count_loop l2 (count_loop l1 c).
Proof.
  revert c. induction l1 as [|line l1 IH]; intros c; [reflexivity|].
  cbn [app count_loop]. destruct (_ =? _)%nat; apply IH.
Qed.

Lemma parse_loop_stop lines num_cpus c :
  num_cpus <= c -> parse_loop lines num_cpus c = ([], c).
Proof.
  intros Hc. destruct lines; [reflexivity|]. cbn [parse_loop].
  destruct (Z.ltb_spec c num_cpus); [lia|reflexivity].
Qed.

(** Parsing two runs of lines one after the other. *)
Lemma parse_loop_app l1 l2 num_cpus c :
  parse_loop (l1 ++ l2) num_cpus c
  = (fst (parse_loop l1 num_cpus c)
       ++ fst (parse_loop l2 num_cpus (snd (parse_loop l1 num_cpus c))),
     snd (parse_loop l2 num_cpus (snd (parse_loop l1 num_cpus c)))).
Proof.
  revert c. induction l1 as [|line l1 IH]; intros c.
  - cbn [app parse_loop fst snd]. destruct (parse_loop l2 num_cpus c). reflexivity.
  - cbn [app parse_loop]. destruct (Z.ltb_spec c num_cpus) as [Hlt|Hge].
    + rewrite IH. destruct (parse_loop l1 num_cpus _) as [s1 n1]. cbn [fst snd].
      rewrite app_assoc. reflexivity.
    + cbn [fst snd app]. rewrite parse_loop_stop by lia. reflexivity.
Qed.

Lemma digits_only_occurrences c s :
  isdigit c = false -> digits_only s = true -> occurrences c s = O.
Proof.
  intros Hc. induction s as [|a s IH]; cbn [occurrences digits_only]; [reflexivity|].
  intros [Ha Hs]%andb_true_iff. rewrite IH by exact Hs.
  destruct (Ascii.eqb_spec c a) as [->|]; [congruence|reflexivity].
Qed.

Lemma occurrences_numbers c vs :
  isdigit c = false -> Ascii.eqb c " " = false -> occurrences c (numbers_text vs) = O.
Proof.
  intros Hd Hs. induction vs as [|v vs IH]; [reflexivity|].
  cbn [numbers_text]. change (" " +:+ ?x) with (String " " x).
  cbn [occurrences]. rewrite Hs, occurrences_app, IH.
  rewrite digits_only_occurrences by auto using digits_only_decimal. reflexivity.
Qed.

Lemma occurrences_core_body c i s :
  isdigit c = false -> Ascii.eqb c " " = false ->
  Ascii.eqb c "c" = false -> Ascii.eqb c "p" = false -> Ascii.eqb c "u" = false ->
  occurrences c (core_body i s) = O /\ occurrences c (aggregate_body s) = O.
Proof.
  intros Hd Hs H1 H2 H3. unfold core_body, aggregate_body.
  change ("cpu" +:+ ?x) with (String "c" (String "p" (String "u" x))).
  change ("cpu " +:+ ?x) with (String "c" (String "p" (String "u" (String " " x)))).
  cbn [occurrences]. rewrite H1, H2, H3, Hs, occurrences_app, occurrences_numbers by assumption.
  rewrite digits_only_occurrences by auto using digits_only_decimal. auto.
Qed.

Lemma c_str_plain s : occurrences NUL s = O -> c_str s = s.
Proof.
  induction s as [|a s IH]; [reflexivity|]. intros [Ha Hs]%occurrences_cons_zero.
  cbn [c_str]. rewrite Ascii.eqb_sym, Ha, IH by exact Hs. reflexivity.
Qed.

Lemma c_str_core_line i s : c_str (core_line i s) = core_line i s.
Proof.
  apply c_str_plain. unfold core_line. rewrite occurrences_app.
  destruct (occurrences_core_body NUL i s) as [-> _]; reflexivity.
Qed.

Lemma c_str_aggregate_line s : c_str (aggregate_line s) = aggregate_line s.
Proof.
  apply c_str_plain. unfold aggregate_line. rewrite occurrences_app.
  destruct (occurrences_core_body NUL 0 s) as [_ ->]; reflexivity.
Qed.

Lemma whole_buffer_line body :
  occurrences newline body = O -> (String.length (body +:+ nl) <= 255)%nat ->
  whole_buffer 255 (body +:+ nl).
Proof.
  intros Hno Hlen. left. exists body. rewrite length_append in Hlen.
  cbn [nl String.length] in Hlen. repeat split; [exact Hno|lia].
Qed.

Lemma whole_buffer_core_line i s :
  (String.length (core_line i s) <= 255)%nat -> whole_buffer 255 (core_line i s).
Proof.
  apply whole_buffer_line. destruct (occurrences_core_body newline i s) as [H _]; auto.
Qed.

Lemma whole_buffer_aggregate_line s :
  (String.length (aggregate_line s) <= 255)%nat -> whole_buffer 255 (aggregate_line s).
Proof.
  apply whole_buffer_line. destruct (occurrences_core_body newline 0 s) as [_ H]; auto.
Qed.

Lemma whole_buffer_core_lines cores : forall i,
  Forall (fun line => (String.length line <= 255)%nat) (core_lines i cores) ->
  Forall (whole_buffer 255) (core_lines i cores).
Proof.
  induction cores as [|s cores IH]; intros i H; [constructor|].
  cbn [core_lines] in *. apply Forall_cons in H as [H1 H2].
  constructor; [apply whole_buffer_core_line, H1|apply IH, H2].
Qed.

(** A line without the tag converts nothing, with either format. *)
Lemma sscanf_no_tag fmt line :
  has_cpu_tag line = false -> sscanf (fmt_cpu_id ++ fmt) (c_str line) = [].
Proof.
  unfold fmt_cpu_id. cbn [app]. intros Htag.
  destruct line as [|a line]; [reflexivity|]. cbn [c_str].
  destruct (Ascii.eqb a NUL); [reflexivity|]. cbn [sscanf].
  destruct (Ascii.eqb_spec "c" a) as [<-|]; [|reflexivity].
  destruct line as [|b line]; [reflexivity|]. cbn [c_str].
  destruct (Ascii.eqb b NUL); [reflexivity|]. cbn [sscanf].
  destruct (Ascii.eqb_spec "p" b) as [<-|]; [|reflexivity].
  destruct line as [|d line]; [reflexivity|]. cbn [c_str].
  destruct (Ascii.eqb d NUL); [reflexivity|]. cbn [sscanf].
  destruct (Ascii.eqb_spec "u" d) as [<-|]; [|reflexivity].
  discriminate Htag.
Qed.

Lemma count_loop_no_tag lines c :
  Forall (fun line => has_cpu_tag line = false) lines -> count_loop lines c = c.
Proof.
  induction 1 as [|line lines Htag _ IH]; [reflexivity|]. cbn [count_loop].
  rewrite <- (app_nil_r fmt_cpu_id), sscanf_no_tag by exact Htag. exact IH.
Qed.

Lemma parse_loop_no_tag lines num_cpus c :
  Forall (fun line => has_cpu_tag line = false) lines ->
  parse_loop lines num_cpus c = ([], c).
Proof.
  induction 1 as [|line lines Htag _ IH]; [reflexivity|]. cbn [parse_loop].
  destruct (c <? num_cpus); [|reflexivity].
  rewrite fmt_cpu_stats_eq, sscanf_no_tag by exact Htag. cbn [length Nat.eqb line_stores].
  rewrite IH. reflexivity.
Qed.

Lemma count_loop_core_lines cores : forall i c,
  0 <= i -> count_loop (core_lines i cores) c = c + Z.of_nat (length cores).
Proof.
  induction cores as [|s cores IH]; intros i c Hi; [cbn; lia|].
  cbn [core_lines count_loop length].
  rewrite c_str_core_line, sscanf_core_line_id by exact Hi. cbn [length Nat.eqb].
  rewrite IH by lia. lia.
Qed.

Lemma parse_loop_core_lines cores : forall i c num_cpus,
  0 <= i -> Forall in_range64 cores ->
  Z.of_nat (c + length cores) <= num_cpus ->
  parse_loop (core_lines i cores) num_cpus (Z.of_nat c)
  = (cores_stores c cores, Z.of_nat (c + length cores)).
Proof.
  induction cores as [|s cores IH]; intros i c num_cpus Hi Hr Hn.
  - cbn [core_lines parse_loop cores_stores length]. rewrite Nat.add_0_r. reflexivity.
  - apply Forall_cons in Hr as [Hs Hr]. cbn [length] in Hn.
    cbn [core_lines parse_loop cores_stores].
    destruct (Z.ltb_spec (Z.of_nat c) num_cpus) as [_|]; [|lia].
    rewrite c_str_core_line, sscanf_core_line by assumption.
    change (length (i :: counters s) =? 11)%nat with true. cbv iota.
    replace (Z.of_nat c + 1) with (Z.of_nat (S c)) by lia.
    rewrite (IH (i + 1) (S c)) by (try assumption; lia).
    cbn [line_stores length]. f_equal. f_equal. lia.
Qed.

End KernelFile.

Section KernelParse.

Lemma fgets_lines_stat_text agg cores others :
  kernel_format agg cores others ->
  fgets_lines 256 (stat_text agg cores others)
  = aggregate_line agg :: core_lines 0 cores ++ others.
Proof.
  intros (_ & _ & Hlen & Hothers & _). unfold stat_text.
  apply fgets_lines_join; [lia|]. change (256 - 1)%nat with 255%nat.
  apply Forall_cons in Hlen as [Hagg Hcores].
  constructor; [apply whole_buffer_aggregate_line, Hagg|].
  apply Forall_app. split; [apply whole_buffer_core_lines, Hcores|exact Hothers].
Qed.

Lemma in_range64_user s : in_range64 s -> 0 <= user s.
Proof. intros H. apply Forall_cons in H as [H _]. lia. Qed.

Lemma count_cpus_stat_text agg cores others :
  kernel_format agg cores others ->
  count_cpus (stat_text agg cores others) = Z.of_nat (length cores) + 1.
Proof.
  intros Hk. unfold count_cpus. rewrite fgets_lines_stat_text by exact Hk.
  destruct Hk as (Hagg & _ & _ & _ & Htag).
  cbn [count_loop]. rewrite c_str_aggregate_line, sscanf_aggregate_line_id
    by apply in_range64_user, Hagg.
  cbn [length Nat.eqb]. rewrite count_loop_app, count_loop_core_lines by lia.
  rewrite count_loop_no_tag by exact Htag. lia.
Qed.

Lemma parse_stores_stat_text agg cores others num_cpus :
  kernel_format agg cores others ->
  1 <= num_cpus -> Z.of_nat (length cores) <= num_cpus ->
  parse_cpu_stats_stores (stat_text agg cores others) num_cpus
  = (line_stores 0 (counters agg) ++ cores_stores 0 cores, Z.of_nat (length cores)).
Proof.
  intros Hk H1 Hn. unfold parse_cpu_stats_stores.
  rewrite fgets_lines_stat_text by exact Hk.
  destruct Hk as (Hagg & Hcores & _ & _ & Htag).
  cbn [parse_loop]. destruct (Z.ltb_spec 0 num_cpus) as [_|]; [|lia].
  rewrite c_str_aggregate_line, sscanf_aggregate_line by exact Hagg.
  change (length (counters agg) =? 11)%nat with false. cbv iota.
  rewrite parse_loop_app.
  pose proof (parse_loop_core_lines cores 0 0%nat num_cpus ltac:(lia) Hcores ltac:(lia)) as Hp.
  change (Z.of_nat 0) with 0 in Hp. cbn [Nat.add] in Hp. rewrite Hp. cbn [fst snd]. rewrite parse_loop_no_tag by exact Htag. cbn [fst snd].
  rewrite app_nil_r. reflexivity.
Qed.

Lemma apply_full_stores x pre c s : apply_stores x (pre ++ full_stores c s) = s.
Proof.
  unfold apply_stores. rewrite foldl_app.
  generalize (foldl (fun s st => set_field (st_field st) (st_value st) s) x pre).
  intros y. destruct y, s. reflexivity.
Qed.

Lemma stores_at_full_stores j c s :
  stores_at j (full_stores (Z.of_nat c) s)
  = if decide (c = j) then full_stores (Z.of_nat c) s else [].
Proof.
  unfold stores_at, full_stores, fields, counters. cbn [zip_with].
  destruct (decide (c = j)) as [->|Hne].
  - rewrite !filter_cons_True by reflexivity. reflexivity.
  - rewrite !filter_cons_False by (cbn; lia). reflexivity.
Qed.

Lemma stores_at_cores_stores cores : forall c j,
  stores_at j (cores_stores c cores)
  = match (if decide (c <= j)%nat then cores !! (j - c)%nat else None) with
    | Some s => full_stores (Z.of_nat j) s
    | None => []
    end.
Proof.
  induction cores as [|s cores IH]; intros c j.
  - cbn [cores_stores]. destruct (decide (c <= j)%nat); reflexivity.
  - cbn [cores_stores]. unfold stores_at in *. rewrite filter_app.
    fold (stores_at j (full_stores (Z.of_nat c) s)). rewrite stores_at_full_stores, IH.
    destruct (decide (c = j)) as [->|Hne].
    + rewrite decide_False, decide_True by lia. rewrite Nat.sub_diag.
      cbn [lookup list_lookup]. apply app_nil_r.
    + destruct (decide (S c <= j)%nat) as [Hle|Hgt].
      * rewrite decide_True by lia.
        replace (j - c)%nat with (S (j - S c)) by lia. reflexivity.
      * rewrite decide_False by lia. reflexivity.
Qed.

Lemma stores_at_line_stores j c vals :
  c <> Z.of_nat j -> stores_at j (line_stores c vals) = [].
Proof.
  intros Hne. apply stores_at_none.
  eapply Forall_impl; [apply line_stores_index|]. cbn. intros st ->. exact Hne.
Qed.

(** What parsing a file in the kernel's format leaves in each entry. *)
Lemma lookup_parse_stat_text agg cores others num_cpus cpu_data j :
  kernel_format agg cores others ->
  cores <> [] -> Z.of_nat (length cores) <= num_cpus ->
  fst (parse_cpu_stats (stat_text agg cores others) cpu_data num_cpus) !! j
  = refreshed cores j <$> cpu_data !! j.
Proof.
  intros Hk Hne Hn.
  assert (1 <= Z.of_nat (length cores)) as H1 by (destruct cores; [congruence|cbn; lia]).
  unfold parse_cpu_stats. rewrite parse_stores_stat_text by (try assumption; lia).
  cbn [fst]. rewrite lookup_run_stores.
  destruct (cpu_data !! j) as [d|]; [|reflexivity]. cbn [fmap option_fmap option_map].
  f_equal. unfold stored, refreshed. f_equal.
  unfold stores_at. rewrite filter_app. fold (stores_at j (line_stores 0 (counters agg))).
  fold (stores_at j (cores_stores 0 cores)). rewrite stores_at_cores_stores.
  rewrite decide_True, Nat.sub_0_r by lia.
  destruct (cores !! j) as [s|] eqn:Hj; cbn [default].
  - apply apply_full_stores.
  - rewrite app_nil_r. rewrite stores_at_line_stores; [reflexivity|].
    apply lookup_ge_None in Hj. lia.
Qed.

End KernelParse.

(** X4. On a counter file in the kernel's format with N >= 1 cores,
    [count_cpus] returns N + 1 (it counts the aggregate line), while
    [parse_cpu_stats], asked for at least N entries, accepts exactly the N
    per-core lines: entry j below N receives the counters of core j's line as
    its "current" snapshot, and everything else in the array is left as it
    was. *)
Theorem parse_kernel_format agg cores others num_cpus cpu_data :
  kernel_format agg cores others ->
  cores <> [] -> Z.of_nat (length cores) <= num_cpus ->
  count_cpus (stat_text agg cores others) = Z.of_nat (length cores) + 1
  /\ snd (parse_cpu_stats (stat_text agg cores others) cpu_data num_cpus)
     = Z.of_nat (length cores)
  /\ forall j,
       fst (parse_cpu_stats (stat_text agg cores others) cpu_data num_cpus) !! j
       = refreshed cores j <$> cpu_data !! j.
Proof.
  intros Hk Hne Hn.
  assert (1 <= Z.of_nat (length cores)) as H1 by (destruct cores; [congruence|cbn; lia]).
  split; [apply count_cpus_stat_text, Hk|]. split.
  - unfold parse_cpu_stats. rewrite parse_stores_stat_text by (try assumption; lia).
    reflexivity.
  - intros j. apply lookup_parse_stat_text; assumption.
Qed.

Lemma parse_kernel_format_witness :
  count_cpus (stat_text sample_aggregate sample_cores sample_others) = 3
  /\ snd (parse_cpu_stats (stat_text sample_aggregate sample_cores sample_others)
                          (replicate 3 zero_data) 3)
     = 2.
Proof.
  destruct (parse_kernel_format sample_aggregate sample_cores sample_others 3
              (replicate 3 zero_data)) as (Hcount & Hparse & _).
  - apply kernel_format_samples.
  - discriminate.
  - vm_compute. discriminate.
  - split; [exact Hcount|exact Hparse].
Defined.

Section LoopFacts.

Lemma lookup_iteration_loads guard first cpu_data num_cpus j :
  Z.of_nat j < num_cpus ->
  iteration_loads guard first cpu_data num_cpus !! j
  = Some (core_load guard first cpu_data (Z.of_nat j)).
Proof.
  intros Hj. unfold iteration_loads. rewrite list_lookup_fmap, lookup_seqZ_lt by exact Hj.
  reflexivity.
Qed.

Lemma fst_iteration guard first file now num_cpus cpu_data out :
  fst (iteration guard first file now num_cpus cpu_data out)
  = seed_previous (fst (parse_cpu_stats file cpu_data num_cpus)) num_cpus.
Proof. rewrite iteration_eq. reflexivity. Qed.

Lemma length_parse_cpu_stats file cpu_data num_cpus :
  length (fst (parse_cpu_stats file cpu_data num_cpus)) = length cpu_data.
Proof. rewrite fst_parse_cpu_stats. apply length_run_stores. Qed.

Lemma length_iteration guard first file now num_cpus cpu_data out :
  length (fst (iteration guard first file now num_cpus cpu_data out)) = length cpu_data.
Proof. rewrite fst_iteration, length_seed_previous. apply length_parse_cpu_stats. Qed.

(** After an iteration no entry below [num_cpus] has a difference between
    [previous] and [current]. *)
Lemma iteration_settled guard first file now num_cpus cpu_data out j d :
  (j < Z.to_nat num_cpus)%nat ->
  fst (iteration guard first file now num_cpus cpu_data out) !! j = Some d ->
  previous d = current d.
Proof.
  intros Hj. rewrite fst_iteration, lookup_seed_previous.
  destruct (_ !! j) as [d0|]; [|discriminate]. cbn. intros [= <-].
  unfold advanced. rewrite decide_True by exact Hj. reflexivity.
Qed.

Lemma initial_data_settled reads num_cpus j d :
  initial_data reads num_cpus !! j = Some d -> previous d = current d.
Proof.
  rewrite initial_data_eq, lookup_seed_previous.
  destruct (_ !! j) as [d0|] eqn:Hd; [|discriminate]. cbn. intros [= <-].
  apply lookup_lt_Some in Hd. rewrite length_parse_cpu_stats, length_replicate in Hd.
  unfold advanced. rewrite decide_True by exact Hd. reflexivity.
Qed.

Lemma length_initial_data reads num_cpus :
  length (initial_data reads num_cpus) = Z.to_nat num_cpus.
Proof.
  rewrite initial_data_eq, length_seed_previous, length_parse_cpu_stats.
  apply length_replicate.
Qed.

End LoopFacts.

(** X5. Two iterations in a row over counter files in the kernel's format
    with N >= 1 cores, run as [main] runs them with N + 1 entries: in the row
    of the second iteration the load of core j is [calculate_cpu_load]
    applied to core j's line in the second file and core j's line in the
    first, and the extra last column is 0.0. *)
Theorem loads_from_consecutive_reads
    agg1 cores1 others1 agg2 cores2 others2 guard first now1 cpu_data out :
  kernel_format agg1 cores1 others1 ->
  kernel_format agg2 cores2 others2 ->
  cores1 <> [] -> length cores2 = length cores1 ->
  length cpu_data = S (length cores1) ->
  let num_cpus := Z.of_nat (length cores1) + 1 in
  let cpu_data1 :=
    fst (iteration guard first (stat_text agg1 cores1 others1) now1 num_cpus cpu_data out) in
  let loads :=
    iteration_loads true false
      (fst (parse_cpu_stats (stat_text agg2 cores2 others2) cpu_data1 num_cpus)) num_cpus in
  length loads = S (length cores1)
  /\ (forall j s1 s2,
        cores1 !! j = Some s1 -> cores2 !! j = Some s2 ->
        loads !! j = Some (calculate_cpu_load s2 s1))
  /\ loads !! length cores1 = Some dzero.
Proof.
  intros Hk1 Hk2 Hne Hlen Hcd num_cpus cpu_data1 loads.
  assert (cores2 <> []) as Hne2 by (destruct cores1, cores2; cbn in *; congruence).
  assert (Z.of_nat (length cores1) <= num_cpus) as Hn1 by (subst num_cpus; lia).
  assert (Z.of_nat (length cores2) <= num_cpus) as Hn2 by (subst num_cpus; lia).
  pose proof (fun j => lookup_parse_stat_text agg1 cores1 others1 num_cpus cpu_data j
                         Hk1 Hne Hn1) as Hp1.
  pose proof (fun j => lookup_parse_stat_text agg2 cores2 others2 num_cpus cpu_data1 j
                         Hk2 Hne2 Hn2) as Hp2.
  assert (forall j, (j < S (length cores1))%nat ->
            exists d, cpu_data !! j = Some d
            /\ fst (parse_cpu_stats (stat_text agg2 cores2 others2) cpu_data1 num_cpus) !!! j
               = refreshed cores2 j
                   {| current := default (current d) (cores1 !! j);
                      previous := default (current d) (cores1 !! j) |}) as Hentry.
  { intros j Hj. destruct (lookup_lt_is_Some_2 cpu_data j ltac:(lia)) as [d Hd].
    exists d. split; [exact Hd|].
    rewrite list_lookup_total_alt, Hp2. subst cpu_data1.
    rewrite fst_iteration, lookup_seed_previous, Hp1, Hd.
    cbn [fmap option_fmap option_map default]. unfold advanced.
    rewrite decide_True by (subst num_cpus; lia). reflexivity. }
  split; [|split].
  - subst loads. rewrite length_iteration_loads. subst num_cpus. lia.
  - intros j s1 s2 H1 H2. pose proof (lookup_lt_Some _ _ _ H1) as Hj.
    subst loads. rewrite lookup_iteration_loads by (subst num_cpus; lia).
    unfold core_load. rewrite Nat2Z.id. cbn [andb].
    destruct (Hentry j ltac:(lia)) as (d & _ & ->).
    unfold refreshed. cbn [current previous]. rewrite H1, H2. reflexivity.
  - subst loads. rewrite lookup_iteration_loads by (subst num_cpus; lia).
    unfold core_load. rewrite Nat2Z.id. cbn [andb].
    destruct (Hentry (length cores1) ltac:(lia)) as (d & _ & ->).
    unfold refreshed. cbn [current previous].
    rewrite !(lookup_ge_None_2 _ (length cores1)) by lia. cbn [default].
    f_equal. apply calculate_cpu_load_same.
Qed.

Lemma loads_from_consecutive_reads_witness :
  let cpu_data1 :=
    fst (iteration true true (stat_text sample_aggregate sample_cores sample_others)
                   (sample_clock 0) 3 (replicate 3 zero_data) EmptyString) in
  let loads :=
    iteration_loads true false
      (fst (parse_cpu_stats (stat_text sample_aggregate sample_cores_later sample_others)
                            cpu_data1 3)) 3 in
  loads !! 0%nat = Some (calculate_cpu_load snapshot_100 snapshot_0)
  /\ loads !! 2%nat = Some dzero.
Proof.
  destruct (loads_from_consecutive_reads
              sample_aggregate sample_cores sample_others
              sample_aggregate sample_cores_later sample_others
              true true (sample_clock 0) (replicate 3 zero_data) EmptyString)
    as (_ & Hcores & Hlast).
  - apply kernel_format_samples.
  - apply kernel_format_samples.
  - discriminate.
  - reflexivity.
  - reflexivity.
  - split; [apply (Hcores 0%nat snapshot_0 snapshot_100); reflexivity|exact Hlast].
Defined.

Section MoreLoopFacts.

Lemma length_poll_loop guard reads clock num_cpus ticks :
  forall k first cpu_data out,
    length (fst (poll_loop guard reads clock num_cpus ticks k first cpu_data out))
    = length cpu_data.
Proof.
  induction ticks as [|ticks IH]; intros k first cpu_data out; [reflexivity|].
  cbn [poll_loop].
  pose proof (length_iteration guard first (reads (2 + k)%nat) (clock k) num_cpus cpu_data out)
    as Hlen.
  destruct (iteration _ _ _ _ _ _ _) as [cd o]. cbn [fst] in Hlen.
  rewrite IH. exact Hlen.
Qed.

Lemma show_help_parse_options results o :
  show_help (parse_options results o) = show_help o || existsb asks_help results.
Proof.
  revert o. induction results as [|[c arg] rest IH]; intros o.
  - cbn. rewrite orb_false_r. reflexivity.
  - cbn [parse_options existsb]. rewrite IH.
    replace (asks_help (c, arg))
      with (negb (Ascii.eqb c "m") && negb (Ascii.eqb c "t")) by reflexivity.
    destruct (Ascii.eqb c "m"); [reflexivity|].
    destruct (Ascii.eqb c "t"); cbn [show_help negb andb orb]; [reflexivity|].
    rewrite orb_true_r. reflexivity.
Qed.

End MoreLoopFacts.

(** X6. Whenever [main] is at the head of its polling loop, after any
    number of iterations, the array has [num_cpus] entries and in each of
    them [previous] equals [current]: a load is always computed against the
    counters of the previous pass over the file. *)
Theorem previous_tracks_current guard reads clock num_cpus ticks :
  let cpu_data :=
    fst (poll_loop guard reads clock num_cpus ticks 0 true
                   (initial_data reads num_cpus) (header num_cpus)) in
  length cpu_data = Z.to_nat num_cpus
  /\ forall j d, cpu_data !! j = Some d -> previous d = current d.
Proof.
  intros cpu_data. assert (length cpu_data = Z.to_nat num_cpus) as Hlen.
  { subst cpu_data. rewrite length_poll_loop. apply length_initial_data. }
  split; [exact Hlen|]. intros j d Hd.
  pose proof (lookup_lt_Some _ _ _ Hd) as Hj. rewrite Hlen in Hj.
  subst cpu_data. destruct ticks as [|ticks].
  - cbn [poll_loop fst] in Hd. eapply initial_data_settled. exact Hd.
  - rewrite poll_loop_snoc in Hd. destruct (poll_loop _ _ _ _ ticks _ _ _ _) as [cd o].
    eapply iteration_settled; [exact Hj|exact Hd].
Qed.

(** X7. Standard output only grows, a row at a time: what a run prints in
    [k + 1] iterations is what it prints in [k] iterations followed by the
    row of iteration [k], whose timestamp is the clock read in that iteration
    and whose loads are computed on the array as parsed in that iteration. *)
Theorem rows_appended env k :
  ending_of env = Clean_shutdown ->
  stdout (main env (S k))
  = stdout (main env k)
    +:+ row_line (boottime env k)
          (iteration_loads true (bool_decide (k = 0%nat)) (Progress.parsed env k)
                           (core_count env))
    +:+ nl.
Proof.
  intros Hrun. rewrite !(stdout_main env Hrun). unfold Progress.parsed.
  unfold Progress.after at 1. rewrite poll_loop_snoc. fold (Progress.after env k).
  destruct (Progress.after env k) as [cd out]. rewrite iteration_eq.
  cbn [fst snd andb Nat.add]. reflexivity.
Qed.

Lemma rows_appended_witness :
  stdout (main steady_env 2)
  = stdout (main steady_env 1)
    +:+ row_line (boottime steady_env 1)
          (iteration_loads true false (Progress.parsed steady_env 1)
                           (core_count steady_env))
    +:+ nl.
Proof. apply (rows_appended steady_env 1). reflexivity. Defined.

(** X8. Parsing the same content twice is the same as parsing it once:
    [parse_cpu_stats] leaves an array it has just filled from a file as it
    is when run again on that file, and returns the same count. *)
Theorem parse_cpu_stats_idempotent file cpu_data num_cpus :
  parse_cpu_stats file (fst (parse_cpu_stats file cpu_data num_cpus)) num_cpus
  = parse_cpu_stats file cpu_data num_cpus.
Proof.
  rewrite (surjective_pairing (parse_cpu_stats file (fst _) _)).
  rewrite (surjective_pairing (parse_cpu_stats file cpu_data _)) at 3.
  f_equal.
  - rewrite !fst_parse_cpu_stats. apply list_eq. intros i.
    rewrite !lookup_run_stores. destruct (cpu_data !! i) as [d|]; [|reflexivity].
    cbn [fmap option_fmap option_map]. f_equal. unfold stored. cbn [current previous].
    rewrite apply_stores_idem. reflexivity.
  - unfold parse_cpu_stats. destruct (parse_cpu_stats_stores file num_cpus). reflexivity.
Qed.

(** X9. [main] ends with status 1 exactly when [getopt] returned, at any
    position, something other than ['m'] and ['t'] (['h'], or ['?'] for an
    unknown option or a missing argument); it then prints nothing on standard
    output, whatever the other options and the state of /proc/stat. *)
Theorem usage_exit_iff env ticks :
  (exit_status (main env ticks) = 1 <-> existsb asks_help (getopt_results env) = true)
  /\ (existsb asks_help (getopt_results env) = true ->
      main env ticks = {| stdout := EmptyString; exit_status := 1 |}).
Proof.
  unfold main, main_with. rewrite show_help_parse_options. cbn [default_options show_help orb].
  destruct (existsb asks_help (getopt_results env)).
  - split; [split|]; reflexivity.
  - split; [|discriminate].
    destruct (proc_stat env) as [reads|]; [|split; discriminate].
    destruct (_ =? 0); [split; discriminate|].
    destruct (negb _); [split; discriminate|].
    destruct (poll_loop _ _ _ _ _ _ _ _ _). split; discriminate.
Qed.

Lemma usage_exit_iff_witness :
  main {| getopt_results := [("m"%char, EmptyString); ("h"%char, EmptyString)];
          proc_stat := None; calloc_ok := true; boottime := sample_clock |} 0
  = {| stdout := EmptyString; exit_status := 1 |}.
Proof.
  apply (usage_exit_iff
           {| getopt_results := [("m"%char, EmptyString); ("h"%char, EmptyString)];
              proc_stat := None; calloc_ok := true; boottime := sample_clock |} 0).
  reflexivity.
Defined.

(** X3. When no line the program reads from /proc/stat begins with [cpu]
    (an empty file included), discovery finds no core and [main] ends with
    status 3 before printing anything, the header included. *)
Theorem no_cpu_lines_exit env reads ticks :
  existsb asks_help (getopt_results env) = false ->
  proc_stat env = Some reads ->
  Forall (fun line => has_cpu_tag line = false) (fgets_lines 256 (reads 0%nat)) ->
  main env ticks = {| stdout := EmptyString; exit_status := 3 |}.
Proof.
  intros Hopt Hreads Htag. unfold main, main_with.
  rewrite show_help_parse_options, Hopt, Hreads. cbn [default_options show_help orb].
  unfold count_cpus. rewrite count_loop_no_tag by exact Htag. reflexivity.
Qed.

Lemma no_cpu_lines_exit_witness :
  main {| getopt_results := [("m"%char, EmptyString)];
          proc_stat := Some (fun _ => "intr 5 6" +:+ nl +:+ "ctxt 7" +:+ nl);
          calloc_ok := true; boottime := sample_clock |} 3
  = {| stdout := EmptyString; exit_status := 3 |}.
Proof.
  apply (no_cpu_lines_exit _ (fun _ => "intr 5 6" +:+ nl +:+ "ctxt 7" +:+ nl)).
  - reflexivity.
  - reflexivity.
  - vm_compute. repeat constructor.
Defined.

(** X2. Discovery works buffer by buffer, not line by line: when the file
    begins with a piece that fills a call of [fgets] (a line of at most 254
    characters with its newline, or 255 characters without one), the count is
    that of the piece alone plus that of the rest. So the remainder of a line
    longer than 255 characters is examined as if it were a line of its own. *)
Theorem count_cpus_by_buffers piece rest :
  whole_buffer 255 piece ->
  count_cpus (piece +:+ rest) = count_cpus piece + count_cpus rest.
Proof.
  intros Hw. unfold count_cpus.
  rewrite (fgets_lines_cons 256 piece rest) by (first [lia|exact Hw]).
  pose proof (fgets_lines_cons 256 piece EmptyString ltac:(lia) Hw) as Hone.
  rewrite append_nil_r in Hone. rewrite Hone.
  change (fgets_lines 256 EmptyString) with (@nil string).
  pose proof (count_loop_app [piece] (fgets_lines 256 rest) 0) as Happ.
  cbn [app] in Happ. rewrite Happ.
  rewrite (count_loop_matching _ (count_loop [piece] 0)).
  rewrite (count_loop_matching (fgets_lines 256 rest) 0). lia.
Qed.

Lemma count_cpus_by_buffers_witness :
  count_cpus (long_head +:+ "cpu1" +:+ nl)
  = count_cpus long_head + count_cpus ("cpu1" +:+ nl).
Proof.
  apply (count_cpus_by_buffers long_head ("cpu1" +:+ nl)).
  right. split; [reflexivity|]. split; [reflexivity|lia].
Defined.

Section Unattended.

Import Emission Progress.

Variable reads : nat -> string.
Variable clock : nat -> timespec.

(** The machine is in the loop, [done] unset, nothing released. *)
Local Abbreviation polling m :=
  (done m = false /\ cpu_data_live m = true /\ stat_file_open m = true
   /\ match pc m with P_free | P_fclose | P_exit | P_halted _ => False | _ => True end).

Ltac fields_cbn :=
  cbn [pc done first_reading num_cpus cpu_data current_time tick out
       cpu_data_live stat_file_open goto with_data fst snd].

Lemma polling_step_program m : polling m -> polling (step_program reads clock m).
Proof.
  destruct m as [p d f n cd t k o l op]. unfold step_program.
  destruct p as [| | | | |i| | | | | | | |s];
    fields_cbn;
    intros (-> & -> & -> & Hp); try contradiction; try (repeat split; reflexivity).
  destruct (i <? n); [destruct (emit_core true f (cd, o) i) as [cd' o']|];
    fields_cbn; repeat split; reflexivity.
Qed.

Lemma polling_exec n m : polling m -> polling (exec reads clock (replicate n Run) m).
Proof.
  revert m. induction n as [|n IH]; intros m H; [exact H|].
  cbn [replicate exec foldl step]. apply IH, polling_step_program, H.
Qed.

Lemma exec_app s1 s2 m :
  exec reads clock (s1 ++ s2) m = exec reads clock s2 (exec reads clock s1 m).
Proof. unfold exec. apply foldl_app. Qed.

(** The per-core loop runs to its end without touching the control
    state. *)
Lemma core_loop_runs n :
  forall m i,
    pc m = P_core i -> 0 <= i -> Z.to_nat (num_cpus m - i) = n ->
    let m' := exec reads clock (replicate (S n) Run) m in
    pc m' = P_newline /\ done m' = done m /\ tick m' = tick m
    /\ num_cpus m' = num_cpus m.
Proof.
  induction n as [|n IH]; intros m i Hpc Hi Hn.
  - cbn [replicate exec foldl step]. unfold step_program. rewrite Hpc.
    destruct (Z.ltb_spec i (num_cpus m)); [lia|]. repeat split; reflexivity.
  - change (exec reads clock (replicate (S (S n)) Run) m)
      with (exec reads clock (replicate (S n) Run) (step_program reads clock m)).
    pose (m1 := step_program reads clock m).
    assert (pc m1 = P_core (i + 1) /\ done m1 = done m /\ tick m1 = tick m
            /\ num_cpus m1 = num_cpus m) as (Hpc1 & Hd1 & Ht1 & Hn1).
    { subst m1. unfold step_program. rewrite Hpc.
      destruct (Z.ltb_spec i (num_cpus m)); [|lia].
      destruct (emit_core true (first_reading m) (cpu_data m, out m) i) as [cd' o'].
      repeat split; reflexivity. }
    fold m1. destruct (IH m1 (i + 1) Hpc1 ltac:(lia) ltac:(rewrite Hn1; lia))
      as (H1 & H2 & H3 & H4).
    cbv zeta. rewrite H1, H2, H3, H4, Hd1, Ht1, Hn1. repeat split; reflexivity.
Qed.

(** One whole iteration, from the loop test back to the loop test. *)
Lemma iteration_runs m :
  pc m = P_test -> done m = false -> 0 <= num_cpus m ->
  let m' := exec reads clock (replicate (Z.to_nat (num_cpus m) + 10) Run) m in
  pc m' = P_test /\ done m' = false /\ tick m' = S (tick m)
  /\ num_cpus m' = num_cpus m.
Proof.
  intros Hpc Hd Hn.
  replace (Z.to_nat (num_cpus m) + 10)%nat
    with (5 + (S (Z.to_nat (num_cpus m)) + 4))%nat by lia.
  rewrite !replicate_add, !exec_app.
  set (m1 := exec reads clock (replicate 5 Run) m).
  assert (pc m1 = P_core 0 /\ done m1 = false /\ tick m1 = tick m
          /\ num_cpus m1 = num_cpus m) as (Hpc1 & Hd1 & Ht1 & Hn1).
  { subst m1. destruct m as [p d f n cd t k o l op]. cbn [pc done] in Hpc, Hd. subst p d.
    repeat split; reflexivity. }
  destruct (core_loop_runs (Z.to_nat (num_cpus m)) m1 0 Hpc1 ltac:(lia)
              ltac:(rewrite Hn1; f_equal; lia)) as (Hpc2 & Hd2 & Ht2 & Hn2).
  set (m2 := exec reads clock (replicate (S (Z.to_nat (num_cpus m))) Run) m1) in *.
  clearbody m2. clearbody m1.
  destruct m2 as [p d f n cd t k o l op].
  cbn [pc done tick num_cpus] in Hpc2, Hd2, Ht2, Hn2. subst p.
  cbv zeta. rewrite <- Hn1, <- Hn2, <- Ht1, <- Ht2, <- Hd1, <- Hd2.
  repeat split; reflexivity.
Qed.

Lemma iterations_run k :
  forall m,
    pc m = P_test -> done m = false -> 0 <= num_cpus m ->
    let m' := exec reads clock (replicate (k * (Z.to_nat (num_cpus m) + 10)) Run) m in
    pc m' = P_test /\ done m' = false /\ tick m' = (k + tick m)%nat.
Proof.
  induction k as [|k IH]; intros m Hpc Hd Hn.
  - repeat split; assumption.
  - cbn [Nat.mul]. rewrite replicate_add, exec_app.
    destruct (iteration_runs m Hpc Hd Hn) as (H1 & H2 & H3 & H4).
    set (m1 := exec reads clock (replicate (Z.to_nat (num_cpus m) + 10) Run) m) in *.
    destruct (IH m1 H1 H2 ltac:(lia)) as (H5 & H6 & H7).
    rewrite H4 in H5, H6, H7. cbv zeta. rewrite H5, H6, H7, H3.
    repeat split; try reflexivity. lia.
Qed.

End Unattended.

(** X10. As long as SIGTERM is not delivered the process does not end:
    from the entry of the polling loop, after any number of statements of the
    main thread, [done] is unset, the process has not exited, the array is
    still allocated and the file still open. *)
Theorem no_exit_without_sigterm env m0 n :
  Emission.start env = Some m0 ->
  let m := Emission.exec (reads_of env) (boottime env) (replicate n Emission.Run) m0 in
  Emission.halted m = false /\ Emission.done m = false
  /\ Emission.cpu_data_live m = true /\ Emission.stat_file_open m = true.
Proof.
  intros Hstart m.
  assert (Emission.done m0 = false /\ Emission.cpu_data_live m0 = true
          /\ Emission.stat_file_open m0 = true
          /\ match Emission.pc m0 with
             | Emission.P_free | Emission.P_fclose | Emission.P_exit
             | Emission.P_halted _ => False
             | _ => True
             end) as H0.
  { unfold Emission.start in Hstart.
    destruct (show_help _); [discriminate|].
    destruct (proc_stat env); [|discriminate].
    destruct (_ =? 0); [discriminate|]. destruct (negb _); [discriminate|].
    injection Hstart as <-. repeat split; reflexivity. }
  destruct (polling_exec (reads_of env) (boottime env) n m0 H0) as (Hd & Hl & Ho & Hp).
  fold m in Hd, Hl, Ho, Hp. unfold Emission.halted.
  repeat split; try assumption. destruct (Emission.pc m); solve [reflexivity|contradiction].
Qed.

Lemma no_exit_without_sigterm_witness :
  match Emission.start steady_env with
  | Some m0 =>
      Emission.halted
        (Emission.exec (reads_of steady_env) (boottime steady_env)
                       (replicate 40 Emission.Run) m0) = false
  | None => False
  end.
Proof.
  destruct (Emission.start steady_env) as [m0|] eqn:Hstart;
    [|vm_compute in Hstart; discriminate].
  apply (no_exit_without_sigterm steady_env m0 40 Hstart).
Defined.

(** X11. Left alone, the process prints row after row: an iteration takes
    [num_cpus + 10] statements, and after [k] times as many the machine is
    back at the loop test with [done] unset, [k] iterations completed, and
    its standard output is that of [main] after [k] iterations. *)
Theorem rows_without_signal env m0 k :
  ending_of env = Clean_shutdown ->
  Emission.start env = Some m0 ->
  let m := Emission.exec (reads_of env) (boottime env)
             (replicate (k * (Z.to_nat (core_count env) + 10)) Emission.Run) m0 in
  Emission.pc m = Emission.P_test /\ Emission.done m = false
  /\ Emission.tick m = k /\ Emission.out m = stdout (main env k).
Proof.
  intros Hrun Hstart m.
  assert (Progress.inv env m) as Hinv by (apply inv_exec, inv_start; assumption).
  assert (Emission.pc m0 = Emission.P_test /\ Emission.done m0 = false
          /\ Emission.tick m0 = 0%nat /\ Emission.num_cpus m0 = core_count env)
    as (Hpc & Hd & Ht & Hn).
  { destruct (running_inv env Hrun) as (Hh & Hp & Hc & Ha).
    unfold Emission.start in Hstart. rewrite Hh, Hp in Hstart.
    fold (core_count env) in Hstart. rewrite Hc, Ha in Hstart.
    injection Hstart as <-. repeat split; reflexivity. }
  destruct (iterations_run (reads_of env) (boottime env) k m0 Hpc Hd
              ltac:(rewrite Hn; apply count_cpus_nonneg)) as (H1 & H2 & H3).
  rewrite Hn, Ht, Nat.add_0_r in *. fold m in H1, H2, H3.
  repeat split; try assumption.
  unfold Progress.inv in Hinv. rewrite H1 in Hinv.
  destruct Hinv as (_ & _ & _ & Hout). rewrite (stdout_main env Hrun), <- H3.
  rewrite <- Hout. reflexivity.
Qed.

Lemma rows_without_signal_witness :
  match Emission.start steady_env with
  | Some m0 =>
      Emission.out
        (Emission.exec (reads_of steady_env) (boottime steady_env)
           (replicate (2 * (Z.to_nat (core_count steady_env) + 10)) Emission.Run) m0)
      = stdout (main steady_env 2)
  | None => False
  end.
Proof.
  destruct (Emission.start steady_env) as [m0|] eqn:Hstart;
    [|vm_compute in Hstart; discriminate].
  apply (rows_without_signal steady_env m0 2 eq_refl Hstart).
Defined.

Section Finite.

Lemma digits2_pos_upper p k : 0 <= k -> Z.pos p < 2 ^ k -> Z.pos (digits2_pos p) <= k.
Proof.
  intros Hk Hp. pose proof (digits2_pos_lower p) as Hl.
  assert (2 ^ (Z.pos (digits2_pos p) - 1) < 2 ^ k) as Hlt by lia.
  apply Z.pow_lt_mono_r_iff in Hlt; lia.
Qed.

Lemma round_nearest_even_le m l : round_nearest_even m l <= m + 1.
Proof. destruct l as [|[]]; simpl; try lia. destruct (Z.even m); lia. Qed.

(** Shifting to the canonical exponent does not increase the mantissa and
    ends at the given exponent or at the canonical one. *)
Lemma shr_fexp_upper m e l :
  1 <= m ->
  shr_m (fst (shr_fexp prec emax m e l)) <= m
  /\ snd (shr_fexp prec emax m e l) <= Z.max e (fexp prec emax (Zdigits2 m + e)).
Proof.
  intros Hm. unfold shr_fexp, shr.
  destruct (fexp prec emax (Zdigits2 m + e) - e) as [|n|n] eqn:Hn; cbn [fst snd].
  - rewrite shr_m_of_loc. lia.
  - rewrite iter_pos_shr_1 by (rewrite shr_m_of_loc; lia).
    rewrite shr_m_of_loc. split; [|lia].
    apply Z.div_le_upper_bound; [lia|]. assert (1 <= 2 ^ Z.pos n) by lia. nia.
  - rewrite shr_m_of_loc. lia.
Qed.

(** Rounding a mantissa below 2^64 with a nonpositive exponent that is
    not below the least one gives a finite number. *)
Lemma binary_round_aux_finite s m e l :
  1 <= m < 2 ^ 64 -> -1022 <= e <= 0 ->
  exists m' e', binary_round_aux prec emax s m e l = S754_finite s m' e'.
Proof.
  intros Hm He. unfold binary_round_aux.
  pose proof (shr_fexp_positive m e l ltac:(lia) ltac:(lia)) as [H1 H2].
  pose proof (shr_fexp_upper m e l ltac:(lia)) as [H1' H2'].
  assert (Zdigits2 m <= 64) as Hd.
  { destruct m as [|p|p]; try lia. apply digits2_pos_upper; lia. }
  destruct (shr_fexp prec emax m e l) as [r1 e1]. cbn [fst snd] in H1, H2, H1', H2'.
  pose proof (round_nearest_even_ge (shr_m r1) (loc_of_shr_record r1)) as Hr.
  pose proof (round_nearest_even_le (shr_m r1) (loc_of_shr_record r1)) as Hr'.
  set (m1 := round_nearest_even (shr_m r1) (loc_of_shr_record r1)) in *.
  pose proof (shr_fexp_positive m1 e1 loc_Exact ltac:(lia) ltac:(lia)) as [H3 H4].
  pose proof (shr_fexp_upper m1 e1 loc_Exact ltac:(lia)) as [H3' H4'].
  assert (Zdigits2 m1 <= 65) as Hd1.
  { destruct m1 as [|p|p]; try lia. apply digits2_pos_upper; [lia|].
    change (2 ^ 65) with (2 * 2 ^ 64). lia. }
  destruct (shr_fexp prec emax m1 e1 loc_Exact) as [r2 e2]. cbn [fst snd] in H3, H4, H3', H4'.
  unfold fexp, SpecFloat.emin, prec, emax in *.
  destruct (shr_m r2) as [|p|p]; try lia.
  destruct (Z.leb_spec e2 (1024 - 53)) as [_|Hbig]; [eauto|lia].
Qed.

Lemma double_of_Z_finite z :
  0 < z < 2 ^ 64 -> exists m e, double_of_Z z = S754_finite false m e.
Proof.
  intros Hz. destruct z as [|p|p]; try lia.
  unfold double_of_Z, binary_normalize, binary_round, shl_align.
  pose proof (digits2_pos_lower p) as Hl.
  pose proof (digits2_pos_upper p 64 ltac:(lia) ltac:(lia)) as Hu.
  set (d := Z.pos (digits2_pos p)) in *.
  assert (1 <= d) by (unfold d; lia).
  destruct (fexp prec emax (d + 0) - 0) as [|n|n] eqn:Hn.
  - apply binary_round_aux_finite; lia.
  - apply binary_round_aux_finite; lia.
  - unfold fexp, SpecFloat.emin, prec, emax in Hn |- *.
    assert (Z.neg n = d - 53) as Hneg by lia.
    apply binary_round_aux_finite; [|lia].
    assert (forall k q, Z.pos (Pos.iter xO q k) = Z.pos q * 2 ^ Z.pos k) as Hiter.
    { intros k. induction k as [|k IH] using Pos.peano_ind; intros q.
      - cbn [Pos.iter]. lia.
      - rewrite Pos.iter_succ, Pos2Z.inj_xO, IH, Pos2Z.inj_succ, Z.pow_succ_r by lia. lia. }
    rewrite Hiter.
    assert (Z.pos n = 53 - d) as Hpos by lia. rewrite Hpos.
    assert (Z.pos p < 2 ^ d) as Hlt.
    { unfold d. rewrite digits2_pos_size.
      assert (Z.pos p < Z.pos (2 ^ Pos.size p)) as Hg
        by (apply Pos2Z.pos_lt_pos, Pos.size_gt).
      rewrite Pos2Z.inj_pow in Hg. exact Hg. }
    split; [nia|].
    apply Z.lt_le_trans with (2 ^ d * 2 ^ (53 - d)).
    + apply Z.mul_lt_mono_pos_r; lia.
    + rewrite <- Z.pow_add_r by lia. replace (d + (53 - d)) with 53 by lia. lia.
Qed.

(** A finite positive number divided by itself is 1. *)
Lemma ddiv_diag m e :
  ddiv (S754_finite false m e) (S754_finite false m e) = double_of_Z 1.
Proof.
  unfold ddiv, SFdiv, SFdiv_core_binary.
  rewrite !Z.sub_diag.
  change (Z.min (fexp prec emax 0) 0) with (-53).
  change (0 - -53) with 53.
  cbv beta iota zeta.
  rewrite Z.shiftl_mul_pow2 by lia.
  assert (Z.div_eucl (Z.pos m * 2 ^ 53) (Z.pos m) = (2 ^ 53, 0)) as ->.
  { rewrite (surjective_pairing (Z.div_eucl _ _)).
    change (fst (Z.div_eucl (Z.pos m * 2 ^ 53) (Z.pos m)))
      with (Z.pos m * 2 ^ 53 / Z.pos m).
    change (snd (Z.div_eucl (Z.pos m * 2 ^ 53) (Z.pos m)))
      with ((Z.pos m * 2 ^ 53) mod Z.pos m).
    rewrite (Z.mul_comm (Z.pos m)), Z.div_mul, Z.mod_mul by lia. reflexivity. }
  unfold new_location, new_location_even, new_location_odd.
  destruct (Z.even (Z.pos m)); vm_compute; reflexivity.
Qed.

Lemma calculate_cpu_load_deltas cur prev :
  wrap64 (counters_sum cur - counters_sum prev) <> 0 ->
  calculate_cpu_load cur prev
  = load_formula (wrap64 (idle_sum cur - idle_sum prev))
                 (wrap64 (counters_sum cur - counters_sum prev)).
Proof.
  intros Hne. unfold calculate_cpu_load, calculate_cpu_load_traced.
  rewrite !get_total_time_sum, !get_idle_time_sum, !sub64_wrap.
  destruct (Z.eqb_spec (wrap64 (counters_sum cur - counters_sum prev)) 0) as [He|_];
    [contradiction|reflexivity].
Qed.

Lemma wrap64_shift a : exists k, wrap64 a = a + k * 2 ^ 64.
Proof.
  exists (- (a / 2 ^ 64)). unfold wrap64.
  pose proof (Z.div_mod a (2 ^ 64) ltac:(lia)). lia.
Qed.

Lemma wrap64_add_multiple a k : wrap64 (a + k * 2 ^ 64) = wrap64 a.
Proof. unfold wrap64. apply Z_mod_plus_full. Qed.

End Finite.

(** X12. The two ends of the scale. With a total delta other than zero:
    when the idle time has not moved the load is exactly 100 and is printed
    as 100.00; when the whole delta is idle time the load is exactly +0.0 and
    is printed as 0.00. *)
Theorem load_extremes cur prev :
  let total_delta := wrap64 (counters_sum cur - counters_sum prev) in
  let idle_delta := wrap64 (idle_sum cur - idle_sum prev) in
  total_delta <> 0 ->
  (idle_delta = 0 ->
   calculate_cpu_load cur prev = double_of_Z 100
   /\ format_f 2 (calculate_cpu_load cur prev) = "100.00"%string)
  /\ (idle_delta = total_delta ->
      calculate_cpu_load cur prev = dzero
      /\ format_f 2 (calculate_cpu_load cur prev) = "0.00"%string).
Proof.
  intros total_delta idle_delta Hne.
  assert (0 < total_delta < 2 ^ 64) as Hrange.
  { pose proof (wrap64_range (counters_sum cur - counters_sum prev)). subst total_delta. lia. }
  destruct (double_of_Z_finite total_delta Hrange) as (m & e & Hfin).
  rewrite (calculate_cpu_load_deltas cur prev Hne).
  fold total_delta idle_delta. unfold load_formula. split.
  - intros ->. rewrite Hfin.
    assert (dmul (double_of_Z 100)
              (dsub (double_of_Z 1) (ddiv (double_of_Z 0) (S754_finite false m e)))
            = double_of_Z 100) as -> by (vm_compute; reflexivity).
    split; [reflexivity|vm_compute; reflexivity].
  - intros ->. rewrite Hfin, ddiv_diag.
    assert (dmul (double_of_Z 100) (dsub (double_of_Z 1) (double_of_Z 1)) = dzero) as ->
      by (vm_compute; reflexivity).
    split; [reflexivity|vm_compute; reflexivity].
Qed.

Lemma load_extremes_witness :
  format_f 2 (calculate_cpu_load (Build_cpu_stats_t 180 0 0 50 0 0 0 0 0 0) snapshot_0)
  = "100.00"%string
  /\ format_f 2 (calculate_cpu_load (Build_cpu_stats_t 100 0 0 90 0 0 0 0 0 0) snapshot_0)
     = "0.00"%string.
Proof.
  split.
  - apply (load_extremes (Build_cpu_stats_t 180 0 0 50 0 0 0 0 0 0) snapshot_0).
    + vm_compute. discriminate.
    + reflexivity.
  - apply (load_extremes (Build_cpu_stats_t 100 0 0 90 0 0 0 0 0 0) snapshot_0).
    + vm_compute. discriminate.
    + reflexivity.
Defined.

(** X13. Counters that wrap around 2^64 between two passes do not disturb
    the load: when every counter has grown by a nonnegative amount, the
    amounts adding up to less than 2^64 and not to zero, the load is the
    formula applied to the growth of the idle time and the total growth,
    whatever the earlier values were. *)
Theorem load_survives_wrap_around prev delta :
  Forall (fun v => 0 <= v) (counters delta) ->
  0 < counters_sum delta < 2 ^ 64 ->
  calculate_cpu_load (counters_after prev delta) prev
  = load_formula (idle_sum delta) (counters_sum delta).
Proof.
  intros Hpos Hsum.
  unfold counters in Hpos. repeat (apply Forall_cons in Hpos as [? Hpos]).
  assert (wrap64 (counters_sum (counters_after prev delta) - counters_sum prev)
          = counters_sum delta) as Ht.
  { unfold counters_sum, counters_after, add64.
    cbn [user nice system idle iowait irq softirq steal guest guest_nice].
    destruct (wrap64_shift (user prev + user delta)) as [k1 ->].
    destruct (wrap64_shift (nice prev + nice delta)) as [k2 ->].
    destruct (wrap64_shift (system prev + system delta)) as [k3 ->].
    destruct (wrap64_shift (idle prev + idle delta)) as [k4 ->].
    destruct (wrap64_shift (iowait prev + iowait delta)) as [k5 ->].
    destruct (wrap64_shift (irq prev + irq delta)) as [k6 ->].
    destruct (wrap64_shift (softirq prev + softirq delta)) as [k7 ->].
    destruct (wrap64_shift (steal prev + steal delta)) as [k8 ->].
    destruct (wrap64_shift (guest prev + guest delta)) as [k9 ->].
    destruct (wrap64_shift (guest_nice prev + guest_nice delta)) as [k10 ->].
    match goal with |- wrap64 ?x = ?y =>
      replace x with (y + (k1 + k2 + k3 + k4 + k5 + k6 + k7 + k8 + k9 + k10) * 2 ^ 64)
        by ring
    end.
    rewrite wrap64_add_multiple. apply wrap64_small.
    unfold counters_sum in Hsum. lia. }
  assert (wrap64 (idle_sum (counters_after prev delta) - idle_sum prev) = idle_sum delta)
    as Hi.
  { unfold idle_sum, counters_after, add64. cbn [idle iowait].
    destruct (wrap64_shift (idle prev + idle delta)) as [k4 ->].
    destruct (wrap64_shift (iowait prev + iowait delta)) as [k5 ->].
    match goal with |- wrap64 ?x = ?y =>
      replace x with (y + (k4 + k5) * 2 ^ 64) by ring
    end.
    rewrite wrap64_add_multiple. apply wrap64_small.
    unfold counters_sum in Hsum. lia. }
  rewrite calculate_cpu_load_deltas by (rewrite Ht; lia).
  rewrite Ht, Hi. reflexivity.
Qed.

Lemma load_survives_wrap_around_witness :
  user (counters_after snapshot_high snapshot_increase) = 10
  /\ calculate_cpu_load (counters_after snapshot_high snapshot_increase) snapshot_high
     = load_formula 5 20.
Proof.
  split; [reflexivity|].
  apply (load_survives_wrap_around snapshot_high snapshot_increase).
  - repeat (apply Forall_cons_2 || apply Forall_nil_2); vm_compute; discriminate.
  - vm_compute. split; reflexivity.
Defined.

Section MoreParsing.

Lemma fgets_lines_join_app size pieces rest :
  (2 <= size)%nat -> Forall (whole_buffer (size - 1)) pieces ->
  fgets_lines size (join_pieces pieces +:+ rest) = pieces ++ fgets_lines size rest.
Proof.
  intros Hsize. induction 1 as [|piece pieces Hw _ IH]; [reflexivity|].
  cbn [join_pieces app]. rewrite append_assoc, fgets_lines_cons, IH by assumption.
  reflexivity.
Qed.

Lemma parse_options_app r1 r2 o :
  parse_options (r1 ++ r2) o = parse_options r2 (parse_options r1 o).
Proof.
  revert o. induction r1 as [|[c arg] r1 IH]; intros o; [reflexivity|].
  cbn [app parse_options]. apply IH.
Qed.

Lemma atoi_decimal n : 0 <= n -> atoi (decimal n) = n.
Proof.
  intros Hn. unfold atoi. rewrite <- (append_nil_r (decimal n)).
  rewrite skip_space_decimal, scan_number_decimal by first [exact Hn|reflexivity].
  reflexivity.
Qed.

End MoreParsing.

(** X14. The program reads back what the kernel prints. On the line of
    core [i] with counters in the 64-bit range the full format converts all
    eleven values, the core number and the ten counters in order. On the
    aggregate line, where white space follows the tag, it converts ten only:
    the line is not accepted, and the stores it has made by then put the
    second to the tenth counter into the first nine members. *)
Theorem stat_line_round_trip i s c :
  0 <= i < 2 ^ 31 -> in_range64 s ->
  sscanf fmt_cpu_stats (c_str (core_line i s)) = i :: counters s
  /\ length (sscanf fmt_cpu_stats (c_str (aggregate_line s))) = 10%nat
  /\ line_stores c (sscanf fmt_cpu_stats (c_str (aggregate_line s)))
     = zip_with (fun f v => {| st_index := c; st_field := f; st_value := v |})
                fields (tail (counters s)).
Proof.
  intros Hi Hs.
  rewrite c_str_core_line, c_str_aggregate_line, sscanf_core_line, sscanf_aggregate_line
    by first [lia|exact Hs].
  repeat split; reflexivity.
Qed.

Lemma stat_line_round_trip_witness :
  sscanf fmt_cpu_stats (c_str (core_line 1 snapshot_100))
  = [1; 150; 0; 30; 60; 10; 0; 0; 0; 0; 0].
Proof.
  apply (stat_line_round_trip 1 snapshot_100 0).
  - vm_compute. split; [discriminate|reflexivity].
  - repeat (apply Forall_cons_2 || apply Forall_nil_2); vm_compute; split; discriminate.
Defined.

(** X15. The number after the tag of a per-core line is not used: the
    entries are filled in the order of the lines. Two files that differ only
    in the core number written on one per-core line give the same array and
    the same count. *)
Theorem core_number_ignored pieces i i' s rest cpu_data num_cpus :
  Forall (whole_buffer 255) pieces ->
  0 <= i < 2 ^ 31 -> 0 <= i' < 2 ^ 31 -> in_range64 s ->
  (String.length (core_line i s) <= 255)%nat ->
  (String.length (core_line i' s) <= 255)%nat ->
  parse_cpu_stats (join_pieces pieces +:+ core_line i s +:+ rest) cpu_data num_cpus
  = parse_cpu_stats (join_pieces pieces +:+ core_line i' s +:+ rest) cpu_data num_cpus.
Proof.
  intros Hp Hi Hi' Hs Hl Hl'. unfold parse_cpu_stats, parse_cpu_stats_stores.
  rewrite !(fgets_lines_join_app 256) by first [lia|exact Hp].
  rewrite !(fgets_lines_cons 256)
    by first [lia|apply whole_buffer_core_line; assumption].
  rewrite !parse_loop_app. cbn [parse_loop].
  rewrite !c_str_core_line, !sscanf_core_line by first [lia|exact Hs].
  reflexivity.
Qed.

Lemma core_number_ignored_witness :
  parse_cpu_stats (core_line 0 snapshot_100 +:+ core_line 1 snapshot_0)
                  (replicate 2 zero_data) 2
  = parse_cpu_stats (core_line 2 snapshot_100 +:+ core_line 1 snapshot_0)
                    (replicate 2 zero_data) 2.
Proof.
  apply (core_number_ignored [] 0 2 snapshot_100 (core_line 1 snapshot_0)
                             (replicate 2 zero_data) 2).
  - apply Forall_nil_2.
  - vm_compute. split; [discriminate|reflexivity].
  - vm_compute. split; [discriminate|reflexivity].
  - repeat (apply Forall_cons_2 || apply Forall_nil_2); vm_compute; split; discriminate.
  - vm_compute. lia.
  - vm_compute. lia.
Defined.

(** X16. The last [-t] given sets the interval: with an argument that is
    the decimal text of [n], for [n] below 2^31, the interval is [n]
    microseconds, and the other settings are those of the options before
    it. *)
Theorem interval_option results n o :
  0 <= n < 2 ^ 31 ->
  parse_options (results ++ [("t"%char, decimal n)]) o
  = {| show_help := show_help (parse_options results o);
       should_write_marker := should_write_marker (parse_options results o);
       interval := n |}.
Proof.
  intros Hn. rewrite parse_options_app. cbn [parse_options Ascii.eqb Bool.eqb].
  rewrite atoi_decimal by lia. unfold to_useconds.
  rewrite Z.mod_small by lia. reflexivity.
Qed.

Lemma interval_option_witness :
  parse_options [("m"%char, EmptyString); ("t"%char, "500000"%string)] default_options
  = {| show_help := false; should_write_marker := true; interval := 500000 |}.
Proof.
  apply (interval_option [("m"%char, EmptyString)] 500000 default_options).
  vm_compute. split; [discriminate|reflexivity].
Defined.

Section OutputLines.

Lemma fixed_point_no_newline p q : occurrences newline (fixed_point p q) = O.
Proof.
  unfold fixed_point. destruct p as [|p].
  - apply digits_only_occurrences; [reflexivity|apply digits_only_decimal].
  - rewrite occurrences_app. cbn [occurrences].
    rewrite !digits_only_occurrences
      by first [reflexivity|apply digits_only_decimal|apply digits_only_padded].
    reflexivity.
Qed.

Lemma format_f_no_newline p x : occurrences newline (format_f p x) = O.
Proof.
  destruct x as [s|s| |s m e]; cbn [format_f]; try reflexivity;
    destruct s; cbn [sign_prefix occurrences]; try reflexivity;
    rewrite ?fixed_point_no_newline; reflexivity.
Qed.

Lemma format_d_no_newline n : occurrences newline (format_d n) = O.
Proof.
  unfold format_d. destruct (n <? 0); cbn [occurrences];
    rewrite digits_only_occurrences by first [reflexivity|apply digits_only_decimal];
    reflexivity.
Qed.

Lemma loads_text_no_newline loads : occurrences newline (loads_text loads) = O.
Proof.
  induction loads as [|l loads IH]; [reflexivity|].
  cbn [loads_text]. change ("," +:+ ?x) with (String "," x). cbn [occurrences].
  rewrite occurrences_app, format_f_no_newline, IH. reflexivity.
Qed.

Lemma row_line_no_newline now loads : occurrences newline (row_line now loads) = O.
Proof.
  unfold row_line. rewrite occurrences_app, format_f_no_newline, loads_text_no_newline.
  reflexivity.
Qed.

Lemma column_names_no_newline ids : occurrences newline (column_names ids) = O.
Proof.
  induction ids as [|i ids IH]; [reflexivity|].
  cbn [column_names]. change (",cpu" +:+ ?x) with (String "," (String "c" (String "p" (String "u" x)))).
  cbn [occurrences]. rewrite !occurrences_app, format_d_no_newline, IH. reflexivity.
Qed.

Lemma header_line_no_newline num_cpus : occurrences newline (header_line num_cpus) = O.
Proof.
  unfold header_line. rewrite header_columns_names.
  change ("time" +:+ ?x) with (String "t" (String "i" (String "m" (String "e" x)))).
  cbn [occurrences]. apply column_names_no_newline.
Qed.

Lemma rows_text_newlines rows : occurrences newline (rows_text rows) = length rows.
Proof.
  induction rows as [|[now loads] rows IH]; [reflexivity|].
  cbn [rows_text length]. rewrite !occurrences_app, row_line_no_newline, IH. reflexivity.
Qed.

End OutputLines.

(** X18. A run that reaches the loop prints whole lines only, one for the
    header and one per iteration: neither the header nor a row contains a
    newline character, and after [ticks] iterations standard output contains
    exactly [ticks + 1] of them. *)
Theorem output_line_count env ticks :
  ending_of env = Clean_shutdown ->
  occurrences newline (stdout (main env ticks)) = S ticks
  /\ occurrences newline (header_line (core_count env)) = O
  /\ Forall (fun row => occurrences newline (row_line (fst row) (snd row)) = O)
            (sample_rows true env ticks).
Proof.
  intros Hrun. split; [|split].
  - unfold main. rewrite main_with_running by exact Hrun. cbn [stdout].
    assert (header (core_count env) = header_line (core_count env) +:+ nl) as ->
      by (unfold header, header_line; rewrite !append_assoc; reflexivity).
    rewrite !occurrences_app, header_line_no_newline, rows_text_newlines.
    unfold sample_rows. rewrite rows_from_length. reflexivity.
  - apply header_line_no_newline.
  - apply Forall_forall. intros [now loads] _. apply row_line_no_newline.
Qed.

Lemma output_line_count_witness :
  occurrences newline (stdout (main busy_env 2)) = 3%nat.
Proof. apply (output_line_count busy_env 2). reflexivity. Defined.

Section KernelRun.

Variable reads : nat -> string.
Variable agg : nat -> cpu_stats_t.
Variable cores : nat -> list cpu_stats_t.
Variable others : nat -> list string.
Variable n : nat.

Hypothesis Hn : (0 < n)%nat.
Hypothesis Hfiles :
  forall i, reads i = stat_text (agg i) (cores i) (others i)
            /\ kernel_format (agg i) (cores i) (others i)
            /\ length (cores i) = n.

Local Abbreviation M := (Z.of_nat n + 1).

Lemma lookup_parse_pass i cpu_data j :
  fst (parse_cpu_stats (reads i) cpu_data M) !! j = refreshed (cores i) j <$> cpu_data !! j.
Proof.
  destruct (Hfiles i) as (-> & Hk & Hlen).
  apply lookup_parse_stat_text; [exact Hk| |lia].
  destruct (cores i); [cbn in Hlen; lia|discriminate].
Qed.

Lemma lookup_settled_on cs j :
  settled_on cs !! j
  = match cs !! j with
    | Some s => Some {| current := s; previous := s |}
    | None => if decide (j = length cs) then Some zero_data else None
    end.
Proof.
  unfold settled_on. destruct (cs !! j) as [s|] eqn:Hj.
  - rewrite lookup_app_l by (rewrite length_fmap; eapply lookup_lt_Some, Hj).
    rewrite list_lookup_fmap, Hj. reflexivity.
  - apply lookup_ge_None in Hj.
    rewrite lookup_app_r by (rewrite length_fmap; exact Hj). rewrite length_fmap.
    destruct (decide (j = length cs)) as [->|Hne].
    + rewrite Nat.sub_diag. reflexivity.
    + destruct (j - length cs)%nat as [|m] eqn:Hm; [lia|reflexivity].
Qed.

(** A pass and the copy of [current] over [previous] bring the array to
    the counters of the pass. *)
Lemma pass_settles i cpu_data :
  length cpu_data = S n -> current <$> cpu_data !! n = Some zero_stats ->
  seed_previous (fst (parse_cpu_stats (reads i) cpu_data M)) M = settled_on (cores i).
Proof.
  intros Hlen Hlast. destruct (Hfiles i) as (_ & _ & Hc).
  apply list_eq. intros j.
  rewrite lookup_seed_previous, lookup_parse_pass, lookup_settled_on, Hc.
  unfold advanced, refreshed.
  destruct (cores i !! j) as [s|] eqn:Hj.
  - pose proof (lookup_lt_Some _ _ _ Hj) as Hlt.
    destruct (lookup_lt_is_Some_2 cpu_data j ltac:(lia)) as [d ->].
    cbn [fmap option_fmap option_map default].
    rewrite decide_True by lia. reflexivity.
  - apply lookup_ge_None in Hj. destruct (decide (j = n)) as [->|Hne].
    + destruct (cpu_data !! n) as [d|]; [|discriminate].
      cbn [fmap option_fmap option_map default] in *. injection Hlast as Hd.
      rewrite decide_True by lia. cbn [current previous]. rewrite Hd. reflexivity.
    + rewrite (lookup_ge_None_2 cpu_data j) by lia. reflexivity.
Qed.

Lemma settled_on_last cs : length cs = n -> current <$> settled_on cs !! n = Some zero_stats.
Proof.
  intros Hlen. rewrite lookup_settled_on, (lookup_ge_None_2 cs n) by lia.
  rewrite decide_True by lia. reflexivity.
Qed.

Lemma length_settled_on cs : length (settled_on cs) = S (length cs).
Proof. unfold settled_on. rewrite length_app, length_fmap. cbn. lia. Qed.

Lemma initial_data_settled_on : initial_data reads M = settled_on (cores 1%nat).
Proof.
  rewrite initial_data_eq. apply pass_settles.
  - rewrite length_replicate. lia.
  - rewrite lookup_replicate_2 by lia. reflexivity.
Qed.

(** The loads of an iteration that is not the first. *)
Lemma pass_loads i cs :
  length cs = n ->
  iteration_loads true false (fst (parse_cpu_stats (reads i) (settled_on cs) M)) M
  = zip_with calculate_cpu_load (cores i) cs ++ [dzero].
Proof.
  intros Hlen. destruct (Hfiles i) as (_ & _ & Hc).
  apply list_eq. intros j.
  destruct (decide (j < S n)%nat) as [Hj|Hj].
  - rewrite lookup_iteration_loads by lia. unfold core_load. rewrite Nat2Z.id.
    cbn [andb]. rewrite list_lookup_total_alt, lookup_parse_pass, lookup_settled_on.
    unfold refreshed. destruct (decide (j < n)%nat) as [Hlt|Hge].
    + destruct (lookup_lt_is_Some_2 cs j ltac:(lia)) as [s Hs].
      destruct (lookup_lt_is_Some_2 (cores i) j ltac:(lia)) as [s' Hs'].
      rewrite Hs. cbn [fmap option_fmap option_map default current previous].
      rewrite Hs'. cbn [default].
      rewrite lookup_app_l by (rewrite length_zip_with; lia).
      rewrite lookup_zip_with, Hs', Hs. reflexivity.
    + assert (j = n) as -> by lia.
      rewrite (lookup_ge_None_2 cs n), decide_True by lia.
      cbn [fmap option_fmap option_map default current previous].
      rewrite (lookup_ge_None_2 (cores i) n) by lia. cbn [default].
      rewrite lookup_app_r by (rewrite length_zip_with; lia).
      rewrite length_zip_with, Hc, Hlen, Nat.min_id, Nat.sub_diag.
      rewrite calculate_cpu_load_same. reflexivity.
  - rewrite !lookup_ge_None_2; [reflexivity| |].
    + rewrite length_app, length_zip_with. cbn [length]. lia.
    + rewrite length_iteration_loads. lia.
Qed.

Lemma rows_from_kernel clock ticks :
  forall k,
    rows_from true reads clock M ticks k (bool_decide (k = O)) (settled_on (cores (1 + k)%nat))
    = (fun i => (clock i, expected_loads cores i)) <$> seq k ticks.
Proof.
  induction ticks as [|ticks IH]; intros k; [reflexivity|].
  cbn [rows_from seq fmap list_fmap]. f_equal.
  - f_equal. destruct k as [|k].
    + rewrite bool_decide_eq_true_2 by reflexivity. rewrite first_tick_loads.
      cbn [expected_loads]. destruct (Hfiles 2%nat) as (_ & _ & ->).
      f_equal. lia.
    + rewrite bool_decide_eq_false_2 by discriminate.
      cbn [expected_loads]. apply pass_loads. apply Hfiles.
  - rewrite pass_settles.
    + rewrite <- (IH (S k)). rewrite (bool_decide_eq_false_2 (S k = O)) by discriminate.
      reflexivity.
    + rewrite length_settled_on. destruct (Hfiles (1 + k)%nat) as (_ & _ & ->). reflexivity.
    + apply settled_on_last, Hfiles.
Qed.

End KernelRun.

(** X17. A whole run on well-formed input. When every pass over
    /proc/stat shows a file in the kernel's format with the same number
    n >= 1 of cores, a run without a help option and with a successful
    allocation prints the header for n + 1 columns (the aggregate line was
    counted) and then, for each iteration, the clock of the iteration, the
    loads of the n cores computed by [calculate_cpu_load] from the counters of
    this pass and of the pass before (0.0 on the first iteration), and a last
    column that is always 0.0; the status is 0. *)
Theorem main_on_kernel_files env reads agg cores others n ticks :
  existsb asks_help (getopt_results env) = false ->
  proc_stat env = Some reads ->
  calloc_ok env = true ->
  (0 < n)%nat ->
  (forall i, reads i = stat_text (agg i) (cores i) (others i)
             /\ kernel_format (agg i) (cores i) (others i)
             /\ length (cores i) = n) ->
  main env ticks
  = {| stdout := header (Z.of_nat n + 1)
                 +:+ rows_text (expected_rows (boottime env) cores ticks);
       exit_status := 0 |}.
Proof.
  intros Hopt Hproc Hcalloc Hn Hfiles.
  assert (reads_of env = reads) as Hreads by (unfold reads_of; rewrite Hproc; reflexivity).
  assert (core_count env = Z.of_nat n + 1) as Hcount.
  { unfold core_count. rewrite Hreads. destruct (Hfiles 0%nat) as (-> & Hk & <-).
    apply count_cpus_stat_text, Hk. }
  assert (ending_of env = Clean_shutdown) as Hrun.
  { unfold ending_of. rewrite show_help_parse_options, Hopt, Hproc.
    cbn [default_options show_help orb]. fold (reads_of env) in Hcount.
    unfold core_count in Hcount. rewrite Hreads in Hcount. rewrite Hcount, Hcalloc.
    destruct (Z.eqb_spec (Z.of_nat n + 1) 0); [lia|reflexivity]. }
  unfold main. rewrite main_with_running by exact Hrun.
  unfold sample_rows, expected_rows. rewrite Hreads, Hcount.
  rewrite (initial_data_settled_on reads agg cores others n Hn Hfiles).
  pose proof (rows_from_kernel reads agg cores others n Hn Hfiles (boottime env) ticks 0%nat)
    as Hrows.
  rewrite bool_decide_eq_true_2 in Hrows by reflexivity.
  cbn [Nat.add] in Hrows. rewrite Hrows. reflexivity.
Qed.

Lemma main_on_kernel_files_witness :
  main kernel_env 2
  = {| stdout := header 3 +:+ rows_text (expected_rows sample_clock sample_passes 2);
       exit_status := 0 |}
  /\ rows_text (expected_rows sample_clock sample_passes 2)
     = ("100.500000,0.00,0.00,0.00" +:+ nl +:+ "101.500000,80.00,0.00,0.00" +:+ nl)%string.
Proof.
  split; [|vm_compute; reflexivity].
  apply (main_on_kernel_files kernel_env
           (fun i => stat_text sample_aggregate (sample_passes i) sample_others)
           (fun _ => sample_aggregate) sample_passes (fun _ => sample_others) 2 2).
  - reflexivity.
  - reflexivity.
  - reflexivity.
  - lia.
  - intros i. split; [reflexivity|]. unfold sample_passes.
    destruct (i <=? 2)%nat; (split; [apply kernel_format_samples|reflexivity]).
Defined.

